(** * The tablet manager's action agent (go/vt/tabletmanager/agent.go)

    A shallow embedding of the agent: the tablet record cache
    ([readTablet], [Tablet]), the action queue processor
    ([dispatchAction], [handleActionQueue]), the bootstrap of the
    coordination namespace ([verifyZkPaths]), the serving-address
    publisher ([verifyZkServingAddrs], [updateEndpoints]) and the event
    loop ([Start], [actionEventLoop]).

    The agent is stateful Go code talking to a coordination store, the
    local file system and a child process.  It is embedded in a monad
    that passes the process state explicitly and that can panic; the
    collaborators the agent only calls (the zk.Conn interface, the JSON
    codecs, os and exec) are the fields of a record [Externals].

    The file holds a second package, barnacle: the singleton
    [RpcBarnacle], [Init] and the rpc methods that work on pooled
    sessions. It is embedded in the module [Barnacle], in a monad of
    its own in which a function returns, panics or ends the process,
    over the record [Services] of the pool and the connections. *)

From Stdlib Require Import ZArith NArith String Ascii List Lia Bool.
From Stdlib Require Import Decimal DecimalString DecimalZ DecimalN.
From stdpp Require Import base gmap strings list sorting.

Local Open Scope Z_scope.

(** * Part I: the program

    The definitions of this part follow agent.go function by function;
    the definitions after them name the states, traces and inputs the
    theorems of Part II speak about. *)

(** ** Strings: Go's byte-wise order and decimal formatting *)

(** Go compares strings byte by byte; [String.leb] does the same on
    the codes of the characters. *)
Definition string_le (a b : string) : Prop := String.leb a b = true.

#[global] Instance string_le_dec a b : Decision (string_le a b).
Proof. unfold string_le. apply _. Defined.

(** [fmt.Sprintf("%v", n)] for a Go int: decimal digits, a leading
    minus sign for negative numbers. *)
Definition itoa (n : Z) : string := NilZero.string_of_int (Z.to_int n).

(** The digits of an unsigned decimal numeral, most significant first;
    [None] when the string is empty or holds a character that is not a
    digit. *)
Definition parse_digits (s : string) : option Z :=
  match s with
  | EmptyString => None
  | _ => option_map Z.of_uint (NilEmpty.uint_of_string s)
  end.

(** ** Errors *)

(** The dynamic types of the Go [error] values the agent tells apart:
    [*zookeeper.Error] (inspected for its [Code]), [*exec.ExitError]
    (the child ran and exited with a nonzero status), the package-level
    sentinel [skipUpdateErr] (compared by identity), and every other
    error. *)
Inductive error : Type :=
| ZkError (code : Z)
| ExitError (status : Z)
| skipUpdateErr
| OtherError (msg : string).

#[global] Instance error_eq_dec : EqDecision error.
Proof. solve_decision. Defined.

(** zookeeper's error codes used by the agent and by the store client. *)
Definition ZNONODE : Z := -101.
Definition ZBADVERSION : Z := -103.
Definition ZNODEEXISTS : Z := -110.

(** [zookeeper.EVENT_CHILD]. *)
Definition EVENT_CHILD : Z := 4.

(** ** The data model *)

(** [Tablet] (package tabletmanager, tablet.go): the fields the agent
    reads. [Uid] is unsigned. *)
Record Tablet : Type := mkTablet {
  Cell : string;
  Uid : N;
  Addr : string;
  MysqlAddr : string;
  Keyspace : string;
  Shard : string;
  Type_ : string
}.

(** [TabletInfo] wraps a [Tablet] with the paths derived from where the
    record lives in the store. *)
Record TabletInfo : Type := mkTabletInfo {
  TabletOf : Tablet;
  Path : string;
  PidPath : string;
  ReplicationPath : string;
  ShardPath : string;
  IsServingType : bool
}.

(** [ActionNode]: the two fields [dispatchAction] passes on. *)
Record ActionNode : Type := mkActionNode {
  Action : string;
  ActionGuid : string
}.

(** [zookeeper.Stat], reduced to the version the conditional write
    compares. A nil [*Stat] is [None]. *)
Record Stat : Type := mkStat { Version : Z }.

(** [zookeeper.Event]. *)
Record Event : Type := mkEvent {
  EventType : Z;
  EventState : Z
}.

(** A watch channel [<-chan zookeeper.Event]; nil is [None]. *)
Definition Watch : Type := option nat.

(** A Go map object lives on the heap and is shared by every copy of
    the struct that holds it: [mapref] is its address. *)
Abbreviation mapref := nat (only parsing).

(** [naming.VtnsAddr] as a Go struct value: copying the struct copies
    [Uid], [Host] and [Port], and shares the map ([None] is the nil
    map). *)
Record VtnsAddr : Type := mkVtnsAddr {
  vUid : N;
  vHost : string;
  vPort : Z;
  vNamedPortMap : option mapref
}.

(** The same entry as it is on the wire: the map by value. *)
Record VtnsAddrData : Type := mkVtnsAddrData {
  dUid : N;
  dHost : string;
  dPort : Z;
  dNamedPortMap : option (gmap string Z)
}.

(** ** What the process logs and does to the outside *)

Inductive level : Type := Info | Warning | Error.

(** An argument of a log line. *)
Inductive logarg : Type :=
| LStr (s : string)
| LErr (e : error)
| LCmd (cmd : list string)
| LEvent (e : Event).

(** A call on the coordination store. *)
Inductive zkcall : Type :=
| ZkGet (path : string)
| ZkChildrenW (path : string)
| ZkCreate (path value : string)
| ZkSet (path value : string) (version : Z)
| ZkReadTablet (path : string)
| ZkReadShard (path : string)
| ZkCreatePidNode (path : string).

Inductive event : Type :=
| EvLog (l : level) (format : string) (args : list logarg)
| EvStore (c : zkcall)
| EvExec (cmd : list string)
| EvSleep (seconds : Z)
| EvWait (w : Watch).

#[global] Instance Event_eq_dec : EqDecision Event.
Proof. solve_decision. Defined.
#[global] Instance level_eq_dec : EqDecision level.
Proof. solve_decision. Defined.
#[global] Instance logarg_eq_dec : EqDecision logarg.
Proof. solve_decision. Defined.
#[global] Instance zkcall_eq_dec : EqDecision zkcall.
Proof. solve_decision. Defined.
#[global] Instance event_eq_dec : EqDecision event.
Proof. solve_decision. Defined.

(** ** The agent and the state of its process *)

(** [ActionAgent]. The connection [zconn] is the world the process
    talks to (see [Externals]); [mutex] is [true] while locked. *)
Record ActionAgent : Type := mkActionAgent {
  zkTabletPath : string;
  zkActionPath : string;
  vtActionBinPath : string;
  MycnfPath : string;
  mutex : bool;
  _tablet : option TabletInfo
}.

(** The collaborators the agent calls and does not implement, over a
    world [W] (the store, the file system, the child processes). A call
    that can change the world returns the new one. *)
Record Externals (W : Type) : Type := mkExternals {
  (* zk.Conn *)
  zk_Get : W -> string -> (string * Stat) + error;
  zk_ChildrenW : W -> string -> list string * Watch * option error;
  zk_Create : W -> string -> string -> option error * W;
  zk_Set : W -> string -> string -> Z -> option error * W;
  zk_CreatePidNode : W -> string -> option error * W;
  (* receiving from a watch, time.Sleep, Event.Ok *)
  chan_recv : W -> Watch -> Event * W;
  time_Sleep : W -> Z -> W;
  Event_Ok : Event -> bool;
  (* package tabletmanager, other files *)
  ReadTablet : W -> string -> TabletInfo + error;
  ReadShard : W -> string -> (Tablet -> bool) + error;
  ActionNodeFromJson : string -> string -> ActionNode + error;
  tabletFromJson : string -> Tablet + error;
  toJson_tablet : Tablet -> string;
  toJson_addrs : list VtnsAddrData -> string;
  TabletActionPath : string -> string;
  (* package naming, encoding/json *)
  ZkPathForVtName : string -> string -> string -> string -> string;
  json_Unmarshal_addrs : string -> list VtnsAddrData + error;
  (* os, os/exec, flag *)
  os_Stat : W -> string -> bool;
  os_Hostname : W -> string + error;
  env_VTROOT : string;
  CombinedOutput : W -> list string -> (string * option error) * W;
  flag_logfile : string
}.

Arguments zk_Get {W}. Arguments zk_ChildrenW {W}. Arguments zk_Create {W}.
Arguments zk_Set {W}. Arguments zk_CreatePidNode {W}. Arguments chan_recv {W}.
Arguments time_Sleep {W}. Arguments Event_Ok {W}. Arguments ReadTablet {W}.
Arguments ReadShard {W}. Arguments ActionNodeFromJson {W}.
Arguments tabletFromJson {W}. Arguments toJson_tablet {W}.
Arguments toJson_addrs {W}. Arguments TabletActionPath {W}.
Arguments ZkPathForVtName {W}. Arguments json_Unmarshal_addrs {W}.
Arguments os_Stat {W}. Arguments os_Hostname {W}. Arguments env_VTROOT {W}.
Arguments CombinedOutput {W}. Arguments flag_logfile {W}.

(** The state of the agent's process: the agent, the world, the heap of
    Go maps, and what the process has logged and called so far. *)
Record State (W : Type) : Type := mkState {
  agent : ActionAgent;
  world : W;
  maps : list (gmap string Z);
  trace : list event
}.

Arguments mkState {W}. Arguments agent {W}. Arguments world {W}.
Arguments maps {W}. Arguments trace {W}.

(** ** The monad: state passing, with panics *)

Inductive outcome (S A : Type) : Type :=
| Ret (a : A) (s : S)
| Panicked (e : error) (s : S).

Arguments Ret {S A}. Arguments Panicked {S A}.

Definition M (W A : Type) : Type := State W -> outcome (State W) A.

Definition ret {W A} (a : A) : M W A := fun s => Ret a s.

Definition bind {W A B} (c : M W A) (k : A -> M W B) : M W B :=
  fun s => match c s with
           | Ret a s' => k a s'
           | Panicked e s' => Panicked e s'
           end.

Definition panic {W A} (e : error) : M W A := fun s => Panicked e s.

Declare Scope agent_scope.
Delimit Scope agent_scope with agent.
Notation "x <- c ;; k" := (bind c (fun x => k))
  (at level 100, c at next level, right associativity) : agent_scope.
Notation "c ;; k" := (bind c (fun _ => k))
  (at level 100, right associativity) : agent_scope.
Local Open Scope agent_scope.

Definition emit {W} (ev : event) : M W unit :=
  fun s => Ret tt (mkState (agent s) (world s) (maps s) (trace s ++ [ev])).

Definition relog {W} (l : level) (format : string) (args : list logarg) : M W unit :=
  emit (EvLog l format args).

Definition getAgent {W} : M W ActionAgent := fun s => Ret (agent s) s.

Definition setAgent {W} (a : ActionAgent) : M W unit :=
  fun s => Ret tt (mkState a (world s) (maps s) (trace s)).

Definition getWorld {W} : M W W := fun s => Ret (world s) s.

Definition setWorld {W} (w : W) : M W unit :=
  fun s => Ret tt (mkState (agent s) w (maps s) (trace s)).

(** A read of the world, recorded in the trace. *)
Definition query {W A} (c : zkcall) (f : W -> A) : M W A :=
  emit (EvStore c);; w <- getWorld;; ret (f w).

(** A call that may change the world, recorded in the trace. *)
Definition command {W A} (ev : event) (f : W -> A * W) : M W A :=
  emit ev;; w <- getWorld;; let '(a, w') := f w in setWorld w';; ret a.

(** The agent with its mutex set, and with another cached pointer. *)
Definition set_mutex (b : bool) (a : ActionAgent) : ActionAgent :=
  mkActionAgent (zkTabletPath a) (zkActionPath a)
    (vtActionBinPath a) (MycnfPath a) b (_tablet a).

Definition set_tablet (tablet : TabletInfo) (a : ActionAgent) : ActionAgent :=
  mkActionAgent (zkTabletPath a) (zkActionPath a)
    (vtActionBinPath a) (MycnfPath a) (mutex a) (Some tablet).

(** Go's mutex: locking a held mutex blocks, and with a single
    goroutine that is the runtime's deadlock abort. *)
Definition Lock {W} : M W unit :=
  a <- getAgent;;
  if mutex a then panic (OtherError "all goroutines are asleep - deadlock")
  else setAgent (set_mutex true a).

Definition Unlock {W} : M W unit :=
  a <- getAgent;;
  if mutex a then setAgent (set_mutex false a)
  else panic (OtherError "sync: unlock of unlocked mutex").

(** Dereferencing a [*TabletInfo]: nil panics. *)
Definition deref {W} (t : option TabletInfo) : M W TabletInfo :=
  match t with
  | Some ti => ret ti
  | None => panic (OtherError "invalid memory address or nil pointer dereference")
  end.

(** ** Library functions the agent calls *)

(** The part of [s] before the last [c], and the part after it. *)
Fixpoint split_last (c : ascii) (s : string) : option (string * string) :=
  match s with
  | EmptyString => None
  | String a rest =>
      match split_last c rest with
      | Some (h, p) => Some (String a h, p)
      | None => if Ascii.eqb a c then Some (EmptyString, rest) else None
      end
  end.

Fixpoint contains_char (c : ascii) (s : string) : bool :=
  match s with
  | EmptyString => false
  | String a rest => Ascii.eqb a c || contains_char c rest
  end.

(** The index of the first [c] in [s], and [s] from its [n]th
    character on. *)
Fixpoint index_byte (c : ascii) (s : string) : option nat :=
  match s with
  | EmptyString => None
  | String a rest =>
      if Ascii.eqb a c then Some 0%nat else option_map S (index_byte c rest)
  end.

Fixpoint string_drop (n : nat) (s : string) : string :=
  match n, s with
  | O, _ => s
  | S n', String _ rest => string_drop n' rest
  | S _, EmptyString => EmptyString
  end.

(** Go's [net.SplitHostPort]: the port starts after the last colon. A
    host in brackets ends at the first closing bracket, which stands
    just before that colon, and loses the brackets; a host without
    brackets holds no colon; and no other bracket is accepted
    anywhere. *)
Definition net_SplitHostPort (hostport : string) : (string * string) + error :=
  match split_last ":" hostport with
  | None => inr (OtherError "missing port in address")
  | Some (before, port) =>
      let i := String.length before in
      if bool_decide (String.get 0 hostport = Some "["%char) then
        (* Expect the first ']' just before the last ':'. *)
        match index_byte "]" hostport with
        | None => inr (OtherError "missing ']' in address")
        | Some e =>
            if (e + 1 =? String.length hostport)%nat then
              inr (OtherError "missing port in address")
            else if (e + 1 =? i)%nat then
              if contains_char "[" (string_drop 1 hostport) then
                inr (OtherError "unexpected '[' in address")
              else if contains_char "]" (string_drop (e + 1) hostport) then
                inr (OtherError "unexpected ']' in address")
              else inl (String.substring 1 (e - 1) hostport, port)
            else if bool_decide (String.get (e + 1) hostport = Some ":"%char) then
              inr (OtherError "too many colons in address")
            else inr (OtherError "missing port in address")
        end
      else if contains_char ":" before then
        inr (OtherError "too many colons in address")
      else if contains_char "[" hostport then
        inr (OtherError "unexpected '[' in address")
      else if contains_char "]" hostport then
        inr (OtherError "unexpected ']' in address")
      else inl (before, port)
  end.

(** Go's [strconv.ParseInt(s, 10, 16)]: an optional sign, then decimal
    digits (at least one), and a value in the range of a signed 16-bit
    integer. *)
Definition strconv_ParseInt16 (s : string) : Z + error :=
  match s with
  | EmptyString => inr (OtherError "strconv.ParseInt: invalid syntax")
  | String c rest =>
      let '(neg, digits) :=
        if Ascii.eqb c "+" then (false, rest)
        else if Ascii.eqb c "-" then (true, rest)
        else (false, s) in
      match parse_digits digits with
      | None => inr (OtherError "strconv.ParseInt: invalid syntax")
      | Some un =>
          if neg then
            if un <=? 32768 then inl (- un)
            else inr (OtherError "strconv.ParseInt: value out of range")
          else
            if un <? 32768 then inl un
            else inr (OtherError "strconv.ParseInt: value out of range")
      end
  end.

(** [fmt.Sprintf("%010d", n)] for an unsigned [n]: at least ten digits,
    zeros on the left. *)
Definition fmt_010d (n : N) : string :=
  let d := NilZero.string_of_uint (N.to_uint n) in
  String.concat "" (repeat "0"%string (10 - String.length d)) +:+ d.

(** [sort.Strings]: the strings in increasing byte-wise order. *)
Definition sort_Strings (l : list string) : list string :=
  merge_sort string_le l.

(** ** The agent's methods *)

Section Agent.
Context {W : Type} (X : Externals W).

#[local] Abbreviation M := (M W).

(** [NewActionAgent(zconn, zkTabletPath)]. *)
Definition NewActionAgent (zkTabletPath : string) : ActionAgent :=
  let actionPath := TabletActionPath X zkTabletPath in
  mkActionAgent zkTabletPath actionPath "" "" false None.

(** The assignment [agent._tablet = tablet]. *)
Definition store_tablet (tablet : TabletInfo) : M unit :=
  a <- getAgent;; setAgent (set_tablet tablet a).

(** [agent.readTablet()]. *)
Definition readTablet : M (option error) :=
  a <- getAgent;;
  r <- query (ZkReadTablet (zkTabletPath a))
         (fun w => ReadTablet X w (zkTabletPath a));;
  match r with
  | inr err => ret (Some err)
  | inl tablet =>
      Lock;;
      store_tablet tablet;;
      Unlock;;
      ret None
  end.

(** [agent.Tablet()]. *)
Definition Tablet_ : M (option TabletInfo) :=
  Lock;;
  a <- getAgent;;
  let tablet := _tablet a in
  Unlock;;
  ret tablet.

(** [agent.Tablet().f]: the call, then the dereference. *)
Definition TabletDeref : M TabletInfo :=
  t <- Tablet_;; deref t.

(** The first path that [os.Stat] finds, as the two loops of
    [resolvePaths] pick it. *)
Definition first_existing (paths : list string) : M (option string) :=
  w <- getWorld;; ret (List.find (os_Stat X w) paths).

(** [agent.resolvePaths()]. *)
Definition resolvePaths : M (option error) :=
  let vtActionBinPaths :=
    [env_VTROOT X +:+ "/src/code.google.com/p/vitess/go/cmd/vtaction/vtaction";
     "/usr/local/bin/vtaction"] in
  found <- first_existing vtActionBinPaths;;
  match found with
  | Some path =>
      a <- getAgent;;
      setAgent (mkActionAgent (zkTabletPath a) (zkActionPath a)
                  path (MycnfPath a) (mutex a) (_tablet a))
  | None => ret tt
  end;;
  a <- getAgent;;
  if String.eqb (vtActionBinPath a) "" then
    ret (Some (OtherError "no vtaction binary found"))
  else
    t <- TabletDeref;;
    let mycnfPaths :=
      ["/vt/vt_" +:+ fmt_010d (Uid (TabletOf t)) +:+ "/my.cnf";
       "/var/lib/mysql/my.cnf"; "/etc/my.cnf"] in
    found <- first_existing mycnfPaths;;
    match found with
    | Some path =>
        a <- getAgent;;
        setAgent (mkActionAgent (zkTabletPath a) (zkActionPath a)
                    (vtActionBinPath a) path (mutex a) (_tablet a))
    | None => ret tt
    end;;
    a <- getAgent;;
    if String.eqb (MycnfPath a) "" then
      ret (Some (OtherError "no my.cnf found"))
    else ret None.

(** [agent.dispatchAction(actionPath)]. *)
Definition dispatchAction (actionPath : string) : M unit :=
  relog Info "action dispatch %v" [LStr actionPath];;
  r <- query (ZkGet actionPath) (fun w => zk_Get X w actionPath);;
  match r with
  | inr err => relog Error "action dispatch failed: %v" [LErr err]
  | inl (data, _) =>
      match ActionNodeFromJson X data actionPath with
      | inr err =>
          relog Error "action decode failed: %v %v" [LStr actionPath; LErr err]
      | inl actionNode =>
          a <- getAgent;;
          let cmd :=
            [vtActionBinPath a;
             "-action"; Action actionNode;
             "-action-node"; actionPath;
             "-action-guid"; ActionGuid actionNode;
             "-mycnf-path"; MycnfPath a;
             "-logfile"; flag_logfile X] in
          relog Info "action launch %v" [LCmd cmd];;
          out <- command (EvExec cmd) (fun w => CombinedOutput X w cmd);;
          let '(stdOut, vtActionErr) := out in
          match vtActionErr with
          | Some e =>
              relog Error "action failed: %v %v\n%s"
                [LStr actionPath; LErr e; LStr stdOut]
          | None =>
              relog Info "action completed %v %s" [LStr actionPath; LStr stdOut];;
              (* Actions should have side effects on the tablet, so reload the data. *)
              err <- readTablet;;
              match err with
              | Some e =>
                  relog Warning "failed rereading tablet after action: %v %v"
                    [LStr actionPath; LErr e]
              | None => ret tt
              end
          end
      end
  end.

(** The loop of [handleActionQueue] over the sorted children. *)
Fixpoint dispatchChildren (zkActionPath : string) (children : list string) : M unit :=
  match children with
  | [] => ret tt
  | child :: rest =>
      let actionPath := zkActionPath +:+ "/" +:+ child in
      dispatchAction actionPath;;
      dispatchChildren zkActionPath rest
  end.

(** [agent.handleActionQueue()]. *)
Definition handleActionQueue : M (Watch * option error) :=
  a <- getAgent;;
  r <- query (ZkChildrenW (zkActionPath a))
         (fun w => zk_ChildrenW X w (zkActionPath a));;
  let '(children, watch, err) := r in
  match err with
  | Some e => ret (watch, Some e)
  | None =>
      (if (0 <? length children)%nat then
         dispatchChildren (zkActionPath a) (sort_Strings children)
       else ret tt);;
      ret (watch, None)
  end.

(** The type assertion on [err] to a zookeeper error, then its
    [Code]: the assertion panics on an error of another dynamic type. *)
Definition zkErrorCode (err : error) : M Z :=
  match err with
  | ZkError code => ret code
  | _ => panic (OtherError "interface conversion: error is not *zookeeper.Error")
  end.

(** [zconn.Create(path, "", 0, zookeeper.WorldACL(zookeeper.PERM_ALL))]. *)
Definition Create (path value : string) : M (option error) :=
  command (EvStore (ZkCreate path value)) (fun w => zk_Create X w path value).

(** [agent.verifyZkPaths()]. *)
Definition verifyZkPaths : M (option error) :=
  tablet <- Tablet_;;
  match tablet with
  | None => panic (OtherError "agent._tablet is nil")
  | Some tablet =>
      let zkReplicationPath := ReplicationPath tablet in
      err <- Create zkReplicationPath "";;
      fail1 <- match err with
               | None => ret false
               | Some e => code <- zkErrorCode e;; ret (negb (code =? ZNODEEXISTS))
               end;;
      if fail1 : bool then ret err
      else
        (* Ensure that the action node is there. *)
        a <- getAgent;;
        err <- Create (zkActionPath a) "";;
        fail2 <- match err with
                 | None => ret false
                 | Some e => code <- zkErrorCode e;; ret (negb (code =? ZNODEEXISTS))
                 end;;
        if fail2 : bool then ret err else ret None
  end.

(** *** Go maps on the heap *)

(** [make(map[string]int)]: a fresh, empty map. *)
Definition newMap : M mapref :=
  fun s => Ret (length (maps s))
             (mkState (agent s) (world s) (maps s ++ [∅]) (trace s)).

(** [m[k]]: zero for a missing key and for the nil map. *)
Definition mapIndex (m : option mapref) (k : string) : M Z :=
  fun s => Ret (match m with
                | None => 0
                | Some r => default 0 (maps s !! r ≫= (fun g => g !! k))
                end) s.

(** [m[k] = v]: written through the reference, so every struct sharing
    the map sees it; assigning into the nil map panics. *)
Definition mapAssign (m : option mapref) (k : string) (v : Z) : M unit :=
  fun s => match m with
           | None => Panicked (OtherError "assignment to entry in nil map") s
           | Some r =>
               Ret tt (mkState (agent s) (world s)
                         (alter (fun g => <[k := v]> g) r (maps s)) (trace s))
           end.

(** [splitHostPort(addr)]. *)
Definition splitHostPort (addr : string) : M (string * Z) :=
  match net_SplitHostPort addr with
  | inr err => panic err
  | inl (host, port) =>
      match strconv_ParseInt16 port with
      | inr err => panic err
      | inl p => ret (host, p)
      end
  end.

(** [resolveAddr(addr)]: resolve an address where the host has been
    left blank. *)
Definition resolveAddr (addr : string) : M string :=
  hp <- splitHostPort addr;;
  let '(host, port) := hp in
  host <- (if String.eqb host "" then
             w <- getWorld;;
             match os_Hostname X w with
             | inr err => panic err
             | inl hostname => ret hostname
             end
           else ret host);;
  ret (host +:+ ":" +:+ itoa port).

(** [naming.NewAddr(uid, host, port)]: a new entry with an empty map of
    its own. *)
Definition NewAddr (uid : N) (host : string) (port : Z) : M VtnsAddr :=
  r <- newMap;; ret (mkVtnsAddr uid host port (Some r)).

(** [vtnsAddrForTablet(tablet)]. *)
Definition vtnsAddrForTablet (tablet : Tablet) : M VtnsAddr :=
  hp <- splitHostPort (Addr tablet);;
  let '(host, port) := hp in
  entry <- NewAddr (Uid tablet) host 0;;
  mapAssign (vNamedPortMap entry) "_vtocc" port;;
  hp <- splitHostPort (MysqlAddr tablet);;
  let '(host, port) := hp in
  mapAssign (vNamedPortMap entry) "_mysql" port;;
  ret entry.

(** [json.Unmarshal] into [addrs]: every decoded entry gets a map
    object of its own. *)
Fixpoint loadEntries (decoded : list VtnsAddrData) : M (list VtnsAddr) :=
  match decoded with
  | [] => ret []
  | d :: rest =>
      m <- match dNamedPortMap d with
           | None => ret None
           | Some g =>
               r <- (fun s => Ret (length (maps s))
                       (mkState (agent s) (world s) (maps s ++ [g]) (trace s)));;
               ret (Some r)
           end;;
      entries <- loadEntries rest;;
      ret (mkVtnsAddr (dUid d) (dHost d) (dPort d) m :: entries)
  end.

(** What the encoder reads: the entries with the current contents of
    their maps. *)
Definition snapshot (entries : list VtnsAddr) : M (list VtnsAddrData) :=
  fun s => Ret (map (fun e => mkVtnsAddrData (vUid e) (vHost e) (vPort e)
                                (r ← vNamedPortMap e; Some (default ∅ (maps s !! r))))
                  entries) s.

(** [toJson(addrs)]. *)
Definition toJson (entries : list VtnsAddr) : M string :=
  d <- snapshot entries;; ret (toJson_addrs X d).

(** The loop [for _, entry := range addrs.Entries] of [updateEndpoints]:
    [entry] is a copy of the slice element. It returns [foundTablet]. *)
Fixpoint scanEntries (entries : list VtnsAddr) : M bool :=
  match entries with
  | [] => ret false
  | entry :: rest =>
      t <- TabletDeref;;
      if N.eqb (vUid entry) (Uid (TabletOf t)) then
        (* foundTablet = true *)
        p <- mapIndex (vNamedPortMap entry) "_vtocc";;
        let vtAddr := vHost entry +:+ ":" +:+ itoa p in
        p <- mapIndex (vNamedPortMap entry) "_mysql";;
        let mysqlAddr := vHost entry +:+ ":" +:+ itoa p in
        t <- TabletDeref;;
        stale <- (if negb (String.eqb vtAddr (Addr (TabletOf t))) then ret true
                  else t <- TabletDeref;;
                       ret (negb (String.eqb mysqlAddr (MysqlAddr (TabletOf t)))));;
        if stale : bool then
          (* update needed *)
          t <- TabletDeref;;
          hp <- splitHostPort (Addr (TabletOf t));;
          let '(host, port) := hp in
          (* entry.Host = host: an assignment to the copy *)
          let entry := mkVtnsAddr (vUid entry) host (vPort entry) (vNamedPortMap entry) in
          mapAssign (vNamedPortMap entry) "_vtocc" port;;
          t <- TabletDeref;;
          hp <- splitHostPort (MysqlAddr (TabletOf t));;
          let '(host, port) := hp in
          mapAssign (vNamedPortMap entry) "_mysql" port;;
          (* break: the copy goes out of scope *)
          ret true
        else ret true
      else scanEntries rest
  end.

(** [agent.updateEndpoints(oldValue, oldStat)]: a function conforming
    to the RetryChange protocol. *)
Definition updateEndpoints (oldValue : string) (oldStat : option Stat)
  : M (string * option error) :=
  match oldStat with
  | None =>
      (* The incoming object doesn't exist: don't update. *)
      ret (""%string, Some skipUpdateErr)
  | Some _ =>
      (* addrs := naming.NewAddrs() *)
      if negb (String.eqb oldValue "") then
        match json_Unmarshal_addrs X oldValue with
        | inr err => ret (""%string, Some err)
        | inl decoded =>
            entries <- loadEntries decoded;;
            foundTablet <- scanEntries entries;;
            entries <- (if negb foundTablet then
                          t <- TabletDeref;;
                          e <- vtnsAddrForTablet (TabletOf t);;
                          ret (entries ++ [e])
                        else ret entries);;
            newValue <- toJson entries;;
            ret (newValue, None)
        end
      else
        t <- TabletDeref;;
        e <- vtnsAddrForTablet (TabletOf t);;
        newValue <- toJson ([] ++ [e]);;
        ret (newValue, None)
  end.

(** Modelled from the spec: [zconn.RetryChange] of the store client
    (package zk is not among the sources). It reads the current value
    and version, lets [changeFunc] compute the new value, and retries
    on a version conflict; an error of [changeFunc] aborts the update
    without writing; a node that does not exist is passed on as the
    empty value with no stat; and, by the comment on [updateEndpoints],
    an identical value is not written. The client retries without
    bound: [attempts] bounds the conflicts this definition follows. *)
Fixpoint RetryChange (attempts : nat) (path : string)
    (changeFunc : string -> option Stat -> M (string * option error))
  : M (option error) :=
  match attempts with
  | O => ret (Some (ZkError ZBADVERSION))
  | S n =>
      r <- query (ZkGet path) (fun w => zk_Get X w path);;
      match r with
      | inr (ZkError code) =>
          if code =? ZNONODE then
            res <- changeFunc ""%string None;;
            let '(newValue, err) := res in
            match err with
            | Some e => ret (Some e)
            | None =>
                e <- Create path newValue;;
                match e with
                | Some (ZkError c) =>
                    if c =? ZNODEEXISTS then RetryChange n path changeFunc
                    else ret e
                | _ => ret e
                end
            end
          else ret (Some (ZkError code))
      | inr err => ret (Some err)
      | inl (oldValue, oldStat) =>
          res <- changeFunc oldValue (Some oldStat);;
          let '(newValue, err) := res in
          match err with
          | Some e => ret (Some e)
          | None =>
              if String.eqb newValue oldValue then ret None
              else
                e <- command (EvStore (ZkSet path newValue (Version oldStat)))
                       (fun w => zk_Set X w path newValue (Version oldStat));;
                match e with
                | Some (ZkError c) =>
                    if c =? ZBADVERSION then RetryChange n path changeFunc
                    else ret e
                | _ => ret e
                end
          end
      end
  end.

(** [agent.verifyZkServingAddrs()]. *)
Definition verifyZkServingAddrs (attempts : nat) : M (option error) :=
  t <- TabletDeref;;
  if negb (IsServingType t) then ret None
  else
    (* Load the shard and see if we are supposed to be serving. *)
    t <- TabletDeref;;
    r <- query (ZkReadShard (ShardPath t)) (fun w => ReadShard X w (ShardPath t));;
    match r with
    | inr err => ret (Some err)
    | inl shardInfo =>
        t <- TabletDeref;;
        if negb (shardInfo (TabletOf t)) then ret None
        else
          (* Check to see our address is registered in the right place. *)
          t1 <- TabletDeref;;
          t2 <- TabletDeref;;
          t3 <- TabletDeref;;
          t4 <- TabletDeref;;
          let zkPathName :=
            ZkPathForVtName X (Cell (TabletOf t1)) (Keyspace (TabletOf t2))
              (Shard (TabletOf t3)) (Type_ (TabletOf t4)) in
          let f := fun oldValue oldStat => updateEndpoints oldValue oldStat in
          err <- RetryChange attempts zkPathName f;;
          if bool_decide (err = Some skipUpdateErr) then
            relog Warning "skipped serving graph update" [];;
            ret None
          else ret err
    end.

(** [if err != nil { panic(err) }]. *)
Definition panicOn (err : option error) : M unit :=
  match err with
  | Some e => panic e
  | None => ret tt
  end.

(** The closure [f] of [Start]: update bind addr for mysql and query
    service in the tablet node. [tabletFromJson] returns a tablet and
    no error: it panics on a value it cannot decode. *)
Definition updateTabletAddr (bindAddr mysqlAddr : string)
    (oldValue : string) (oldStat : option Stat) : M (string * option error) :=
  if String.eqb oldValue "" then
    ret (""%string, Some (OtherError "no data for tablet addr update"))
  else
    match tabletFromJson X oldValue with
    | inr err => panic err
    | inl tablet =>
        addr <- resolveAddr bindAddr;;
        maddr <- resolveAddr mysqlAddr;;
        ret (toJson_tablet X
               (mkTablet (Cell tablet) (Uid tablet) addr maddr
                  (Keyspace tablet) (Shard tablet) (Type_ tablet)), None)
    end.

(** [agent.Start(bindAddr, mysqlAddr)], up to the point where it starts
    the goroutine of [actionEventLoop]. *)
Definition Start (attempts : nat) (bindAddr mysqlAddr : string) : M unit :=
  err <- readTablet;;
  panicOn err;;
  err <- resolvePaths;;
  panicOn err;;
  let f := updateTabletAddr bindAddr mysqlAddr in
  t <- TabletDeref;;
  err <- RetryChange attempts (Path t) f;;
  panicOn err;;
  (* Reread in case there were changes *)
  err <- readTablet;;
  panicOn err;;
  t <- TabletDeref;;
  err <- command (EvStore (ZkCreatePidNode (PidPath t)))
           (fun w => zk_CreatePidNode X w (PidPath t));;
  panicOn err;;
  err <- verifyZkPaths;;
  panicOn err;;
  err <- verifyZkServingAddrs attempts;;
  panicOn err.

(** One turn of the loop of [actionEventLoop]. *)
Definition actionEventLoopBody : M unit :=
  (* Process any pending actions when we startup, before we start
     listening for events. *)
  r <- handleActionQueue;;
  let '(watch, err) := r in
  match err with
  | Some e =>
      relog Warning "action queue failed: %v" [LErr e];;
      command (EvSleep 5) (fun w => (tt, time_Sleep X w 5))
  | None =>
      event <- command (EvWait watch) (fun w => chan_recv X w watch);;
      if negb (Event_Ok X event) then
        relog Warning "zookeeper not OK: %v" [LEvent event];;
        command (EvSleep 5) (fun w => (tt, time_Sleep X w 5))
      else if EventType event =? EVENT_CHILD then
        _ <- handleActionQueue;; ret tt
      else ret tt
  end.

(** [agent.actionEventLoop()]: the loop never ends; [turns] is the
    number of turns followed. *)
Fixpoint actionEventLoop (turns : nat) : M unit :=
  match turns with
  | O => ret tt
  | S n => actionEventLoopBody;; actionEventLoop n
  end.

End Agent.

(** ** Observations on outcomes and traces *)

(** The value a computation returned, if it did not panic. *)
Definition returned {S A} (o : outcome S A) : option A :=
  match o with
  | Ret a _ => Some a
  | Panicked _ _ => None
  end.

(** The state a computation ended in, returning or panicking. *)
Definition final {S A} (o : outcome S A) : S :=
  match o with
  | Ret _ s => s
  | Panicked _ s => s
  end.

Definition panicked {S A} (o : outcome S A) : bool :=
  match o with
  | Ret _ _ => false
  | Panicked _ _ => true
  end.

Definition is_refresh (ev : event) : bool :=
  match ev with
  | EvStore (ZkReadTablet _) => true
  | _ => false
  end.

(** How often the tablet record was re-read from the store. *)
Definition refreshes (tr : list event) : nat :=
  length (List.filter is_refresh tr).

Definition is_write (ev : event) : bool :=
  match ev with
  | EvStore (ZkCreate _ _) | EvStore (ZkSet _ _ _) => true
  | _ => false
  end.

(** How often the store was written. *)
Definition writes (tr : list event) : nat :=
  length (List.filter is_write tr).

(** The paths [dispatchAction] was entered with, in order: it logs each
    as its first step. *)
Fixpoint dispatched (tr : list event) : list string :=
  match tr with
  | [] => []
  | EvLog Info "action dispatch %v" [LStr p] :: rest => p :: dispatched rest
  | _ :: rest => dispatched rest
  end.

(** The commands handed to the executor, in order. *)
Fixpoint launched (tr : list event) : list (list string) :=
  match tr with
  | [] => []
  | EvExec cmd :: rest => cmd :: launched rest
  | _ :: rest => launched rest
  end.

(** The action nodes the executor was started for, in order: the
    argument after [-action-node] of each command. *)
Definition launched_nodes (tr : list event) : list string :=
  map (fun cmd : list string => default ""%string (cmd !! 4%nat)) (launched tr).

(** ** States and inputs the theorems name *)

Section Named.
Context {W : Type} (X : Externals W).

(** The state after a failed refresh: one more store call in the trace. *)
Definition after_failed_read (s : State W) : State W :=
  mkState (agent s) (world s) (maps s)
    (trace s ++ [EvStore (ZkReadTablet (zkTabletPath (agent s)))]).

(** The state after a successful refresh: the cached pointer replaced. *)
Definition after_refresh (s : State W) (tablet : TabletInfo) : State W :=
  mkState (set_mutex false (set_tablet tablet (set_mutex true (agent s))))
    (world s) (maps s)
    (trace s ++ [EvStore (ZkReadTablet (zkTabletPath (agent s)))]).

Definition extend (s : State W) (w : W) (evs : list event) : State W :=
  mkState (agent s) w (maps s) (trace s ++ evs).

(** The command line [dispatchAction] builds for a decoded node. *)
Definition action_cmd (a : ActionAgent) (actionPath : string) (node : ActionNode)
  : list string :=
  [vtActionBinPath a; "-action"; Action node; "-action-node"; actionPath;
   "-action-guid"; ActionGuid node; "-mycnf-path"; MycnfPath a;
   "-logfile"; flag_logfile X].

(** The events of a dispatch up to and including the executor's run. *)
Definition launch_events (a : ActionAgent) (actionPath : string) (node : ActionNode)
  : list event :=
  [EvLog Info "action dispatch %v" [LStr actionPath];
   EvStore (ZkGet actionPath);
   EvLog Info "action launch %v" [LCmd (action_cmd a actionPath node)];
   EvExec (action_cmd a actionPath node)].

(** What a dispatch leaves alone: the agent's paths and the free mutex. *)
Definition same_paths (a a' : ActionAgent) : Prop :=
  zkTabletPath a' = zkTabletPath a /\ zkActionPath a' = zkActionPath a /\
  vtActionBinPath a' = vtActionBinPath a /\ MycnfPath a' = MycnfPath a /\
  mutex a' = false.

(** The path of a child of the action queue. *)
Definition child_path (zk child : string) : string := zk +:+ "/" +:+ child.

(** The state in which the loop resumes after the watch delivered
    [event]. *)
Definition woken (s1 : State W) (watch : Watch) (w2 : W) : State W :=
  mkState (agent s1) w2 (maps s1) (trace s1 ++ [EvWait watch]).

(** A creation whose result [verifyZkPaths] takes for success: no
    error, or the node exists already. *)
Definition swallowed (err : option error) : Prop :=
  err = None \/ err = Some (ZkError ZNODEEXISTS).

(** The store holds a node at [path]: creating it reports that it
    exists, and changes nothing. *)
Definition node_exists (w : W) (path : string) : Prop :=
  forall value, zk_Create X w path value = (Some (ZkError ZNODEEXISTS), w).

(** The store's contract for creation: a node created, or found to
    exist, exists afterwards, and a creation removes no node. *)
Definition store_keeps_nodes : Prop :=
  forall w path value err w',
    zk_Create X w path value = (err, w') ->
    (swallowed err -> node_exists w' path) /\
    (forall q, node_exists w q -> node_exists w' q).

Definition created (s : State W) (path value : string) (w' : W) : State W :=
  mkState (agent s) w' (maps s) (trace s ++ [EvStore (ZkCreate path value)]).

(** The path of the directory entry the tablet is published in. *)
Definition serving_path (t : TabletInfo) : string :=
  ZkPathForVtName X (Cell (TabletOf t)) (Keyspace (TabletOf t))
    (Shard (TabletOf t)) (Type_ (TabletOf t)).

(** What [verifyZkServingAddrs] does with the result of the
    conditional write. *)
Definition after_change (err : option error) : M W (option error) :=
  if bool_decide (err = Some skipUpdateErr) then
    relog Warning "skipped serving graph update" [];; ret None
  else ret err.

(** An address that splits into a host and a 16-bit port. *)
Definition splits (addr host : string) (port : Z) : Prop :=
  exists ps, net_SplitHostPort addr = inl (host, ps) /\
             strconv_ParseInt16 ps = inl port.

(** An address [splitHostPort] panics on. *)
Definition unsplittable (addr : string) : Prop :=
  (exists e, net_SplitHostPort addr = inr e) \/
  (exists host ps e, net_SplitHostPort addr = inl (host, ps) /\
                     strconv_ParseInt16 ps = inr e).

End Named.

(** *** Sequence suffixes *)

(** The store names a sequential node by appending a decimal counter of
    fixed width to the name asked for. [decimal_value] is the number a
    string of digits denotes. *)
Definition is_digit (c : ascii) : bool :=
  (48 <=? N_of_ascii c)%N && (N_of_ascii c <=? 57)%N.

Fixpoint all_digits (s : string) : bool :=
  match s with
  | EmptyString => true
  | String c r => is_digit c && all_digits r
  end.

Fixpoint decimal_value (s : string) : N :=
  match s with
  | EmptyString => 0
  | String c r =>
      (N_of_ascii c - 48) * 10 ^ N.of_nat (String.length r) + decimal_value r
  end%N.

(** *** The directory on the heap and on the wire *)

(** [e], with the heap [h], stands for the decoded entry [d]. *)
Definition repr (h : list (gmap string Z)) (e : VtnsAddr) (d : VtnsAddrData) : Prop :=
  vUid e = dUid d /\ vHost e = dHost d /\ vPort e = dPort d /\
  match vNamedPortMap e, dNamedPortMap d with
  | None, None => True
  | Some r, Some g => h !! r = Some g
  | _, _ => False
  end.

(** The state with another heap of maps. *)
Definition with_maps {W} (s : State W) (h : list (gmap string Z)) : State W :=
  mkState (agent s) (world s) h (trace s).

(** The map of the entry [vtnsAddrForTablet] builds. *)
Definition port_map (vtocc mysql : Z) : gmap string Z :=
  <["_mysql" := mysql]> (<["_vtocc" := vtocc]> ∅).

(** Setting the two ports of a decoded entry, as the update of a stale
    entry does through the shared map. *)
Definition set_ports (vtocc mysql : Z) (d : VtnsAddrData) : VtnsAddrData :=
  mkVtnsAddrData (dUid d) (dHost d) (dPort d)
    (g ← dNamedPortMap d; Some (<["_mysql" := mysql]> (<["_vtocc" := vtocc]> g))).

(** The address the scan compares with the tablet's: the entry's host
    and one of its named ports. *)
Definition named_addr (d : VtnsAddrData) (name : string) : string :=
  dHost d +:+ ":" +:+ itoa (default 0 (dNamedPortMap d ≫= (fun g => g !! name))).

(** What the scan takes for stale. *)
Definition stale (d : VtnsAddrData) (t : Tablet) : bool :=
  negb (String.eqb (named_addr d "_vtocc") (Addr t))
  || negb (String.eqb (named_addr d "_mysql") (MysqlAddr t)).

(** ** Readers running beside a refresh *)

(** The steps [readTablet] and [Tablet] take on the agent, one at a
    time, so that goroutines can be interleaved between them. *)
Inductive instr : Type :=
| ILock
| IUnlock
| IStore (tablet : TabletInfo)
| ILoad.

(** [readTablet] once its read has returned [tablet]; and [Tablet]. *)
Definition readTablet_code (tablet : TabletInfo) : list instr :=
  [ILock; IStore tablet; IUnlock].

Definition Tablet_code : list instr := [ILock; ILoad; IUnlock].

(** A goroutine: what it still has to run, and what its [Tablet] has
    read into its local variable, if it got there. *)
Record goroutine : Type := mkGoroutine {
  code : list instr;
  loaded : option (option TabletInfo)
}.

Record machine : Type := mkMachine {
  shared : ActionAgent;
  goroutines : list goroutine
}.

(** One step of a goroutine on the shared agent; [None] when it is
    blocked on the mutex, or has crashed unlocking a free one. *)
Definition step_instr (ins : instr) (a : ActionAgent)
    (l : option (option TabletInfo))
  : option (ActionAgent * option (option TabletInfo)) :=
  match ins with
  | ILock => if mutex a then None else Some (set_mutex true a, l)
  | IUnlock => if mutex a then Some (set_mutex false a, l) else None
  | IStore tablet => Some (set_tablet tablet a, l)
  | ILoad => Some (a, Some (_tablet a))
  end.

(** Goroutine [i] takes its next step, if it has one and is not
    blocked. *)
Definition step_goroutine (i : nat) (m : machine) : option machine :=
  match goroutines m !! i with
  | Some (mkGoroutine (ins :: rest) l) =>
      match step_instr ins (shared m) l with
      | Some (a, l') =>
          Some (mkMachine a (<[i := mkGoroutine rest l']> (goroutines m)))
      | None => None
      end
  | _ => None
  end.

(** The machine after the scheduler picked the goroutines of [sched]
    in turn; picking one that cannot step changes nothing. *)
Fixpoint run_schedule (sched : list nat) (m : machine) : machine :=
  match sched with
  | [] => m
  | i :: rest => run_schedule rest (default m (step_goroutine i m))
  end.

(** A goroutine between its [Lock] and its [Unlock]. *)
Definition critical (c : list instr) : bool :=
  match c with
  | IStore _ :: _ | ILoad :: _ | IUnlock :: _ => true
  | _ => false
  end.

(** The code of a goroutine that runs [readTablet] or [Tablet], at any
    point. *)
Definition method_code (c : list instr) : Prop :=
  c = [] \/ c = [IUnlock] \/ c = [ILoad; IUnlock] \/ c = Tablet_code \/
  exists tablet, c = [IStore tablet; IUnlock] \/ c = readTablet_code tablet.

(** The mutex does its work: a goroutine in its critical section holds
    the mutex, and no two goroutines are in theirs. *)
Definition exclusive (m : machine) : Prop :=
  (forall i g, goroutines m !! i = Some g -> method_code (code g)) /\
  (forall i g, goroutines m !! i = Some g -> critical (code g) = true ->
               mutex (shared m) = true) /\
  (forall i j g g', goroutines m !! i = Some g -> goroutines m !! j = Some g' ->
                    critical (code g) = true -> critical (code g') = true -> i = j).

(** Every record in the machine satisfies [C]: the cached one, the
    ones already read, and the ones still to be stored. *)
Definition records_in (C : option TabletInfo -> Prop) (m : machine) : Prop :=
  C (_tablet (shared m)) /\
  forall i g, goroutines m !! i = Some g ->
    (forall v, loaded g = Some v -> C v) /\
    (forall tablet, In (IStore tablet) (code g) -> C (Some tablet)).

(** The machine in which one goroutine refreshes the cache with
    [tablet] and [n] goroutines call [Tablet]. *)
Definition refresh_beside_readers (a : ActionAgent) (tablet : TabletInfo) (n : nat)
  : machine :=
  mkMachine a (mkGoroutine (readTablet_code tablet) None
               :: replicate n (mkGoroutine Tablet_code None)).

(** ** A small world to run the agent in *)

Module Sample.

(** The store as a list of nodes with their data and version, the
    children of the action queue in the order the store lists them,
    whether the store can be reached, the files on disk and the events
    the watches will deliver. *)
Record World : Type := mkWorld {
  nodes : list (string * (string * Z));
  queue : list string;
  down : bool;
  files : list string;
  events : list Event
}.

Fixpoint assoc {A} (k : string) (l : list (string * A)) : option A :=
  match l with
  | [] => None
  | (k', a) :: rest => if String.eqb k k' then Some a else assoc k rest
  end.

Fixpoint assoc_set {A} (k : string) (a : A) (l : list (string * A))
  : list (string * A) :=
  match l with
  | [] => [(k, a)]
  | (k', a') :: rest =>
      if String.eqb k k' then (k, a) :: rest else (k', a') :: assoc_set k a rest
  end.

Definition with_nodes (w : World) (n : list (string * (string * Z))) : World :=
  mkWorld n (queue w) (down w) (files w) (events w).

Definition ZCONNECTIONLOSS : Z := -4.

Definition Get (w : World) (path : string) : (string * Stat) + error :=
  if down w then inr (ZkError ZCONNECTIONLOSS)
  else match assoc path (nodes w) with
       | Some (data, version) => inl (data, mkStat version)
       | None => inr (ZkError ZNONODE)
       end.

Definition ChildrenW (w : World) (path : string)
  : list string * Watch * option error :=
  if down w then ([], None, Some (ZkError ZCONNECTIONLOSS))
  else (queue w, Some 0%nat, None).

Definition Create (w : World) (path value : string) : option error * World :=
  match assoc path (nodes w) with
  | Some _ => (Some (ZkError ZNODEEXISTS), w)
  | None => (None, with_nodes w (assoc_set path (value, 0) (nodes w)))
  end.

Definition Set_ (w : World) (path value : string) (version : Z)
  : option error * World :=
  match assoc path (nodes w) with
  | Some (_, v) =>
      if v =? version
      then (None, with_nodes w (assoc_set path (value, v + 1) (nodes w)))
      else (Some (ZkError ZBADVERSION), w)
  | None => (Some (ZkError ZNONODE), w)
  end.

Definition recv (w : World) (watch : Watch) : Event * World :=
  match events w with
  | e :: rest => (e, mkWorld (nodes w) (queue w) (down w) (files w) rest)
  | [] => (mkEvent EVENT_CHILD 3, w)
  end.

(** A tablet record on the wire: the two addresses, separated by a
    bar. The other fields are those of tablet 7 of shard 0. *)
Definition tablet_to_json (t : Tablet) : string :=
  Addr t +:+ "|" +:+ MysqlAddr t.

Definition tablet_from_json (data : string) : Tablet + error :=
  match split_last "|" data with
  | Some (a, m) => inl (mkTablet "c1" 7 a m "ks" "0" "replica")
  | None => inr (OtherError "unexpected end of JSON input")
  end.

Definition tablet_path : string := "/zk/c1/vt/tablets/0000000007".

Definition read_tablet (w : World) (path : string) : TabletInfo + error :=
  match Get w path with
  | inr e => inr e
  | inl (data, _) =>
      match tablet_from_json data with
      | inr e => inr e
      | inl t =>
          inl (mkTabletInfo t path (path +:+ "/pid")
                 "/zk/c1/vt/keyspaces/ks/shards/0/0000000007"
                 "/zk/c1/vt/keyspaces/ks/shards/0" true)
      end
  end.

(** An action node's payload is the name of its action; the payload
    [garbage] does not decode. *)
Definition action_from_json (data path : string) : ActionNode + error :=
  if String.eqb data "garbage"
  then inr (OtherError "invalid character")
  else inl (mkActionNode data ("guid-of-" +:+ path)).

(** A directory entry on the wire. *)
Definition addr_to_json (d : VtnsAddrData) : string :=
  "{" +:+ itoa (Z.of_N (dUid d)) +:+ "," +:+ dHost d +:+ "," +:+
  match dNamedPortMap d with
  | None => "nil"
  | Some g => itoa (default 0 (g !! "_vtocc")) +:+ "," +:+
              itoa (default 0 (g !! "_mysql"))
  end +:+ "}".

Definition addrs_to_json (ds : list VtnsAddrData) : string :=
  "[" +:+ String.concat "" (map addr_to_json ds) +:+ "]".

Definition other_entry : VtnsAddrData :=
  mkVtnsAddrData 3 "vt3" 0 (Some (port_map 6700 3306)).

Definition stale_entry : VtnsAddrData :=
  mkVtnsAddrData 7 "old" 0 (Some (port_map 6600 3300)).

(** The directories the sample decoder knows: it inverts
    [addrs_to_json] on them, and rejects every other value. *)
Definition known_dirs : list (list VtnsAddrData) :=
  [[other_entry]; [other_entry; stale_entry]; []].

Definition addrs_from_json (data : string) : list VtnsAddrData + error :=
  match List.find (fun ds => String.eqb (addrs_to_json ds) data) known_dirs with
  | Some ds => inl ds
  | None => inr (OtherError "invalid character")
  end.

Definition stat (w : World) (path : string) : bool :=
  existsb (String.eqb path) (files w).

(** The executor: it cannot be started when its binary is missing; the
    action [Fail] exits with status 1; the action [SetAddr] rewrites
    the tablet record; every other action does nothing. *)
Definition run (w : World) (cmd : list string) : (string * option error) * World :=
  match cmd with
  | bin :: _ :: action :: _ =>
      if negb (stat w bin) then
        (""%string, Some (OtherError "fork/exec: no such file or directory"), w)
      else if String.eqb action "Fail" then
        ("exit status 1"%string, Some (ExitError 1), w)
      else if String.eqb action "SetAddr" then
        ("ok"%string, None,
         with_nodes w (assoc_set tablet_path ("vt7:6701|vt7:3307"%string, 1) (nodes w)))
      else ("ok"%string, None, w)
  | _ => (""%string, Some (OtherError "exec: no command"), w)
  end.

Definition X : Externals World :=
  mkExternals World
    Get ChildrenW Create Set_ (fun w _ => (None, w))
    recv (fun w _ => w) (fun e => 0 <? EventState e)
    read_tablet (fun _ _ => inl (fun t => N.eqb (Uid t) 7))
    action_from_json tablet_from_json tablet_to_json addrs_to_json
    (fun p => p +:+ "/action")
    (fun cell ks shard typ =>
       "/zk/" +:+ cell +:+ "/vt/ns/" +:+ ks +:+ "/" +:+ shard +:+ "/" +:+ typ)
    addrs_from_json
    stat (fun _ => inl "localhost"%string) "/vt"
    run "/vt/logs/vtaction.log".

Definition action_path : string := "/zk/c1/vt/tablets/0000000007/action".
Definition serving_dir : string := "/zk/c1/vt/ns/ks/0/replica".

(** A world with three queued actions, listed out of order, the second
    of them malformed, and no serving directory. *)
Definition w0 : World :=
  mkWorld
    [(tablet_path, ("vt7:6700|vt7:3306"%string, 0));
     (action_path +:+ "/0000000003", ("SetAddr"%string, 0));
     (action_path +:+ "/0000000001", ("Fail"%string, 0));
     (action_path +:+ "/0000000002", ("garbage"%string, 0))]
    ["0000000003"; "0000000001"; "0000000002"]%string
    false
    ["/usr/local/bin/vtaction"; "/etc/my.cnf"]%string
    [mkEvent EVENT_CHILD 3].

Definition tablet0 : TabletInfo :=
  mkTabletInfo (mkTablet "c1" 7 "vt7:6700" "vt7:3306" "ks" "0" "replica")
    tablet_path (tablet_path +:+ "/pid")
    "/zk/c1/vt/keyspaces/ks/shards/0/0000000007"
    "/zk/c1/vt/keyspaces/ks/shards/0" true.

(** The agent after its start: paths resolved, the record cached. *)
Definition agent0 : ActionAgent :=
  mkActionAgent tablet_path action_path "/usr/local/bin/vtaction" "/etc/my.cnf"
    false (Some tablet0).

Definition s0 : State World := mkState agent0 w0 [] [].

(** The same, with a serving directory that lists another tablet. *)
Definition w_other : World :=
  with_nodes w0 (assoc_set serving_dir (addrs_to_json [other_entry], 0) (nodes w0)).

Definition s_other : State World := mkState agent0 w_other [] [].

(** The same, with a serving directory that lists this tablet at an
    old host and at old ports, after another tablet. *)
Definition w_stale : World :=
  with_nodes w0
    (assoc_set serving_dir (addrs_to_json [other_entry; stale_entry], 0) (nodes w0)).

Definition s_stale : State World := mkState agent0 w_stale [] [].

Definition path1 : string := action_path +:+ "/0000000001".
Definition path3 : string := action_path +:+ "/0000000003".

(** The sample state after a first drain, and the world after the
    watch delivered its event. *)
Definition s1 : State World := Eval vm_compute in final (handleActionQueue X s0).

Definition w2 : World := Eval vm_compute in snd (recv (world s1) (Some 0%nat)).

End Sample.

(** ** More names for the theorems of Part II *)

Section Startup.
Context {W : Type} (X : Externals W).

(** The candidates of [resolvePaths], in the order it tries them. *)
Definition vtActionBinPaths : list string :=
  [env_VTROOT X +:+ "/src/code.google.com/p/vitess/go/cmd/vtaction/vtaction";
   "/usr/local/bin/vtaction"].

Definition mycnfPaths (uid : N) : list string :=
  ["/vt/vt_" +:+ fmt_010d uid +:+ "/my.cnf"; "/var/lib/mysql/my.cnf"; "/etc/my.cnf"].

(** The agent with the two paths [resolvePaths] fills in. *)
Definition with_bin (path : string) (a : ActionAgent) : ActionAgent :=
  mkActionAgent (zkTabletPath a) (zkActionPath a) path (MycnfPath a)
    (mutex a) (_tablet a).

Definition with_mycnf (path : string) (a : ActionAgent) : ActionAgent :=
  mkActionAgent (zkTabletPath a) (zkActionPath a) (vtActionBinPath a) path
    (mutex a) (_tablet a).

Definition with_agent (s : State W) (a : ActionAgent) : State W :=
  mkState a (world s) (maps s) (trace s).

(** [path] is the first of [paths] that exists in [w]. *)
Definition first_found (w : W) (paths : list string) (path : string) : Prop :=
  exists i, paths !! i = Some path /\ os_Stat X w path = true /\
            forall j p, (j < i)%nat -> paths !! j = Some p -> os_Stat X w p = false.

(** The commands a dispatch hands to the executor: one for a node
    that can be read and decodes, none otherwise. *)
Definition launch_of (a : ActionAgent) (w : W) (actionPath : string)
  : list (list string) :=
  match zk_Get X w actionPath with
  | inl (data, _) =>
      match ActionNodeFromJson X data actionPath with
      | inl node => [action_cmd X a actionPath node]
      | inr _ => []
      end
  | inr _ => []
  end.

(** What a turn of the loop leaves in the trace when the listing
    failed with [e]. *)
Definition backoff_events (path : string) (e : error) : list event :=
  [EvStore (ZkChildrenW path);
   EvLog Warning "action queue failed: %v" [LErr e];
   EvSleep 5].

(** The world after [n] sleeps of five seconds. *)
Definition slept (n : nat) (w : W) : W :=
  Nat.iter n (fun w => time_Sleep X w 5) w.

(** What a turn of the loop does after its watch delivered
    [received], when it does not drain again. *)
Definition event_events (received : Event) : list event :=
  if Event_Ok X received then []
  else [EvLog Warning "zookeeper not OK: %v" [LEvent received]; EvSleep 5].


(** The command line of the executor for a listed child and its
    decoded node. *)
Definition pick_cmd (a : ActionAgent) (zk : string) (p : string * ActionNode)
  : list string :=
  action_cmd X a (child_path zk (fst p)) (snd p).

(** The state a dispatch leaves when the payload of the node did not
    decode: three more lines in the trace, nothing else. *)
Definition after_decode_failure (s : State W) (actionPath : string) (err : error)
  : State W :=
  extend s (world s)
    [EvLog Info "action dispatch %v" [LStr actionPath];
     EvStore (ZkGet actionPath);
     EvLog Error "action decode failed: %v %v" [LStr actionPath; LErr err]].

(** The host [resolveAddr] prints: the local hostname for a blank one. *)
Definition resolved_host (hostname host : string) : string :=
  if String.eqb host "" then hostname else host.

End Startup.

Definition is_listing (ev : event) : bool :=
  match ev with
  | EvStore (ZkChildrenW _) => true
  | _ => false
  end.

(** How often the children of the action queue were listed. *)
Definition listings (tr : list event) : nat :=
  length (List.filter is_listing tr).

(** Every goroutine has run its code to the end. *)
Definition finished (m : machine) : Prop :=
  forall i g, goroutines m !! i = Some g -> code g = [].

(** A held mutex is held by a goroutine in its critical section. *)
Definition held_by_one (m : machine) : Prop :=
  mutex (shared m) = true ->
  exists i g, goroutines m !! i = Some g /\ critical (code g) = true.

(** The number of steps the goroutines have still to take. *)
Definition remaining (m : machine) : nat :=
  sum_list (map (fun g => length (code g)) (goroutines m)).

(** A directory entry whose two named ports are the given ones. *)
Definition settled (d : VtnsAddrData) (vtocc mysql : Z) : Prop :=
  exists g, dNamedPortMap d = Some g /\
            g !! "_vtocc" = Some vtocc /\ g !! "_mysql" = Some mysql.

(** A host name: neither colon nor bracket in it. *)
Definition bare_host (host : string) : Prop :=
  contains_char ":" host = false /\
  contains_char "[" host = false /\ contains_char "]" host = false.

(** A host that [net.SplitHostPort] gives back as it is: no colon in
    it, and no opening bracket in front. *)
Definition plain_host (host : string) : Prop :=
  contains_char ":" host = false /\ String.get 0 host <> Some "["%char.

(** ** The rpc service of barnacle

    The second package of the file: [Barnacle], the singleton
    [RpcBarnacle], [Init] and the rpc methods. The balancer map, the
    pool of numbered connections ([pools.Numbered]) and the connections
    ([VTConn]) belong to other packages: the service only calls them,
    and they are the fields of [Services]. *)

Module Barnacle.

(** A pointer to an object of another package. *)
Abbreviation ref := nat (only parsing).

(** [Barnacle]. *)
Record Barnacle : Type := mkBarnacle {
  balancerMap : ref;
  tabletProtocol : string;
  connections : ref;
  retryDelay : Z;
  retryCount : Z
}.

(** [*VTConn], by the field the service reads. *)
Record VTConn : Type := mkVTConn { Id : Z }.

(** What the pool holds is an [interface{}]: a [*VTConn], or a value of
    another dynamic type (nil included). *)
Inductive value : Type :=
| VConn (c : VTConn)
| VOther.

(** [proto.Query], [proto.Session], [proto.SessionParams],
    [proto.SessionInfo] and [proto.TransactionInfo]; the bind variables
    are passed on as they are. *)
Record Query (BindVars : Type) : Type := mkQuery {
  Sql : string;
  BindVariables : BindVars;
  QKeyspace : string;
  Shards : list string;
  QSessionId : Z
}.

Arguments mkQuery {BindVars}. Arguments Sql {BindVars}.
Arguments BindVariables {BindVars}. Arguments QKeyspace {BindVars}.
Arguments Shards {BindVars}. Arguments QSessionId {BindVars}.

Record Session : Type := mkSession { SessionId : Z }.
Record SessionParams : Type := mkSessionParams { TabletType : string }.
Record SessionInfo : Type := mkSessionInfo { InfoSessionId : Z }.
Record TransactionInfo : Type := mkTransactionInfo { TransactionId : Z }.

(** The calls the service makes, as they show in the trace. *)
Inductive call : Type :=
| TopoGetServer
| NewBalancerMapCall (server : ref) (cell portName : string)
| NewNumbered
| RegisterAuthenticated (b : Barnacle)
| NewVTConnCall (tabletType : string)
| PoolRegister (pool : ref) (id : Z)
| PoolGet (pool : ref) (id : Z)
| PoolPut (pool : ref) (id : Z)
| PoolUnregister (pool : ref) (id : Z)
| ConnExecute (c : VTConn) (sql : string)
| ConnStreamExecute (c : VTConn) (sql : string)
| ConnBegin (c : VTConn)
| ConnCommit (c : VTConn)
| ConnRollback (c : VTConn)
| ConnClose (c : VTConn)
| Fatalf (msg : string).

#[global] Instance Barnacle_eq_dec : EqDecision Barnacle.
Proof. solve_decision. Defined.
#[global] Instance VTConn_eq_dec : EqDecision VTConn.
Proof. solve_decision. Defined.
#[global] Instance call_eq_dec : EqDecision call.
Proof. solve_decision. Defined.

(** The collaborators, over a world [W] that holds the pools and the
    connections. *)
Record Services (W BindVars QueryResult SendReply : Type) : Type := mkServices {
  topo_GetServer : W -> ref * W;
  NewBalancerMap : W -> ref -> string -> string -> ref * W;
  pools_NewNumbered : W -> ref * W;
  proto_RegisterAuthenticated : W -> Barnacle -> W;
  NewVTConn : W -> ref -> string -> string -> Z -> Z -> VTConn * W;
  Register : W -> ref -> Z -> value -> option error * W;
  Get : W -> ref -> Z -> (value + error) * W;
  Put : W -> ref -> Z -> W;
  Unregister : W -> ref -> Z -> W;
  conn_Execute : W -> VTConn -> string -> BindVars -> string -> list string ->
                 (option QueryResult * option error) * W;
  conn_StreamExecute : W -> VTConn -> string -> BindVars -> string -> list string ->
                       SendReply -> option error * W;
  conn_Begin : W -> VTConn -> (Z * option error) * W;
  conn_Commit : W -> VTConn -> option error * W;
  conn_Rollback : W -> VTConn -> option error * W;
  conn_Close : W -> VTConn -> W
}.

Arguments topo_GetServer {W BindVars QueryResult SendReply}.
Arguments NewBalancerMap {W BindVars QueryResult SendReply}.
Arguments pools_NewNumbered {W BindVars QueryResult SendReply}.
Arguments proto_RegisterAuthenticated {W BindVars QueryResult SendReply}.
Arguments NewVTConn {W BindVars QueryResult SendReply}.
Arguments Register {W BindVars QueryResult SendReply}.
Arguments Get {W BindVars QueryResult SendReply}.
Arguments Put {W BindVars QueryResult SendReply}.
Arguments Unregister {W BindVars QueryResult SendReply}.
Arguments conn_Execute {W BindVars QueryResult SendReply}.
Arguments conn_StreamExecute {W BindVars QueryResult SendReply}.
Arguments conn_Begin {W BindVars QueryResult SendReply}.
Arguments conn_Commit {W BindVars QueryResult SendReply}.
Arguments conn_Rollback {W BindVars QueryResult SendReply}.
Arguments conn_Close {W BindVars QueryResult SendReply}.

(** The state of the process: the package variable [RpcBarnacle] (nil
    is [None]), the world, and the calls made so far. *)
Record State (W : Type) : Type := mkState {
  RpcBarnacle : option Barnacle;
  world : W;
  calls : list call
}.

Arguments mkState {W}. Arguments RpcBarnacle {W}. Arguments world {W}.
Arguments calls {W}.

(** A function returns, panics, or ends the process ([log.Fatalf]). *)
Inductive result (S A : Type) : Type :=
| Returns (a : A) (s : S)
| Panics (e : error) (s : S)
| Exits (s : S).

Arguments Returns {S A}. Arguments Panics {S A}. Arguments Exits {S A}.

Definition B (W A : Type) : Type := State W -> result (State W) A.

Definition ret {W A} (a : A) : B W A := fun s => Returns a s.

Definition bind {W A A'} (c : B W A) (k : A -> B W A') : B W A' :=
  fun s => match c s with
           | Returns a s' => k a s'
           | Panics e s' => Panics e s'
           | Exits s' => Exits s'
           end.

Definition panic {W A} (e : error) : B W A := fun s => Panics e s.

Declare Scope barnacle_scope.
Delimit Scope barnacle_scope with barnacle.
Notation "x <- c ;; k" := (bind c (fun x => k))
  (at level 100, c at next level, right associativity) : barnacle_scope.
Notation "c ;; k" := (bind c (fun _ => k))
  (at level 100, right associativity) : barnacle_scope.
Local Open Scope barnacle_scope.

(** A call on a collaborator: recorded, then made on the world. *)
Definition invoke {W A} (c : call) (f : W -> A * W) : B W A :=
  fun s => let '(a, w') := f (world s) in
           Returns a (mkState (RpcBarnacle s) w' (calls s ++ [c])).

(** [log.Fatalf(msg)]: the message, then the end of the process;
    deferred calls do not run. *)
Definition fatalf {W A} (msg : string) : B W A :=
  fun s => Exits (mkState (RpcBarnacle s) (world s) (calls s ++ [Fatalf msg])).

(** [defer d] followed by [body]: [d] runs when the function returns
    and when it panics. *)
Definition defer {W A} (d : B W unit) (body : B W A) : B W A :=
  fun s => match body s with
           | Returns a s' =>
               match d s' with
               | Returns _ s'' => Returns a s''
               | Panics e s'' => Panics e s''
               | Exits s'' => Exits s''
               end
           | Panics e s' =>
               match d s' with
               | Returns _ s'' => Panics e s''
               | Panics e' s'' => Panics e' s''
               | Exits s'' => Exits s''
               end
           | Exits s' => Exits s'
           end.

(** The type assertion of the pooled value to a pointer to [VTConn]. *)
Definition assertVTConn {W} (v : value) : B W VTConn :=
  match v with
  | VConn c => ret c
  | VOther => panic (OtherError "interface conversion: interface is not *VTConn")
  end.

Section Methods.
Context {W BindVars QueryResult SendReply : Type}.
Context (V : Services W BindVars QueryResult SendReply).

#[local] Abbreviation B := (B W).

(** [Init(cell, tabletProtocol, portName, retryDelay, retryCount)]. *)
Definition Init (cell tabletProtocol portName : string) (retryDelay retryCount : Z)
  : B unit :=
  (fun s => match RpcBarnacle s with
            | Some _ => fatalf "Barnacle already initialized" s
            | None => Returns tt s
            end);;
  server <- invoke TopoGetServer (fun w => topo_GetServer V w);;
  bm <- invoke (NewBalancerMapCall server cell portName)
          (fun w => NewBalancerMap V w server cell portName);;
  pool <- invoke NewNumbered (fun w => pools_NewNumbered V w);;
  let b := mkBarnacle bm tabletProtocol pool retryDelay retryCount in
  (fun s => Returns tt (mkState (Some b) (world s) (calls s)));;
  invoke (RegisterAuthenticated b)
    (fun w => (tt, proto_RegisterAuthenticated V w b)).

(** [bnc.GetSessionId(sessionParams, sessionInfo)]: what it leaves in
    [*sessionInfo], and the error it returns. *)
Definition GetSessionId (bnc : Barnacle) (sessionParams : SessionParams)
    (sessionInfo : SessionInfo) : B (SessionInfo * option error) :=
  vtconn <- invoke (NewVTConnCall (TabletType sessionParams))
              (fun w => NewVTConn V w (balancerMap bnc) (tabletProtocol bnc)
                          (TabletType sessionParams) (retryDelay bnc) (retryCount bnc));;
  let sessionInfo := mkSessionInfo (Id vtconn) in
  _ <- invoke (PoolRegister (connections bnc) (Id vtconn))
         (fun w => Register V w (connections bnc) (Id vtconn) (VConn vtconn));;
  ret (sessionInfo, None).

Definition poolGet (bnc : Barnacle) (id : Z) : B (value + error) :=
  invoke (PoolGet (connections bnc) id) (fun w => Get V w (connections bnc) id).

Definition poolPut (bnc : Barnacle) (id : Z) : B unit :=
  invoke (PoolPut (connections bnc) id) (fun w => (tt, Put V w (connections bnc) id)).

Definition poolUnregister (bnc : Barnacle) (id : Z) : B unit :=
  invoke (PoolUnregister (connections bnc) id)
    (fun w => (tt, Unregister V w (connections bnc) id)).

(** [bnc.Execute(context, query, reply)]: what it leaves in [*reply],
    and the error it returns. *)
Definition Execute (bnc : Barnacle) (query : Query BindVars) (reply : QueryResult)
  : B (QueryResult * option error) :=
  r <- poolGet bnc (QSessionId query);;
  match r with
  | inr err => ret (reply, Some err)
  | inl vtconn =>
      defer (poolPut bnc (QSessionId query))
        (c <- assertVTConn vtconn;;
         res <- invoke (ConnExecute c (Sql query))
                  (fun w => conn_Execute V w c (Sql query) (BindVariables query)
                              (QKeyspace query) (Shards query));;
         let '(qr, err) := res in
         match err with
         | None =>
             match qr with
             | Some q => ret (q, None)
             | None =>
                 panic (OtherError "invalid memory address or nil pointer dereference")
             end
         | Some e => ret (reply, Some e)
         end)
  end.

(** [bnc.StreamExecute(context, query, sendReply)]. *)
Definition StreamExecute (bnc : Barnacle) (query : Query BindVars)
    (sendReply : SendReply) : B (option error) :=
  r <- poolGet bnc (QSessionId query);;
  match r with
  | inr err => ret (Some err)
  | inl vtconn =>
      defer (poolPut bnc (QSessionId query))
        (c <- assertVTConn vtconn;;
         invoke (ConnStreamExecute c (Sql query))
           (fun w => conn_StreamExecute V w c (Sql query) (BindVariables query)
                       (QKeyspace query) (Shards query) sendReply))
  end.

(** [bnc.Begin(context, session, txInfo)]: what it leaves in [*txInfo],
    and the error it returns. *)
Definition Begin (bnc : Barnacle) (session : Session) (txInfo : TransactionInfo)
  : B (TransactionInfo * option error) :=
  r <- poolGet bnc (SessionId session);;
  match r with
  | inr err => ret (txInfo, Some err)
  | inl vtconn =>
      defer (poolPut bnc (SessionId session))
        (c <- assertVTConn vtconn;;
         res <- invoke (ConnBegin c) (fun w => conn_Begin V w c);;
         let '(id, err) := res in
         ret (mkTransactionInfo id, err))
  end.

(** [bnc.Commit(context, session, noOutput)]. *)
Definition Commit (bnc : Barnacle) (session : Session) : B (option error) :=
  r <- poolGet bnc (SessionId session);;
  match r with
  | inr err => ret (Some err)
  | inl vtconn =>
      defer (poolPut bnc (SessionId session))
        (c <- assertVTConn vtconn;;
         invoke (ConnCommit c) (fun w => conn_Commit V w c))
  end.

(** [bnc.Rollback(context, session, noOutput)]. *)
Definition Rollback (bnc : Barnacle) (session : Session) : B (option error) :=
  r <- poolGet bnc (SessionId session);;
  match r with
  | inr err => ret (Some err)
  | inl vtconn =>
      defer (poolPut bnc (SessionId session))
        (c <- assertVTConn vtconn;;
         invoke (ConnRollback c) (fun w => conn_Rollback V w c))
  end.

(** [bnc.CloseSession(context, session, noOutput)]. *)
Definition CloseSession (bnc : Barnacle) (session : Session) : B (option error) :=
  r <- poolGet bnc (SessionId session);;
  match r with
  | inr err => ret (Some err)
  | inl vtconn =>
      defer (poolUnregister bnc (SessionId session))
        (c <- assertVTConn vtconn;;
         invoke (ConnClose c) (fun w => (tt, conn_Close V w c));;
         ret None)
  end.

End Methods.

(** *** Observations *)

Definition final {S A} (r : result S A) : S :=
  match r with
  | Returns _ s | Panics _ s | Exits s => s
  end.

Definition returned {S A} (r : result S A) : option A :=
  match r with
  | Returns a _ => Some a
  | _ => None
  end.

Definition panicked {S A} (r : result S A) : bool :=
  match r with
  | Panics _ _ => true
  | _ => false
  end.

Definition exited {S A} (r : result S A) : bool :=
  match r with
  | Exits _ => true
  | _ => false
  end.

(** The calls on the pool that hand a session's connection back
    ([Put]), and the ones that take it out or drop it. *)
Definition is_put (pool : ref) (id : Z) (c : call) : bool :=
  bool_decide (c = PoolPut pool id).

Definition is_get (pool : ref) (id : Z) (c : call) : bool :=
  bool_decide (c = PoolGet pool id).

Definition count (f : call -> bool) (tr : list call) : nat :=
  length (List.filter f tr).

(** The state after the calls [cs], in the world [w]. *)
Definition after {W} (s : State W) (w : W) (cs : list call) : State W :=
  mkState (RpcBarnacle s) w (calls s ++ cs).

(** The calls a method makes on the connection it found in the pool:
    none when what the pool held is no connection. *)
Definition on_conn (v : value) (f : VTConn -> call) : list call :=
  match v with
  | VConn c => [f c]
  | VOther => []
  end.

(** The calls of a method that takes the session [id] out of the pool
    of [bnc]: the [Get]; and, when it found the session, what it does
    on the connection and then the [Put]. *)
Definition session_calls {W BindVars QueryResult SendReply : Type}
    (V : Services W BindVars QueryResult SendReply)
    (bnc : Barnacle) (id : Z) (w : W) (f : VTConn -> call) : list call :=
  PoolGet (connections bnc) id ::
  match fst (Get V w (connections bnc) id) with
  | inr _ => []
  | inl v => on_conn v f ++ [PoolPut (connections bnc) id]
  end.

(** *** A pool to run the service on *)

(** The sessions of a small pool: each with its connection and whether
    it is in use. Whatever [pools.Numbered] does, this pool refuses a
    second registration of an id and a [Get] of a session in use. *)
Record Pool : Type := mkPool {
  sessions : list (Z * (value * bool));
  next_id : Z;
  closed : list Z
}.

Fixpoint lookup_session (id : Z) (l : list (Z * (value * bool)))
  : option (value * bool) :=
  match l with
  | [] => None
  | (k, v) :: rest => if k =? id then Some v else lookup_session id rest
  end.

Fixpoint set_session (id : Z) (v : option (value * bool))
    (l : list (Z * (value * bool))) : list (Z * (value * bool)) :=
  match l with
  | [] => match v with Some x => [(id, x)] | None => [] end
  | (k, x) :: rest =>
      if k =? id then match v with Some y => (k, y) :: rest | None => rest end
      else (k, x) :: set_session id v rest
  end.

Definition sample_Get (p : Pool) (pool : ref) (id : Z) : (value + error) * Pool :=
  match lookup_session id (sessions p) with
  | None => (inr (OtherError "not found"), p)
  | Some (v, true) => (inr (OtherError "in use"), p)
  | Some (v, false) =>
      (inl v, mkPool (set_session id (Some (v, true)) (sessions p)) (next_id p) (closed p))
  end.

Definition sample_Put (p : Pool) (pool : ref) (id : Z) : Pool :=
  match lookup_session id (sessions p) with
  | Some (v, _) =>
      mkPool (set_session id (Some (v, false)) (sessions p)) (next_id p) (closed p)
  | None => p
  end.

Definition sample_Register (p : Pool) (pool : ref) (id : Z) (v : value)
  : option error * Pool :=
  match lookup_session id (sessions p) with
  | Some _ => (Some (OtherError "already present"), p)
  | None => (None, mkPool (set_session id (Some (v, false)) (sessions p))
                     (next_id p) (closed p))
  end.

Definition sample_Unregister (p : Pool) (pool : ref) (id : Z) : Pool :=
  mkPool (set_session id None (sessions p)) (next_id p) (closed p).

(** The connections of the sample: the statement [fail] is refused,
    the statement [void] gives no result and no error, every other one
    is answered with its own text. *)
Definition sample_Execute (p : Pool) (c : VTConn) (sql : string) (bv : unit)
    (keyspace : string) (shards : list string)
  : (option string * option error) * Pool :=
  if String.eqb sql "fail" then (None, Some (OtherError "syntax error"), p)
  else if String.eqb sql "void" then (None, None, p)
  else (Some sql, None, p).

Definition V : Services Pool unit string unit :=
  mkServices Pool unit string unit
    (fun p => (0%nat, p))
    (fun p _ _ _ => (1%nat, p))
    (fun p => (2%nat, p))
    (fun p _ => p)
    (fun p _ _ _ _ _ =>
       (mkVTConn (next_id p), mkPool (sessions p) (next_id p + 1) (closed p)))
    sample_Register sample_Get sample_Put sample_Unregister
    sample_Execute
    (fun p c sql _ _ _ _ =>
       (if String.eqb sql "fail" then Some (OtherError "syntax error") else None, p))
    (fun p c => if Id c =? 7 then ((0, Some (OtherError "no tablet")), p)
                else ((Id c + 100, None), p))
    (fun p c => (None, p))
    (fun p c => (None, p))
    (fun p c => mkPool (sessions p) (next_id p) (Id c :: closed p)).

(** The service after [Init], with the sessions 5 and 7 open and the
    id 9 taken by a value that is no connection. *)
Definition bnc0 : Barnacle := mkBarnacle 1 "gorpc" 2 30 3.

Definition p0 : Pool :=
  mkPool [(5, (VConn (mkVTConn 5), false)); (7, (VConn (mkVTConn 7), false));
          (9, (VOther, false))] 10 [].

Definition b0 : State Pool := mkState (Some bnc0) p0 [].

(** The process before [Init]. *)
Definition b_new : State Pool := mkState None (mkPool [] 1 []) [].

(** The service with a pool in which the id of the next connection is
    taken already. *)
Definition b_clash : State Pool :=
  mkState (Some bnc0) (mkPool (sessions p0) 5 []) [].

End Barnacle.

(** ** More worlds to run the agent in *)

Module Cases.
Import Sample.

(** The sample world with the store out of reach. *)
Definition w_down : World :=
  mkWorld (nodes w0) (queue w0) true (files w0) (events w0).

Definition s_down : State World := mkState agent0 w_down [] [].

(** The sample world with an empty queue, whose watch delivers an event
    of a session that is not healthy, and one whose watch delivers a
    healthy event of another type. *)
Definition w_unhealthy : World :=
  mkWorld (nodes w0) [] false (files w0) [mkEvent EVENT_CHILD 0].

Definition s_unhealthy : State World := mkState agent0 w_unhealthy [] [].

(** That state after the drain, and the world after the watch
    delivered its event. *)
Definition s_unhealthy1 : State World :=
  Eval vm_compute in final (handleActionQueue X s_unhealthy).

Definition w_unhealthy2 : World :=
  Eval vm_compute in snd (recv (world s_unhealthy1) (Some 0%nat)).

Definition w_changed : World :=
  mkWorld (nodes w0) [] false (files w0) [mkEvent 3 3].

Definition s_changed : State World := mkState agent0 w_changed [] [].

(** A world with four queued actions, listed out of order: the second
    in the order of their names is malformed, the two after it are
    well formed. *)
Definition path4 : string := action_path +:+ "/0000000004".

Definition w_four : World :=
  mkWorld
    ((path4, ("Ping"%string, 0)) :: nodes w0)
    ["0000000004"; "0000000002"; "0000000001"; "0000000003"]%string
    false (files w0) (events w0).

Definition s_four : State World := mkState agent0 w_four [] [].

(** The drain of that world when it reaches the malformed node, and
    when it reaches the last node. *)
Definition s_four1 : State World :=
  Eval vm_compute in
    final (dispatchChildren X action_path ["0000000001"%string]
             (extend s_four w_four [EvStore (ZkChildrenW action_path)])).

Definition s_four2 : State World :=
  Eval vm_compute in
    final (dispatchChildren X action_path ["0000000003"%string]
             (after_decode_failure s_four1 (action_path +:+ "/0000000002")
                (OtherError "invalid character"))).

(** An agent as [NewActionAgent] makes it, with the record cached: no
    path resolved yet. *)
Definition agent_new : ActionAgent :=
  mkActionAgent tablet_path action_path "" "" false (Some tablet0).

Definition s_new : State World := mkState agent_new w0 [] [].

(** The same before the first read, on a disk without the executor. *)
Definition w_bare : World :=
  mkWorld (nodes w0) (queue w0) false ["/etc/my.cnf"%string] (events w0).

Definition s_bare : State World :=
  mkState (NewActionAgent X tablet_path) w_bare [] [].

(** The agent as [NewActionAgent] makes it, on the sample disk, which
    has the executor. *)
Definition s_blank : State World :=
  mkState (NewActionAgent X tablet_path) w0 [] [].

(** A tablet of a type that does not serve. *)
Definition tablet_idle : TabletInfo :=
  mkTabletInfo (TabletOf tablet0) (Path tablet0) (PidPath tablet0)
    (ReplicationPath tablet0) (ShardPath tablet0) false.

Definition s_idle : State World :=
  mkState (set_tablet tablet_idle agent0) w_other [] [].

(** The directory that lists this tablet as it is, before another one
    with the same uid. *)
Definition fresh_entry : VtnsAddrData :=
  mkVtnsAddrData 7 "vt7" 0 (Some (port_map 6700 3306)).

(** An entry of this tablet that was decoded without a port map. *)
Definition bare_entry : VtnsAddrData := mkVtnsAddrData 7 "vt7" 0 None.

(** A decoder that knows the directories of the sample and these two. *)
Definition more_dirs : list (list VtnsAddrData) :=
  [[other_entry; fresh_entry; stale_entry]; [other_entry; bare_entry];
   [other_entry; fresh_entry]].

Definition addrs_from_json' (data : string) : list VtnsAddrData + error :=
  match List.find (fun ds => String.eqb (addrs_to_json ds) data) more_dirs with
  | Some ds => inl ds
  | None => addrs_from_json data
  end.

Definition X' : Externals World :=
  mkExternals World
    (zk_Get X) (zk_ChildrenW X) (zk_Create X) (zk_Set X) (zk_CreatePidNode X)
    (chan_recv X) (time_Sleep X) (Event_Ok X)
    (ReadTablet X) (ReadShard X) (ActionNodeFromJson X) (tabletFromJson X)
    (toJson_tablet X) (toJson_addrs X) (TabletActionPath X)
    (ZkPathForVtName X) addrs_from_json'
    (os_Stat X) (os_Hostname X) (env_VTROOT X) (CombinedOutput X) (flag_logfile X).

(** A tablet whose MySQL address names another host. *)
Definition tablet_two : Tablet :=
  mkTablet "c1" 7 "vt7:6700" "db7:3306" "ks" "0" "replica".

(** The sample world with a directory entry that does not decode. *)
Definition w_corrupt : World :=
  with_nodes w0 (assoc_set serving_dir ("{"%string, 4) (nodes w0)).

Definition s_corrupt : State World := mkState agent0 w_corrupt [] [].

End Cases.

(** * Part II: what the program does *)

(** Counting events of a trace that ends in explicit events. *)
Ltac count_events :=
  unfold refreshes, writes;
  rewrite ?List.filter_app, ?length_app; cbn; lia.

Lemma refreshes_app tr1 tr2 :
  refreshes (tr1 ++ tr2) = (refreshes tr1 + refreshes tr2)%nat.
Proof. unfold refreshes. by rewrite List.filter_app, length_app. Qed.

Lemma writes_app tr1 tr2 : writes (tr1 ++ tr2) = (writes tr1 + writes tr2)%nat.
Proof. unfold writes. by rewrite List.filter_app, length_app. Qed.

Lemma dispatched_app tr1 tr2 :
  dispatched (tr1 ++ tr2) = dispatched tr1 ++ dispatched tr2.
Proof.
  induction tr1 as [|ev tr1 IH]; [done|].
  simpl. repeat case_match; simpl; by rewrite IH.
Qed.

Lemma launched_app tr1 tr2 : launched (tr1 ++ tr2) = launched tr1 ++ launched tr2.
Proof.
  induction tr1 as [|ev tr1 IH]; [done|].
  simpl. destruct ev; simpl; by rewrite ?IH.
Qed.

Lemma launched_nodes_app tr1 tr2 :
  launched_nodes (tr1 ++ tr2) = launched_nodes tr1 ++ launched_nodes tr2.
Proof. unfold launched_nodes. by rewrite launched_app, map_app. Qed.

(** ** The byte-wise order on strings *)

Lemma string_le_nil_l (s : string) : string_le EmptyString s.
Proof. by destruct s. Qed.

Lemma string_le_nil_r (s : string) : string_le s EmptyString -> s = EmptyString.
Proof. by destruct s. Qed.

Lemma string_le_cons (a b : ascii) (s t : string) :
  string_le (String a s) (String b t) <->
  (N_of_ascii a < N_of_ascii b)%N \/ (a = b /\ string_le s t).
Proof.
  unfold string_le, String.leb. cbn [String.compare]. unfold Ascii.compare.
  destruct (N.compare_spec (N_of_ascii a) (N_of_ascii b)) as [He|Hl|Hg].
  - apply (f_equal ascii_of_N) in He as He'. rewrite !ascii_N_embedding in He'.
    split; [intros H; right; by split|intros [?|[_ ?]]; [lia|done]].
  - split; [by left|done].
  - split; [done|]. intros [?|[-> _]]; lia.
Qed.

#[global] Instance string_le_refl : Reflexive string_le.
Proof.
  intros s. induction s as [|a s IH]; [done|].
  apply string_le_cons. by right.
Qed.

#[global] Instance string_le_trans : Transitive string_le.
Proof.
  intros s. induction s as [|a s IH]; intros t u Hst Htu.
  - apply string_le_nil_l.
  - destruct t as [|b t]; [by apply string_le_nil_r in Hst|].
    destruct u as [|c u]; [by apply string_le_nil_r in Htu|].
    apply string_le_cons in Hst, Htu. apply string_le_cons.
    destruct Hst as [?|[-> ?]], Htu as [?|[-> ?]]; eauto; left; lia.
Qed.

#[global] Instance string_le_antisym : AntiSymm (=) string_le.
Proof. intros s t. apply String.leb_antisym. Qed.

#[global] Instance string_le_total : Total string_le.
Proof. intros s t. apply String.leb_total. Qed.

(** [sort.Strings] returns the one increasing arrangement of its
    argument, so the algorithm behind it does not matter. *)
Lemma sort_Strings_sorted (l : list string) : Sorted string_le (sort_Strings l).
Proof. apply (Sorted_merge_sort string_le). Qed.

Lemma sort_Strings_perm (l : list string) : sort_Strings l ≡ₚ l.
Proof. apply (merge_sort_Permutation string_le). Qed.

Lemma sort_Strings_unique (l l' : list string) :
  Sorted string_le l' -> l' ≡ₚ l -> l' = sort_Strings l.
Proof.
  intros Hs Hp. apply (Sorted_unique string_le); [done|apply sort_Strings_sorted|].
  by rewrite Hp, sort_Strings_perm.
Qed.

Lemma decimal_value_bound (s : string) :
  all_digits s = true -> (decimal_value s < 10 ^ N.of_nat (String.length s))%N.
Proof.
  induction s as [|c r IH]; cbn [all_digits decimal_value String.length].
  - intros _. cbn. lia.
  - intros [Hc Hr]%andb_true_iff. specialize (IH Hr).
    unfold is_digit in Hc. apply andb_true_iff in Hc as [H1%N.leb_le H2%N.leb_le].
    rewrite Nat2N.inj_succ, N.pow_succ_r'. nia.
Qed.

(** On digit strings of one width the byte-wise order is the numeric
    order. *)
Lemma string_le_decimal (d1 d2 : string) :
  all_digits d1 = true -> all_digits d2 = true ->
  String.length d1 = String.length d2 ->
  string_le d1 d2 <-> (decimal_value d1 <= decimal_value d2)%N.
Proof.
  revert d2. induction d1 as [|a r IH]; intros [|b t]; try done.
  cbn [all_digits decimal_value String.length].
  intros [Ha Hr]%andb_true_iff [Hb Ht]%andb_true_iff [= Hlen].
  specialize (IH t Hr Ht Hlen).
  pose proof (decimal_value_bound r Hr) as Br.
  pose proof (decimal_value_bound t Ht) as Bt.
  rewrite Hlen in *.
  unfold is_digit in Ha, Hb.
  apply andb_true_iff in Ha as [Ha1%N.leb_le Ha2%N.leb_le].
  apply andb_true_iff in Hb as [Hb1%N.leb_le Hb2%N.leb_le].
  rewrite string_le_cons. split.
  - intros [Hlt | [-> Hle]]; [nia|]. apply IH in Hle. lia.
  - intros Hle.
    destruct (N.lt_trichotomy (N_of_ascii a) (N_of_ascii b)) as [?|[Heq|Hgt]].
    + by left.
    + right. apply (f_equal ascii_of_N) in Heq as Heq'.
      rewrite !ascii_N_embedding in Heq'. subst b. split; [done|].
      apply IH. lia.
    + exfalso. nia.
Qed.

(** A common prefix does not change the order. *)
Lemma string_le_prefix (p a b : string) :
  string_le (p +:+ a) (p +:+ b) <-> string_le a b.
Proof.
  induction p as [|c p IH]; [done|].
  change (String c p +:+ a) with (String c (p +:+ a)).
  change (String c p +:+ b) with (String c (p +:+ b)).
  rewrite string_le_cons. split.
  - intros [?|[_ ?]]; [lia|by apply IH].
  - intros H. right. split; [done|by apply IH].
Qed.

(** ** Splitting addresses *)

Lemma split_last_none (c : ascii) (s : string) :
  contains_char c s = false -> split_last c s = None.
Proof.
  induction s as [|a s IH]; [done|]. cbn.
  intros [Ha Hs]%orb_false_iff. by rewrite (IH Hs), Ha.
Qed.

Lemma split_last_some (c : ascii) (s h p : string) :
  split_last c s = Some (h, p) -> contains_char c s = true.
Proof.
  revert h p. induction s as [|a s IH]; [done|]. cbn. intros h p.
  destruct (split_last c s) as [[h0 p0]|] eqn:E.
  - intros _. rewrite (IH _ _ eq_refl). apply orb_true_r.
  - destruct (Ascii.eqb a c); [done|discriminate].
Qed.

Lemma split_last_app (c : ascii) (h p : string) :
  contains_char c p = false ->
  split_last c (h +:+ String c p) = Some (h, p).
Proof.
  intros Hp. induction h as [|a h IH].
  - change ("" +:+ String c p) with (String c p). cbn [split_last].
    by rewrite (split_last_none c p Hp), Ascii.eqb_refl.
  - change (String a h +:+ String c p) with (String a (h +:+ String c p)).
    cbn [split_last]. by rewrite IH.
Qed.

(** An address without a colon is not in host:port form. *)
Lemma net_SplitHostPort_no_colon (addr : string) :
  contains_char ":" addr = false ->
  net_SplitHostPort addr = inr (OtherError "missing port in address").
Proof. intros H. unfold net_SplitHostPort. by rewrite split_last_none. Qed.

Lemma contains_char_app (c : ascii) (a b : string) :
  contains_char c (a +:+ b) = contains_char c a || contains_char c b.
Proof.
  induction a as [|x a IH]; [done|].
  change (String x a +:+ b) with (String x (a +:+ b)). cbn [contains_char].
  by rewrite IH, orb_assoc.
Qed.

Lemma get_0_app (host : string) (c : ascii) (r : string) :
  String.get 0 host <> Some "["%char -> c <> "["%char ->
  String.get 0 (host +:+ String c r) <> Some "["%char.
Proof.
  intros Hb Hc. destruct host as [|a h]; [|exact Hb].
  change ("" +:+ String c r) with (String c r). cbn. congruence.
Qed.

(** What [net.SplitHostPort] does with an address that does not begin
    with a bracket and whose last colon is known. *)
Lemma net_SplitHostPort_unbracketed (host port : string) :
  contains_char ":" port = false ->
  String.get 0 host <> Some "["%char ->
  net_SplitHostPort (host +:+ ":" +:+ port) =
    if contains_char ":" host then inr (OtherError "too many colons in address")
    else if contains_char "[" (host +:+ ":" +:+ port) then
      inr (OtherError "unexpected '[' in address")
    else if contains_char "]" (host +:+ ":" +:+ port) then
      inr (OtherError "unexpected ']' in address")
    else inl (host, port).
Proof.
  intros Hp Hb. unfold net_SplitHostPort.
  change (host +:+ ":" +:+ port) with (host +:+ String ":" port).
  rewrite split_last_app by done.
  assert (Hg : String.get 0 (host +:+ String ":" port) <> Some "["%char)
    by (apply get_0_app; [done|discriminate]).
  by rewrite (bool_decide_eq_false_2 _ Hg).
Qed.

(** A host without colon or bracket, a colon and a port without colon
    or bracket split into the host and the port. *)
Lemma net_SplitHostPort_plain (host port : string) :
  contains_char ":" host = false ->
  contains_char "[" host = false -> contains_char "]" host = false ->
  contains_char ":" port = false ->
  contains_char "[" port = false -> contains_char "]" port = false ->
  net_SplitHostPort (host +:+ ":" +:+ port) = inl (host, port).
Proof.
  intros Hc Ho Hcl Hpc Hpo Hpcl.
  rewrite net_SplitHostPort_unbracketed; [|done|].
  - change (host +:+ ":" +:+ port) with (host +:+ String ":" port).
    rewrite !contains_char_app. cbn [contains_char].
    by rewrite Hc, Ho, Hcl, Hpo, Hpcl.
  - destruct host as [|a h]; [done|]. cbn in *. intros [= ->]. done.
Qed.

Lemma string_of_uint_no_colon (d : Decimal.uint) :
  contains_char ":" (NilEmpty.string_of_uint d) = false.
Proof. induction d; cbn; by rewrite ?IHd. Qed.

Lemma NilZero_string_of_uint_nonnil (d : Decimal.uint) :
  d <> Nil -> NilZero.string_of_uint d = NilEmpty.string_of_uint d.
Proof. by destruct d. Qed.

Lemma itoa_no_colon (n : Z) : contains_char ":" (itoa n) = false.
Proof.
  unfold itoa. destruct n as [|p|p]; [done| |];
    cbn [Z.to_int NilZero.string_of_int contains_char];
    rewrite NilZero_string_of_uint_nonnil
      by apply DecimalPos.Unsigned.to_uint_nonnil;
    by rewrite string_of_uint_no_colon.
Qed.

Lemma string_of_uint_no_brackets (d : Decimal.uint) :
  contains_char "[" (NilEmpty.string_of_uint d) = false /\
  contains_char "]" (NilEmpty.string_of_uint d) = false.
Proof.
  induction d as [|d [H1 H2]|d [H1 H2]|d [H1 H2]|d [H1 H2]|d [H1 H2]
                 |d [H1 H2]|d [H1 H2]|d [H1 H2]|d [H1 H2]|d [H1 H2]];
    cbn; by rewrite ?H1, ?H2.
Qed.

Lemma itoa_no_brackets (n : Z) :
  contains_char "[" (itoa n) = false /\ contains_char "]" (itoa n) = false.
Proof.
  unfold itoa. destruct n as [|p|p]; [done| |];
    cbn [Z.to_int NilZero.string_of_int contains_char];
    rewrite NilZero_string_of_uint_nonnil
      by apply DecimalPos.Unsigned.to_uint_nonnil;
    destruct (string_of_uint_no_brackets (Pos.to_uint p)) as [-> ->]; done.
Qed.

(** The digits of a positive number parse to the number. *)
Lemma parse_digits_to_uint (p : positive) :
  exists c rest,
    NilZero.string_of_uint (Pos.to_uint p) = String c rest /\
    Ascii.eqb c "+" = false /\ Ascii.eqb c "-" = false /\
    parse_digits (String c rest) = Some (Z.pos p).
Proof.
  pose proof (DecimalPos.Unsigned.to_uint_nonnil p) as Hn.
  pose proof (DecimalPos.Unsigned.of_to p) as Hof.
  rewrite (NilZero_string_of_uint_nonnil _ Hn).
  assert (Hp : forall c rest,
             NilEmpty.string_of_uint (Pos.to_uint p) = String c rest ->
             parse_digits (String c rest) = Some (Z.pos p)).
  { intros c rest E. unfold parse_digits. rewrite <- E, NilEmpty.usu. cbn.
    unfold Z.of_uint. by rewrite Hof. }
  destruct (Pos.to_uint p) eqn:E; try done; cbn in *;
    eexists _, _; (split; [reflexivity|]); (split; [done|]); (split; [done|]);
    by apply Hp.
Qed.

(** Printing a number and parsing it back as a port succeeds exactly
    for the numbers a signed 16-bit integer holds. *)
Lemma strconv_ParseInt16_itoa (n : Z) :
  match strconv_ParseInt16 (itoa n) with
  | inl m => m = n /\ -32768 <= n <= 32767
  | inr _ => n < -32768 \/ 32767 < n
  end.
Proof.
  unfold itoa. destruct n as [|p|p]; [cbn; lia| |].
  - cbn [Z.to_int NilZero.string_of_int].
    destruct (parse_digits_to_uint p) as (c & rest & -> & Hplus & Hminus & Hparse).
    unfold strconv_ParseInt16. rewrite Hplus, Hminus, Hparse.
    destruct (Z.ltb_spec (Z.pos p) 32768); lia.
  - cbn [Z.to_int NilZero.string_of_int].
    destruct (parse_digits_to_uint p) as (c & rest & -> & Hplus & Hminus & Hparse).
    unfold strconv_ParseInt16.
    change (Ascii.eqb "-" "+") with false. change (Ascii.eqb "-" "-") with true.
    cbn iota. rewrite Hparse.
    destruct (Z.leb_spec (Z.pos p) 32768); lia.
Qed.

(** An address without a colon, and an address whose port is a number
    outside the 16-bit range, are addresses [splitHostPort] panics on;
    a plain host with a port inside the range splits. *)
Lemma no_colon_unsplittable (addr : string) :
  contains_char ":" addr = false -> unsplittable addr.
Proof.
  intros H. left. eexists. by apply net_SplitHostPort_no_colon.
Qed.

Lemma port_out_of_range_unsplittable (host : string) (n : Z) :
  contains_char ":" host = false ->
  String.get 0 host <> Some "["%char ->
  n < -32768 \/ 32767 < n ->
  unsplittable (host +:+ ":" +:+ itoa n).
Proof.
  intros Hh Hb Hn. unfold unsplittable.
  rewrite (net_SplitHostPort_unbracketed host (itoa n) (itoa_no_colon n) Hb), Hh.
  destruct (contains_char "[" _); [left; by eexists|].
  destruct (contains_char "]" _); [left; by eexists|].
  right.
  pose proof (strconv_ParseInt16_itoa n) as Hp.
  destruct (strconv_ParseInt16 (itoa n)) as [m|e] eqn:E; [lia|].
  by exists host, (itoa n), e.
Qed.

Lemma port_in_range_splits (host : string) (n : Z) :
  contains_char ":" host = false ->
  contains_char "[" host = false -> contains_char "]" host = false ->
  -32768 <= n <= 32767 ->
  splits (host +:+ ":" +:+ itoa n) host n.
Proof.
  intros Hh Ho Hc Hn. exists (itoa n).
  pose proof (strconv_ParseInt16_itoa n) as Hp.
  destruct (strconv_ParseInt16 (itoa n)) as [m|e] eqn:E; [|lia].
  destruct Hp as [-> _]. split; [|done].
  destruct (itoa_no_brackets n).
  by apply net_SplitHostPort_plain; [..|apply itoa_no_colon| |].
Qed.

(** ** Readers running beside a refresh *)

Section Concurrent.

Lemma step_goroutine_inv (i : nat) (m m' : machine) :
  step_goroutine i m = Some m' ->
  exists ins rest l a l',
    goroutines m !! i = Some (mkGoroutine (ins :: rest) l) /\
    step_instr ins (shared m) l = Some (a, l') /\
    m' = mkMachine a (<[i := mkGoroutine rest l']> (goroutines m)).
Proof.
  unfold step_goroutine.
  destruct (goroutines m !! i) as [[[|ins rest] l]|] eqn:Hi; try done.
  destruct (step_instr ins (shared m) l) as [[a l']|] eqn:Hs; [|done].
  intros [= <-]. by exists ins, rest, l, a, l'.
Qed.

Lemma records_in_step (C : option TabletInfo -> Prop) (i : nat) (m m' : machine) :
  records_in C m -> step_goroutine i m = Some m' -> records_in C m'.
Proof.
  intros [Hc Hg] (ins & rest & l & a & l' & Hi & Hs & ->)%step_goroutine_inv.
  destruct (Hg i _ Hi) as [Hl Hst]. cbn in Hl, Hst.
  assert (Ha : C (_tablet a) /\ (forall v, l' = Some v -> C v)).
  { destruct ins; cbn in Hs.
    - destruct (mutex (shared m)); [done|]. injection Hs as <- <-. by split.
    - destruct (mutex (shared m)); [|done]. injection Hs as <- <-. by split.
    - injection Hs as <- <-. split; [|done]. cbn. apply Hst. by left.
    - injection Hs as <- <-. split; [done|]. by intros v [= <-]. }
  destruct Ha as [Ha Hl']. split; [done|]. cbn.
  intros j g Hj. destruct (decide (j = i)) as [->|Hne].
  - rewrite list_lookup_insert_eq in Hj by (by eapply lookup_lt_Some).
    injection Hj as <-. cbn. split; [done|]. intros t Ht. apply Hst. by right.
  - rewrite list_lookup_insert_ne in Hj by done. by apply Hg in Hj.
Qed.

Lemma records_in_run (C : option TabletInfo -> Prop) (sched : list nat) (m : machine) :
  records_in C m -> records_in C (run_schedule sched m).
Proof.
  revert m. induction sched as [|i sched IH]; intros m Hm; [done|].
  cbn. apply IH. destruct (step_goroutine i m) as [m'|] eqn:Hs; [|done].
  by eapply records_in_step.
Qed.

Lemma method_code_tail (ins : instr) (rest : list instr) :
  method_code (ins :: rest) ->
  method_code rest /\
  (ins = ILock -> critical rest = true) /\
  (ins <> ILock -> ins <> IUnlock -> critical rest = true) /\
  (ins = IUnlock -> rest = []).
Proof.
  unfold method_code, Tablet_code, readTablet_code.
  intros [H|[H|[H|[H|(t & [H|H])]]]]; try done; injection H as -> ->;
    (split; [eauto 10|]); repeat split; try done.
Qed.

Lemma exclusive_step (i : nat) (m m' : machine) :
  exclusive m -> step_goroutine i m = Some m' -> exclusive m'.
Proof.
  intros (Hwf & Hheld & Hone) (ins & rest & l & a & l' & Hi & Hs & ->)%step_goroutine_inv.
  pose proof (Hwf i _ Hi) as Hcode. cbn in Hcode.
  apply method_code_tail in Hcode as (Hrest & Hlock & Hmid & Hunlock).
  assert (Hlt : (i < length (goroutines m))%nat) by (by eapply lookup_lt_Some).
  assert (Hother : forall j g, j <> i ->
             <[i := mkGoroutine rest l']> (goroutines m) !! j = Some g ->
             goroutines m !! j = Some g).
  { intros j g Hne Hj. by rewrite list_lookup_insert_ne in Hj. }
  assert (Hself : forall g,
             <[i := mkGoroutine rest l']> (goroutines m) !! i = Some g ->
             g = mkGoroutine rest l').
  { intros g Hg. rewrite list_lookup_insert_eq in Hg by done. by injection Hg. }
  split; [|split]; cbn.
  - intros j g Hj. destruct (decide (j = i)) as [->|Hne].
    + by rewrite (Hself g Hj).
    + eapply Hwf. by eapply Hother.
  - intros j g Hj Hcrit. destruct ins; cbn in Hs.
    + destruct (mutex (shared m)); [done|]. by injection Hs as <- <-.
    + destruct (mutex (shared m)); [|done].
      injection Hs as <- <-. exfalso. destruct (decide (j = i)) as [->|Hne].
      * rewrite (Hself g Hj) in Hcrit. cbn in Hcrit.
        by rewrite (Hunlock eq_refl) in Hcrit.
      * apply (Hother _ _ Hne) in Hj. apply Hne.
        by apply (Hone j i g _ Hj Hi).
    + injection Hs as <- <-. cbn. by apply (Hheld i _ Hi).
    + injection Hs as <- <-. by apply (Hheld i _ Hi).
  - intros j k g g' Hj Hk Hcj Hck.
    destruct (decide (j = i)) as [->|Hnj], (decide (k = i)) as [->|Hnk];
      [done| | |].
    + apply (Hother _ _ Hnk) in Hk. destruct ins; cbn in Hs.
      * destruct (mutex (shared m)) eqn:Hmu; [done|].
        by pose proof (Hheld k _ Hk Hck).
      * symmetry. by apply (Hone k i g' _ Hk Hi).
      * symmetry. by apply (Hone k i g' _ Hk Hi).
      * symmetry. by apply (Hone k i g' _ Hk Hi).
    + apply (Hother _ _ Hnj) in Hj. destruct ins; cbn in Hs.
      * destruct (mutex (shared m)) eqn:Hmu; [done|].
        by pose proof (Hheld j _ Hj Hcj).
      * by apply (Hone j i g _ Hj Hi).
      * by apply (Hone j i g _ Hj Hi).
      * by apply (Hone j i g _ Hj Hi).
    + apply (Hother _ _ Hnj) in Hj. apply (Hother _ _ Hnk) in Hk.
      by apply (Hone j k g g').
Qed.

Lemma exclusive_run (sched : list nat) (m : machine) :
  exclusive m -> exclusive (run_schedule sched m).
Proof.
  revert m. induction sched as [|i sched IH]; intros m Hm; [done|].
  cbn. apply IH. destruct (step_goroutine i m) as [m'|] eqn:Hs; [|done].
  by eapply exclusive_step.
Qed.

Lemma refresh_beside_readers_lookup (a : ActionAgent) (tablet : TabletInfo)
    (n i : nat) (g : goroutine) :
  goroutines (refresh_beside_readers a tablet n) !! i = Some g ->
  g = mkGoroutine (readTablet_code tablet) None \/ g = mkGoroutine Tablet_code None.
Proof.
  destruct i as [|i]; cbn; [intros [= <-]; by left|].
  intros [-> _]%lookup_replicate. by right.
Qed.

(** Whatever the scheduler does, a reader beside a refresh reads the
    record cached before or the record of the refresh, and the two
    never are in their critical sections together. *)
Lemma refresh_beside_readers_run (a : ActionAgent) (tablet : TabletInfo)
    (n : nat) (sched : list nat) :
  mutex a = false ->
  let m := run_schedule sched (refresh_beside_readers a tablet n) in
  exclusive m /\
  (_tablet (shared m) = _tablet a \/ _tablet (shared m) = Some tablet) /\
  forall i g v, goroutines m !! i = Some g -> loaded g = Some v ->
                v = _tablet a \/ v = Some tablet.
Proof.
  intros Hm m. split.
  - apply exclusive_run. split; [|split].
    + intros i g [-> | ->]%refresh_beside_readers_lookup; cbn;
        unfold method_code; eauto 10.
    + by intros i g [-> | ->]%refresh_beside_readers_lookup.
    + by intros i j g g' [-> | ->]%refresh_beside_readers_lookup.
  - assert (Hr : records_in (fun v => v = _tablet a \/ v = Some tablet) m).
    { apply records_in_run. split; [by left|].
      intros i g [-> | ->]%refresh_beside_readers_lookup; cbn; split; try done.
      - intros t [?|[[= ->]|[?|[]]]]; try done. by right.
      - intros t [?|[?|[?|[]]]]; done. }
    destruct Hr as [Hc Hg]. split; [done|].
    intros i g v Hi Hv. by apply (Hg i g Hi).
Qed.

(** Run alone, the code of the refresh does to the agent what
    [readTablet] does after its read, and the code of a reader loads
    what [Tablet] returns. *)
Lemma codes_run_alone (a : ActionAgent) (tablet : TabletInfo) :
  mutex a = false ->
  shared (run_schedule [0; 0; 0]%nat
            (mkMachine a [mkGoroutine (readTablet_code tablet) None]))
  = set_mutex false (set_tablet tablet (set_mutex true a)) /\
  goroutines (run_schedule [0; 0; 0]%nat (mkMachine a [mkGoroutine Tablet_code None]))
  = [mkGoroutine [] (Some (_tablet a))].
Proof. intros Hm. cbn. unfold step_goroutine. cbn. by rewrite Hm. Qed.

End Concurrent.


(** ** The tablet record cache *)

Section Cache.
Context {W : Type} (X : Externals W).

(** With the mutex free, [Tablet()] returns the cached pointer and
    leaves the state as it was. *)
Lemma Tablet_unlocked (s : State W) :
  mutex (agent s) = false -> Tablet_ s = Ret (_tablet (agent s)) s.
Proof.
  destruct s as [[tp ap bp cp mu t] w h tr]; simpl; intros ->. reflexivity.
Qed.

Lemma TabletDeref_unlocked (s : State W) (t : TabletInfo) :
  mutex (agent s) = false -> _tablet (agent s) = Some t ->
  TabletDeref s = Ret t s.
Proof.
  intros Hm Ht. unfold TabletDeref, bind. rewrite Tablet_unlocked by done.
  by rewrite Ht.
Qed.

Lemma TabletDeref_nil (s : State W) :
  mutex (agent s) = false -> _tablet (agent s) = None ->
  panicked (TabletDeref s) = true.
Proof.
  intros Hm Ht. unfold TabletDeref, bind. rewrite Tablet_unlocked by done.
  by rewrite Ht.
Qed.

Lemma readTablet_failed (s : State W) (err : error) :
  ReadTablet X (world s) (zkTabletPath (agent s)) = inr err ->
  readTablet X s = Ret (Some err) (after_failed_read s).
Proof.
  intros H. unfold readTablet, bind, getAgent, query, bind, emit, getWorld, ret.
  simpl. by rewrite H.
Qed.

Lemma readTablet_ok (s : State W) (tablet : TabletInfo) :
  mutex (agent s) = false ->
  ReadTablet X (world s) (zkTabletPath (agent s)) = inl tablet ->
  readTablet X s = Ret None (after_refresh s tablet).
Proof.
  intros Hm H. unfold readTablet, bind, getAgent, query, bind, emit, getWorld, ret.
  simpl. rewrite H. unfold Lock, store_tablet, Unlock, bind, getAgent, setAgent.
  simpl. rewrite Hm. reflexivity.
Qed.

(** C8. A refresh whose store read fails returns the error and leaves
    the agent, and with it the cached record, as it was: [Tablet()]
    returns afterwards what it returned before. A refresh whose read
    succeeds replaces the cached pointer by the record read, whole, in
    one assignment between [Lock] and [Unlock], and leaves every other
    field of the agent alone: [Tablet()] then returns that record.
    These three steps are the code [readTablet_code]; when goroutines
    calling [Tablet()] run beside them, under any schedule, no two
    goroutines are between their [Lock] and [Unlock] together, and
    what a reader gets is the record cached before or the record
    read, never anything else. *)
Theorem readTablet_replaces_wholesale (s : State W) :
  mutex (agent s) = false ->
  match ReadTablet X (world s) (zkTabletPath (agent s)) with
  | inr err =>
      returned (readTablet X s) = Some (Some err) /\
      agent (final (readTablet X s)) = agent s /\
      returned (Tablet_ (final (readTablet X s))) = returned (Tablet_ s)
  | inl tablet =>
      returned (readTablet X s) = Some None /\
      final (readTablet X s) = after_refresh s tablet /\
      returned (Tablet_ (final (readTablet X s))) = Some (Some tablet) /\
      agent (after_refresh s tablet) =
        shared (run_schedule [0; 0; 0]%nat
                  (mkMachine (agent s)
                     [mkGoroutine (readTablet_code tablet) None])) /\
      forall n sched,
        let m := run_schedule sched (refresh_beside_readers (agent s) tablet n) in
        exclusive m /\
        forall i g v, goroutines m !! i = Some g -> loaded g = Some v ->
                      v = _tablet (agent s) \/ v = Some tablet
  end.
Proof.
  intros Hm.
  destruct (ReadTablet X (world s) (zkTabletPath (agent s))) as [tablet|err] eqn:H.
  - rewrite (readTablet_ok s tablet Hm H). cbn [returned final].
    split; [done|]. split; [done|].
    split; [by rewrite Tablet_unlocked|].
    split; [symmetry; by apply codes_run_alone|].
    intros n sched.
    destruct (refresh_beside_readers_run (agent s) tablet n sched Hm)
      as (Hex & _ & Hread).
    by split.
  - rewrite (readTablet_failed s err H). cbn [returned final].
    split; [done|]. split; [done|].
    by rewrite !Tablet_unlocked.
Qed.

End Cache.

(** ** The action queue processor *)

Section Queue.
Context {W : Type} (X : Externals W).

Lemma dispatchAction_get_failed (s : State W) (actionPath : string) (err : error) :
  zk_Get X (world s) actionPath = inr err ->
  dispatchAction X actionPath s =
    Ret tt (extend s (world s)
              [EvLog Info "action dispatch %v" [LStr actionPath];
               EvStore (ZkGet actionPath);
               EvLog Error "action dispatch failed: %v" [LErr err]]).
Proof.
  intros H. unfold dispatchAction, bind, relog, query, bind, emit, getWorld, ret.
  simpl. rewrite H. unfold extend. simpl. by rewrite <- !app_assoc.
Qed.

Lemma dispatchAction_decode_failed (s : State W) (actionPath data : string)
    (st : Stat) (err : error) :
  zk_Get X (world s) actionPath = inl (data, st) ->
  ActionNodeFromJson X data actionPath = inr err ->
  dispatchAction X actionPath s =
    Ret tt (extend s (world s)
              [EvLog Info "action dispatch %v" [LStr actionPath];
               EvStore (ZkGet actionPath);
               EvLog Error "action decode failed: %v %v" [LStr actionPath; LErr err]]).
Proof.
  intros H1 H2. unfold dispatchAction, bind, relog, query, bind, emit, getWorld, ret.
  simpl. rewrite H1, H2. unfold extend. simpl. by rewrite <- !app_assoc.
Qed.

Lemma dispatchAction_action_failed (s : State W) (actionPath data : string)
    (st : Stat) (node : ActionNode) (stdOut : string) (e : error) (w' : W) :
  zk_Get X (world s) actionPath = inl (data, st) ->
  ActionNodeFromJson X data actionPath = inl node ->
  CombinedOutput X (world s) (action_cmd X (agent s) actionPath node)
    = (stdOut, Some e, w') ->
  dispatchAction X actionPath s =
    Ret tt (extend s w'
              (launch_events X (agent s) actionPath node ++
               [EvLog Error "action failed: %v %v\n%s"
                  [LStr actionPath; LErr e; LStr stdOut]])).
Proof.
  intros H1 H2 H3.
  unfold dispatchAction, bind, relog, query, command, bind, emit, getWorld,
    getAgent, setWorld, ret.
  simpl. rewrite H1, H2. simpl. fold (action_cmd X (agent s) actionPath node).
  rewrite H3. unfold extend. simpl. by rewrite <- !app_assoc.
Qed.

Lemma dispatchAction_action_ok (s : State W) (actionPath data : string)
    (st : Stat) (node : ActionNode) (stdOut : string) (w' : W) :
  zk_Get X (world s) actionPath = inl (data, st) ->
  ActionNodeFromJson X data actionPath = inl node ->
  CombinedOutput X (world s) (action_cmd X (agent s) actionPath node)
    = (stdOut, None, w') ->
  dispatchAction X actionPath s =
    (err <- readTablet X;;
     match err with
     | Some e =>
         relog Warning "failed rereading tablet after action: %v %v"
           [LStr actionPath; LErr e]
     | None => ret tt
     end)
      (extend s w'
         (launch_events X (agent s) actionPath node ++
          [EvLog Info "action completed %v %s" [LStr actionPath; LStr stdOut]])).
Proof.
  intros H1 H2 H3.
  unfold dispatchAction at 1.
  unfold bind at 1, relog at 1, emit at 1.
  unfold bind at 1, query at 1, bind at 1, emit at 1, bind at 1, getWorld at 1, ret at 1.
  cbn [world agent maps trace]. rewrite H1, H2.
  unfold bind at 1, getAgent at 1. cbn [world agent maps trace].
  fold (action_cmd X (agent s) actionPath node).
  unfold bind at 1, relog at 1, emit at 1. cbn [world agent maps trace].
  unfold bind at 1, command at 1, bind at 1, emit at 1, bind at 1, getWorld at 1.
  cbn [world agent maps trace]. rewrite H3.
  unfold bind at 1, setWorld at 1, ret at 1. cbn [world agent maps trace].
  unfold bind at 1, relog at 1, emit at 1. cbn [world agent maps trace].
  unfold extend, launch_events. rewrite <- !app_assoc. reflexivity.
Qed.

(** A dispatch always returns: it logs the node first, starts the
    executor at most once, for this node, and keeps the agent's paths. *)
Lemma dispatchAction_effect (s : State W) (actionPath : string) :
  mutex (agent s) = false ->
  exists s' tr,
    dispatchAction X actionPath s = Ret tt s' /\
    trace s' = trace s ++ EvLog Info "action dispatch %v" [LStr actionPath] :: tr /\
    dispatched tr = [] /\
    (launched_nodes tr = [] \/ launched_nodes tr = [actionPath]) /\
    same_paths (agent s) (agent s').
Proof.
  intros Hm.
  destruct (zk_Get X (world s) actionPath) as [[data st]|err] eqn:HG.
  2:{ eexists _, _. split; [by apply dispatchAction_get_failed|].
      cbn. repeat split; auto. }
  destruct (ActionNodeFromJson X data actionPath) as [node|err] eqn:HD.
  2:{ eexists _, _. split; [by eapply dispatchAction_decode_failed|].
      cbn. repeat split; auto. }
  destruct (CombinedOutput X (world s) (action_cmd X (agent s) actionPath node))
    as [[stdOut [e|]] w'] eqn:HC.
  { eexists _, _. split; [by eapply dispatchAction_action_failed|].
    cbn. repeat split; auto. }
  rewrite (dispatchAction_action_ok s actionPath data st node stdOut w' HG HD HC).
  set (s1 := extend s w' _).
  assert (Hm1 : mutex (agent s1) = false) by done.
  unfold bind.
  destruct (ReadTablet X (world s1) (zkTabletPath (agent s1))) as [t|e] eqn:HR.
  - rewrite (readTablet_ok X s1 t Hm1 HR).
    eexists _, _. split; [reflexivity|]. cbn.
    rewrite <- !app_assoc. cbn. repeat split; auto.
  - rewrite (readTablet_failed X s1 e HR).
    eexists _, _. split; [reflexivity|]. cbn.
    rewrite <- !app_assoc. cbn. repeat split; auto.
Qed.

(** The loop over the children dispatches each of them, in the order
    of the list, whatever happens to the ones before. *)
Lemma dispatchChildren_effect (zk : string) (children : list string) (s : State W) :
  mutex (agent s) = false ->
  exists s',
    dispatchChildren X zk children s = Ret tt s' /\
    dispatched (trace s') = dispatched (trace s) ++ map (child_path zk) children /\
    (exists tr, trace s' = trace s ++ tr /\
                sublist (launched_nodes tr) (map (child_path zk) children)) /\
    same_paths (agent s) (agent s').
Proof.
  revert s. induction children as [|child rest IH]; intros s Hm.
  - exists s. split; [done|]. rewrite app_nil_r. split; [done|].
    split; [exists []; by rewrite app_nil_r|]. by repeat split.
  - destruct (dispatchAction_effect s (child_path zk child) Hm)
      as (s1 & tr & Hrun & Htr & Hd & Hl & Hp).
    destruct (IH s1) as (s2 & Hrun2 & Hd2 & (tr2 & Htr2 & Hl2) & Hp2);
      [apply Hp|].
    exists s2. cbn [dispatchChildren]. unfold bind at 1.
    fold (child_path zk child). rewrite Hrun. split; [done|].
    split.
    { rewrite Hd2, Htr, dispatched_app. cbn. rewrite Hd. cbn.
      by rewrite <- app_assoc. }
    split.
    { eexists. split; [rewrite Htr2, Htr, <- app_assoc; reflexivity|].
      rewrite launched_nodes_app. cbn [map].
      change (launched_nodes (EvLog Info "action dispatch %v" [LStr (child_path zk child)] :: tr))
        with (launched_nodes tr).
      destruct Hl as [-> | ->]; cbn.
      - by apply sublist_cons.
      - by apply sublist_skip. }
    destruct Hp as (?&?&?&?&?), Hp2 as (?&?&?&?&?).
    repeat split; congruence.
Qed.

End Queue.

(** ** Draining the queue *)

Section Drain.
Context {W : Type} (X : Externals W).

Lemma handleActionQueue_failed (s : State W) (children : list string)
    (watch : Watch) (e : error) :
  zk_ChildrenW X (world s) (zkActionPath (agent s)) = (children, watch, Some e) ->
  handleActionQueue X s =
    Ret (watch, Some e)
      (extend s (world s) [EvStore (ZkChildrenW (zkActionPath (agent s)))]).
Proof.
  intros H. unfold handleActionQueue, bind, getAgent, query, bind, emit, getWorld, ret.
  cbn. by rewrite H.
Qed.

Lemma handleActionQueue_listed (s : State W) (children : list string) (watch : Watch) :
  zk_ChildrenW X (world s) (zkActionPath (agent s)) = (children, watch, None) ->
  handleActionQueue X s =
    (dispatchChildren X (zkActionPath (agent s)) (sort_Strings children);;
     ret (watch, None))
      (extend s (world s) [EvStore (ZkChildrenW (zkActionPath (agent s)))]).
Proof.
  intros H. unfold handleActionQueue, bind, getAgent, query, bind, emit, getWorld, ret.
  cbn. rewrite H. destruct children as [|c l]; reflexivity.
Qed.

(** A drain whose listing succeeds returns the watch and no error, has
    dispatched the sorted children in order, and leaves the agent's
    paths and the free mutex. *)
Lemma handleActionQueue_effect (s : State W) (children : list string) (watch : Watch) :
  mutex (agent s) = false ->
  zk_ChildrenW X (world s) (zkActionPath (agent s)) = (children, watch, None) ->
  exists s',
    handleActionQueue X s = Ret (watch, None) s' /\
    dispatched (trace s') =
      dispatched (trace s) ++
      map (child_path (zkActionPath (agent s))) (sort_Strings children) /\
    (exists tr, trace s' = trace s ++ tr /\
                sublist (launched_nodes tr)
                  (map (child_path (zkActionPath (agent s))) (sort_Strings children))) /\
    same_paths (agent s) (agent s').
Proof.
  intros Hm H. rewrite (handleActionQueue_listed s children watch H).
  set (s0 := extend s (world s) _).
  destruct (dispatchChildren_effect X (zkActionPath (agent s))
              (sort_Strings children) s0 Hm)
    as (s' & Hrun & Hd & (tr & Htr & Hl) & Hp).
  exists s'. unfold bind. rewrite Hrun. split; [done|].
  split.
  { rewrite Hd. subst s0. cbn. by rewrite dispatched_app, app_nil_r. }
  split; [|done].
  eexists. split; [rewrite Htr; subst s0; cbn; rewrite <- app_assoc; reflexivity|].
  by rewrite launched_nodes_app.
Qed.

(** C3. Whatever the order in which the store lists the children of the
    action queue, a drain enters [dispatchAction] for them one after the
    other in increasing byte-wise order of their names, and starts the
    executor in that order too, each dispatch returning before the next
    begins. The increasing arrangement is unique, and for names that
    end in decimal counters of one width behind a common prefix it is
    the order of the counters. *)
Theorem handleActionQueue_ascending (s : State W) (children : list string)
    (watch : Watch) :
  mutex (agent s) = false ->
  zk_ChildrenW X (world s) (zkActionPath (agent s)) = (children, watch, None) ->
  returned (handleActionQueue X s) = Some (watch, None) /\
  dispatched (trace (final (handleActionQueue X s))) =
    dispatched (trace s) ++
    map (child_path (zkActionPath (agent s))) (sort_Strings children) /\
  (exists tr, trace (final (handleActionQueue X s)) = trace s ++ tr /\
              sublist (launched_nodes tr)
                (map (child_path (zkActionPath (agent s))) (sort_Strings children))) /\
  Sorted string_le (sort_Strings children) /\
  sort_Strings children ≡ₚ children /\
  (forall l, Sorted string_le l -> l ≡ₚ children -> l = sort_Strings children) /\
  (forall prefix d1 d2,
      all_digits d1 = true -> all_digits d2 = true ->
      String.length d1 = String.length d2 ->
      string_le (prefix +:+ d1) (prefix +:+ d2) <->
      (decimal_value d1 <= decimal_value d2)%N).
Proof.
  intros Hm H.
  destruct (handleActionQueue_effect s children watch Hm H)
    as (s' & -> & Hd & Hl & _).
  cbn [returned final].
  split; [done|]. split; [done|]. split; [done|].
  split; [apply sort_Strings_sorted|].
  split; [apply sort_Strings_perm|].
  split; [intros l; apply sort_Strings_unique|].
  intros prefix d1 d2 H1 H2 Hlen.
  rewrite string_le_prefix. by apply string_le_decimal.
Qed.

End Drain.

(** ** Refreshing the cache after an action *)

Section Refresh.
Context {W : Type} (X : Externals W).

(** C1, as the code has it. Once the executor was started for a node,
    the dispatch returns normally and the loop of the drain goes on
    with the next node. When the executor reported no error, the
    tablet record is re-read from the store exactly once: a successful
    read replaces the cached record, a failed one leaves it and is
    logged as a warning, the last thing the dispatch does. When the
    executor reported an error (a nonzero exit as much as a failed
    spawn), the failure is logged, the record is not re-read and the
    agent is as it was. *)
Theorem dispatchAction_refresh (s : State W) (actionPath data : string)
    (st : Stat) (node : ActionNode) (stdOut : string)
    (vtActionErr : option error) (w' : W) :
  mutex (agent s) = false ->
  zk_Get X (world s) actionPath = inl (data, st) ->
  ActionNodeFromJson X data actionPath = inl node ->
  CombinedOutput X (world s) (action_cmd X (agent s) actionPath node)
    = (stdOut, vtActionErr, w') ->
  let s' := final (dispatchAction X actionPath s) in
  returned (dispatchAction X actionPath s) = Some tt /\
  (forall zk child rest,
      actionPath = child_path zk child ->
      dispatchChildren X zk (child :: rest) s = dispatchChildren X zk rest s') /\
  match vtActionErr with
  | None =>
      refreshes (trace s') = S (refreshes (trace s)) /\
      match ReadTablet X w' (zkTabletPath (agent s)) with
      | inl tablet => _tablet (agent s') = Some tablet
      | inr e =>
          _tablet (agent s') = _tablet (agent s) /\
          last (trace s') =
            Some (EvLog Warning "failed rereading tablet after action: %v %v"
                    [LStr actionPath; LErr e])
      end
  | Some e =>
      refreshes (trace s') = refreshes (trace s) /\
      agent s' = agent s /\
      last (trace s') =
        Some (EvLog Error "action failed: %v %v\n%s"
                [LStr actionPath; LErr e; LStr stdOut])
  end.
Proof.
  intros Hm HG HD HC s'.
  assert (Hret : dispatchAction X actionPath s = Ret tt s').
  { destruct (dispatchAction_effect X s actionPath Hm) as (s1 & tr & Hrun & _).
    subst s'. by rewrite Hrun. }
  split; [by rewrite Hret|].
  split.
  { intros zk child rest ->. cbn [dispatchChildren]. unfold bind at 1.
    fold (child_path zk child). by rewrite Hret. }
  subst s'. destruct vtActionErr as [e|].
  - rewrite (dispatchAction_action_failed X s _ _ _ _ _ _ _ HG HD HC).
    cbn [final extend trace agent].
    split; [count_events|]. split; [done|].
    by rewrite app_assoc, last_snoc.
  - rewrite (dispatchAction_action_ok X s _ _ _ _ _ _ HG HD HC).
    set (s1 := extend s w' _).
    assert (Hm1 : mutex (agent s1) = false) by done.
    change (ReadTablet X w' (zkTabletPath (agent s)))
      with (ReadTablet X (world s1) (zkTabletPath (agent s1))).
    unfold bind.
    destruct (ReadTablet X (world s1) (zkTabletPath (agent s1))) as [t|e] eqn:HR.
    + rewrite (readTablet_ok X s1 t Hm1 HR). cbn.
      split; [count_events|done].
    + rewrite (readTablet_failed X s1 e HR). cbn.
      split; [count_events|]. split; [done|].
      by rewrite last_snoc.
Qed.

End Refresh.

(** ** The event loop *)

Section Loop.
Context {W : Type} (X : Externals W).

(** A drain always returns, and the first thing it does is to list the
    children of the action queue. *)
Lemma handleActionQueue_returns (s : State W) :
  mutex (agent s) = false ->
  exists r s' tr,
    handleActionQueue X s = Ret r s' /\
    trace s' = trace s ++ EvStore (ZkChildrenW (zkActionPath (agent s))) :: tr /\
    same_paths (agent s) (agent s').
Proof.
  intros Hm.
  destruct (zk_ChildrenW X (world s) (zkActionPath (agent s)))
    as [[children watch] [e|]] eqn:H.
  - rewrite (handleActionQueue_failed X s children watch e H).
    eexists _, _, []. split; [reflexivity|]. by repeat split.
  - rewrite (handleActionQueue_listed X s children watch H).
    set (s0 := extend s (world s) _).
    destruct (dispatchChildren_effect X (zkActionPath (agent s))
                (sort_Strings children) s0 Hm)
      as (s' & Hrun & _ & (tr & Htr & _) & Hp).
    unfold bind. rewrite Hrun. eexists _, s', tr. split; [reflexivity|].
    split; [|done]. rewrite Htr. subst s0. cbn. by rewrite <- app_assoc.
Qed.

(** So does a turn of the loop. *)
Lemma actionEventLoopBody_returns (s : State W) :
  mutex (agent s) = false ->
  exists s' tr,
    actionEventLoopBody X s = Ret tt s' /\
    trace s' = trace s ++ EvStore (ZkChildrenW (zkActionPath (agent s))) :: tr /\
    same_paths (agent s) (agent s').
Proof.
  intros Hm.
  destruct (handleActionQueue_returns s Hm) as ([watch err] & s1 & tr & Hrun & Htr & Hp).
  unfold actionEventLoopBody, bind at 1. rewrite Hrun.
  destruct err as [e|].
  { eexists _, _. split; [reflexivity|]. cbn. rewrite Htr, <- !app_assoc.
    split; [reflexivity|done]. }
  unfold bind at 1, command, bind at 1, emit, bind at 1, getWorld. cbn.
  destruct (chan_recv X (world s1) watch) as [event w2]. cbn.
  destruct (Event_Ok X event); cbn.
  2:{ eexists _, _. split; [reflexivity|]. cbn. rewrite Htr, <- !app_assoc.
      split; [reflexivity|done]. }
  destruct (EventType event =? EVENT_CHILD).
  2:{ eexists _, _. split; [reflexivity|]. cbn. rewrite Htr, <- !app_assoc.
      split; [reflexivity|done]. }
  set (s2 := mkState _ _ _ _).
  destruct (handleActionQueue_returns s2) as (r & s3 & tr3 & Hrun3 & Htr3 & Hp3);
    [apply Hp|].
  unfold bind. rewrite Hrun3. eexists _, _. split; [reflexivity|].
  split.
  - rewrite Htr3. subst s2. cbn. rewrite Htr, <- !app_assoc. reflexivity.
  - destruct Hp as (?&?&?&?&?), Hp3 as (?&?&?&?&?). subst s2. cbn in *.
    repeat split; congruence.
Qed.

(** And every further turn begins with that listing. *)
Lemma actionEventLoop_begins (n : nat) (s : State W) :
  mutex (agent s) = false ->
  exists s' tr,
    actionEventLoop X (S n) s = Ret tt s' /\
    trace s' = trace s ++ EvStore (ZkChildrenW (zkActionPath (agent s))) :: tr /\
    same_paths (agent s) (agent s').
Proof.
  revert s. induction n as [|n IH]; intros s Hm.
  - destruct (actionEventLoopBody_returns s Hm) as (s' & tr & Hrun & Htr & Hp).
    cbn [actionEventLoop]. unfold bind. rewrite Hrun. by exists s', tr.
  - destruct (actionEventLoopBody_returns s Hm) as (s1 & tr & Hrun & Htr & Hp).
    destruct (IH s1) as (s2 & tr2 & Hrun2 & Htr2 & Hp2); [apply Hp|].
    change (actionEventLoop X (S (S n)) s)
      with ((actionEventLoopBody X;; actionEventLoop X (S n)) s).
    unfold bind at 1. rewrite Hrun, Hrun2. eexists _, _. split; [reflexivity|].
    split.
    + rewrite Htr2, Htr, <- app_assoc. reflexivity.
    + destruct Hp as (?&?&?&?&?), Hp2 as (?&?&?&?&?). repeat split; congruence.
Qed.

(** C10. In a turn of the loop whose drain succeeded and whose watch
    then fired with a child event of a healthy connection, the agent
    drains once more inside the branch of the event. The turn ends in
    the very state that second drain ended in: its watch and its error
    are dropped, nothing is logged and nothing is slept; if its listing
    fails, the failed listing is the last thing the turn did. The next
    turn then starts with a drain of its own, listing the children
    again before it waits on anything. *)
Theorem child_event_drains_twice (s s1 : State W) (watch : Watch)
    (event : Event) (w2 : W) :
  mutex (agent s) = false ->
  handleActionQueue X s = Ret (watch, None) s1 ->
  chan_recv X (world s1) watch = (event, w2) ->
  Event_Ok X event = true ->
  EventType event = EVENT_CHILD ->
  exists r s3,
    handleActionQueue X (woken s1 watch w2) = Ret r s3 /\
    actionEventLoopBody X s = Ret tt s3 /\
    (forall children w e,
        zk_ChildrenW X w2 (zkActionPath (agent s1)) = (children, w, Some e) ->
        r = (w, Some e) /\
        s3 = extend (woken s1 watch w2) w2
               [EvStore (ZkChildrenW (zkActionPath (agent s1)))]) /\
    forall n,
      actionEventLoop X (S (S n)) s = actionEventLoop X (S n) s3 /\
      exists tr,
        trace (final (actionEventLoop X (S (S n)) s)) =
          trace s3 ++ EvStore (ZkChildrenW (zkActionPath (agent s3))) :: tr.
Proof.
  intros Hm Hrun Hrecv Hok Hty.
  destruct (handleActionQueue_returns s Hm) as (r0 & s1' & tr & Hrun' & _ & Hp).
  rewrite Hrun in Hrun'. injection Hrun' as <- <-.
  assert (Hm2 : mutex (agent (woken s1 watch w2)) = false) by apply Hp.
  destruct (handleActionQueue_returns _ Hm2) as (r & s3 & tr3 & Hrun3 & _ & Hp3).
  assert (Hbody : actionEventLoopBody X s = Ret tt s3).
  { unfold actionEventLoopBody, bind at 1. rewrite Hrun.
    unfold bind at 1, command, bind at 1, emit, bind at 1, getWorld. cbn.
    rewrite Hrecv. cbn. rewrite Hok, Hty. cbn.
    unfold bind. fold (woken s1 watch w2). by rewrite Hrun3. }
  exists r, s3. split; [done|]. split; [done|]. split.
  { intros children w e Hlist.
    rewrite (handleActionQueue_failed X (woken s1 watch w2) children w e Hlist) in Hrun3.
    by injection Hrun3 as <- <-. }
  intros n.
  assert (Hnext : actionEventLoop X (S (S n)) s = actionEventLoop X (S n) s3).
  { change (actionEventLoop X (S (S n)) s)
      with ((actionEventLoopBody X;; actionEventLoop X (S n)) s).
    unfold bind at 1. by rewrite Hbody. }
  split; [done|]. rewrite Hnext.
  destruct (actionEventLoop_begins n s3) as (s4 & tr4 & Hrun4 & Htr4 & _);
    [apply Hp3|].
  rewrite Hrun4. by exists tr4.
Qed.

End Loop.

(** ** Bootstrapping the namespace *)

Section Bootstrap.
Context {W : Type} (X : Externals W).

Lemma Create_run (s : State W) (path value : string) (err : option error) (w' : W) :
  zk_Create X (world s) path value = (err, w') ->
  Create X path value s = Ret err (created s path value w').
Proof.
  intros H. unfold Create, command, bind, emit, getWorld, setWorld, ret. cbn.
  by rewrite H.
Qed.

(** [verifyZkPaths] in terms of the results of its two creations. *)
Lemma verifyZkPaths_run (s : State W) (tablet : TabletInfo)
    (e1 e2 : option error) (w1 w2 : W) :
  mutex (agent s) = false ->
  _tablet (agent s) = Some tablet ->
  zk_Create X (world s) (ReplicationPath tablet) "" = (e1, w1) ->
  zk_Create X w1 (zkActionPath (agent s)) "" = (e2, w2) ->
  let s1 := created s (ReplicationPath tablet) "" w1 in
  let s2 := created s1 (zkActionPath (agent s)) "" w2 in
  verifyZkPaths X s =
    match e1 with
    | Some (ZkError c1) =>
        if c1 =? ZNODEEXISTS then
          match e2 with
          | Some (ZkError c2) =>
              if c2 =? ZNODEEXISTS then Ret None s2 else Ret e2 s2
          | Some _ =>
              Panicked (OtherError "interface conversion: error is not *zookeeper.Error") s2
          | None => Ret None s2
          end
        else Ret e1 s1
    | Some _ =>
        Panicked (OtherError "interface conversion: error is not *zookeeper.Error") s1
    | None =>
        match e2 with
        | Some (ZkError c2) =>
            if c2 =? ZNODEEXISTS then Ret None s2 else Ret e2 s2
        | Some _ =>
            Panicked (OtherError "interface conversion: error is not *zookeeper.Error") s2
        | None => Ret None s2
        end
    end.
Proof.
  intros Hm Ht H1 H2 s1 s2.
  unfold verifyZkPaths, bind at 1. rewrite Tablet_unlocked, Ht by done.
  unfold bind at 1. rewrite (Create_run s _ _ e1 w1 H1). fold s1.
  assert (H2' : zk_Create X (world s1) (zkActionPath (agent s)) "" = (e2, w2)) by done.
  pose proof (Create_run s1 _ _ e2 w2 H2') as Hc2. fold s2 in Hc2.
  assert (Hsecond :
    (a <- getAgent;;
     err <- Create X (zkActionPath a) "";;
     fail2 <- match err with
              | None => ret false
              | Some e => code <- zkErrorCode e;; ret (negb (code =? ZNODEEXISTS))
              end;;
     if fail2 : bool then ret err else ret None) s1 =
    match e2 with
    | Some (ZkError c2) => if c2 =? ZNODEEXISTS then Ret None s2 else Ret e2 s2
    | Some _ =>
        Panicked (OtherError "interface conversion: error is not *zookeeper.Error") s2
    | None => Ret None s2
    end).
  { unfold bind at 1, getAgent. unfold bind at 1.
    change (zkActionPath (agent s1)) with (zkActionPath (agent s)). rewrite Hc2.
    destruct e2 as [[c2| | |]|]; try reflexivity.
    cbn. by destruct (c2 =? ZNODEEXISTS). }
  destruct e1 as [[c1| | |]|]; try reflexivity.
  - unfold bind at 1. cbn [zkErrorCode]. unfold bind at 1, ret at 1, ret at 1.
    destruct (c1 =? ZNODEEXISTS); [|reflexivity]. cbn [negb]. apply Hsecond.
  - unfold bind at 1, ret at 1. apply Hsecond.
Qed.

Lemma swallowed_dec (err : option error) : {swallowed err} + {~ swallowed err}.
Proof.
  unfold swallowed. destruct err as [[c| | |]|];
    try (right; intros [?|?]; congruence); [|by left; left].
  destruct (decide (c = ZNODEEXISTS)) as [->|Hne]; [left; by right|].
  right. intros [?|?]; congruence.
Qed.

(** C7. [verifyZkPaths] creates the replication node, then the action
    node. A creation that reports that the node exists counts as done:
    when both creations come back with no error or with that one, the
    call returns no error and the step of [Start] that runs it does not
    panic. Any other zookeeper error is returned as it is, the one of
    the first creation without attempting the second; an error that is
    no zookeeper error panics in the type assertion. Either way every
    other creation error stops [Start]. On a store that keeps its
    nodes, a second run after a successful one returns no error. *)
Theorem verifyZkPaths_swallows_exists (s : State W) (tablet : TabletInfo)
    (e1 e2 : option error) (w1 w2 : W) :
  mutex (agent s) = false ->
  _tablet (agent s) = Some tablet ->
  zk_Create X (world s) (ReplicationPath tablet) "" = (e1, w1) ->
  zk_Create X w1 (zkActionPath (agent s)) "" = (e2, w2) ->
  let run := verifyZkPaths X s in
  let step := (err <- verifyZkPaths X;; panicOn err) s in
  (swallowed e1 -> swallowed e2 ->
   returned run = Some None /\ world (final run) = w2) /\
  (forall code, e1 = Some (ZkError code) -> code <> ZNODEEXISTS ->
   returned run = Some e1 /\ world (final run) = w1 /\
   writes (trace (final run)) = S (writes (trace s))) /\
  (swallowed e1 -> forall code, e2 = Some (ZkError code) -> code <> ZNODEEXISTS ->
   returned run = Some e2) /\
  (panicked step = false <-> swallowed e1 /\ swallowed e2) /\
  (store_keeps_nodes X -> returned run = Some None ->
   returned (verifyZkPaths X (final run)) = Some None).
Proof.
  intros Hm Ht H1 H2 run step.
  pose proof (verifyZkPaths_run s tablet e1 e2 w1 w2 Hm Ht H1 H2) as Hrun.
  cbn zeta in Hrun. fold run in Hrun.
  assert (Hok : swallowed e1 -> swallowed e2 ->
                run = Ret None (created (created s (ReplicationPath tablet) "" w1)
                                  (zkActionPath (agent s)) "" w2)).
  { intros [->| ->] [->| ->]; by rewrite Hrun. }
  assert (Hiff : returned run = Some None <-> swallowed e1 /\ swallowed e2).
  { split; [|intros [S1 S2]; by rewrite (Hok S1 S2)].
    rewrite Hrun. unfold swallowed.
    destruct e1 as [[c1| | |]|]; try done.
    - destruct (Z.eqb_spec c1 ZNODEEXISTS) as [->|?]; [|by intros [= ?]].
      destruct e2 as [[c2| | |]|]; try done; [|by auto].
      destruct (Z.eqb_spec c2 ZNODEEXISTS) as [->|?]; [by auto|by intros [= ?]].
    - destruct e2 as [[c2| | |]|]; try done; [|by auto].
      destruct (Z.eqb_spec c2 ZNODEEXISTS) as [->|?]; [by auto|by intros [= ?]]. }
  split; [intros S1 S2; by rewrite (Hok S1 S2)|].
  split.
  { intros code -> Hne. rewrite Hrun.
    destruct (Z.eqb_spec code ZNODEEXISTS); [done|]. cbn.
    split; [done|]. split; [done|]. count_events. }
  split.
  { intros S1 code -> Hne. rewrite Hrun.
    destruct (Z.eqb_spec code ZNODEEXISTS); [done|].
    destruct S1 as [->| ->]; by cbn. }
  split.
  { rewrite <- Hiff. subst step. unfold bind. fold run.
    destruct run as [[e|] s'|e s']; cbn; split; congruence. }
  intros Hstore Hnone. apply Hiff in Hnone as [S1 S2].
  rewrite (Hok S1 S2). cbn [final].
  set (s2 := created (created s _ _ w1) _ _ w2).
  destruct (Hstore _ _ _ _ _ H1) as [Hex1 _].
  destruct (Hstore _ _ _ _ _ H2) as [Hex2 Hkeep].
  specialize (Hex1 S1). specialize (Hex2 S2). apply Hkeep in Hex1.
  assert (Hm2 : mutex (agent s2) = false) by done.
  assert (Ht2 : _tablet (agent s2) = Some tablet) by done.
  rewrite (verifyZkPaths_run s2 tablet _ _ w2 w2 Hm2 Ht2 (Hex1 _) (Hex2 _)).
  reflexivity.
Qed.

End Bootstrap.

(** ** The serving-address publisher *)

Section Heap.
Context {W : Type}.

Lemma snapshot_repr (s : State W) (entries : list VtnsAddr) (data : list VtnsAddrData) :
  Forall2 (repr (maps s)) entries data ->
  snapshot entries s = Ret data s.
Proof.
  intros H. unfold snapshot. f_equal.
  induction H as [|e d entries data (Hu & Hh & Hp & Hm) _ IH]; [done|].
  cbn [map]. rewrite IH. f_equal.
  destruct e as [u ho po [r|]], d as [u' ho' po' [g|]]; cbn in *; subst; try done.
  by rewrite Hm.
Qed.

Lemma repr_app (h h' : list (gmap string Z)) (e : VtnsAddr) (d : VtnsAddrData) :
  repr h e d -> repr (h ++ h') e d.
Proof.
  intros (?&?&?&Hm). repeat split; try done.
  destruct (vNamedPortMap e), (dNamedPortMap d); try done.
  by apply lookup_app_l_Some.
Qed.

Lemma repr_alter_ne (h : list (gmap string Z)) (f : gmap string Z -> gmap string Z)
    (r : nat) (e : VtnsAddr) (d : VtnsAddrData) :
  vNamedPortMap e <> Some r -> repr h e d -> repr (alter f r h) e d.
Proof.
  intros Hne (?&?&?&Hm). repeat split; try done.
  destruct (vNamedPortMap e) as [r'|], (dNamedPortMap d); try done.
  rewrite list_lookup_alter_ne; [done|]. intros ->. by apply Hne.
Qed.

(** Decoding gives every entry that has a map a map object of its own,
    at the next free addresses. *)
Lemma loadEntries_spec (decoded : list VtnsAddrData) (s : State W) :
  exists entries,
    loadEntries decoded s =
      Ret entries (with_maps s (maps s ++ omap dNamedPortMap decoded)) /\
    Forall2 (repr (maps s ++ omap dNamedPortMap decoded)) entries decoded /\
    omap vNamedPortMap entries =
      seq (length (maps s)) (length (omap dNamedPortMap decoded)).
Proof.
  revert s. induction decoded as [|d rest IH]; intros s.
  - exists []. cbn. rewrite app_nil_r. by destruct s.
  - cbn [loadEntries]. destruct (dNamedPortMap d) as [g|] eqn:Hg.
    + unfold bind at 1. unfold bind at 1. cbn [ret].
      set (s1 := mkState _ _ _ _).
      destruct (IH s1) as (entries & Hrun & Hrepr & Hrefs).
      subst s1. unfold with_maps in *. cbn [maps agent world trace] in *.
      rewrite <- app_assoc in Hrun, Hrepr. cbn [app] in Hrun, Hrepr.
      unfold bind at 1. rewrite Hrun. cbn [omap list_omap]. rewrite Hg.
      eexists. split; [reflexivity|]. split.
      * constructor; [|done]. repeat split; cbn. rewrite Hg.
        by rewrite lookup_app_r, Nat.sub_diag.
      * cbn. f_equal. rewrite Hrefs, length_app. cbn.
        f_equal. lia.
    + unfold bind at 1. unfold bind at 1. cbn [ret].
      destruct (IH s) as (entries & Hrun & Hrepr & Hrefs).
      rewrite Hrun. cbn [omap list_omap]. rewrite Hg.
      eexists. split; [reflexivity|]. split.
      * constructor; [|done]. repeat split; cbn. by rewrite Hg.
      * cbn. done.
Qed.

End Heap.

Section Publisher.
Context {W : Type} (X : Externals W).

Lemma splitHostPort_ok (s : State W) (addr host ps : string) (port : Z) :
  net_SplitHostPort addr = inl (host, ps) ->
  strconv_ParseInt16 ps = inl port ->
  splitHostPort addr s = Ret (host, port) s.
Proof. intros H1 H2. unfold splitHostPort. by rewrite H1, H2. Qed.

Lemma splitHostPort_splits (s : State W) (addr host : string) (port : Z) :
  splits addr host port -> splitHostPort addr s = Ret (host, port) s.
Proof. intros (ps & H1 & H2). by eapply splitHostPort_ok. Qed.

Lemma splitHostPort_unsplittable (s : State W) (addr : string) :
  unsplittable addr -> exists e, splitHostPort addr s = Panicked e s.
Proof.
  unfold splitHostPort.
  intros [(e & ->) | (host & ps & e & -> & ->)]; by exists e.
Qed.

Lemma splits_or_unsplittable (addr : string) :
  (exists host port, splits addr host port) \/ unsplittable addr.
Proof.
  unfold splits, unsplittable.
  destruct (net_SplitHostPort addr) as [[host ps]|e] eqn:H1; [|right; left; by exists e].
  destruct (strconv_ParseInt16 ps) as [port|e] eqn:H2.
  - left. by exists host, port, ps.
  - right. right. by exists host, ps, e.
Qed.

Lemma mapAssign_last (s : State W) (h : list (gmap string Z)) (g : gmap string Z)
    (k : string) (v : Z) :
  maps s = h ++ [g] ->
  mapAssign (Some (length h)) k v s = Ret tt (with_maps s (h ++ [<[k := v]> g])).
Proof.
  intros Hs. unfold mapAssign, with_maps. rewrite Hs. do 2 f_equal.
  replace (length h) with (length h + 0)%nat by lia.
  by rewrite (alter_app_r (fun g0 => <[k:=v]> g0) h [g] 0).
Qed.

(** With two addresses that split, [vtnsAddrForTablet] returns an entry
    with a map of its own, at the next free address, holding the two
    ports. *)
Lemma vtnsAddrForTablet_ok (s : State W) (tablet : Tablet)
    (host mhost : string) (port mport : Z) :
  splits (Addr tablet) host port ->
  splits (MysqlAddr tablet) mhost mport ->
  vtnsAddrForTablet tablet s =
    Ret (mkVtnsAddr (Uid tablet) host 0 (Some (length (maps s))))
        (with_maps s (maps s ++ [port_map port mport])).
Proof.
  intros H1 H2. unfold vtnsAddrForTablet.
  unfold bind at 1. rewrite (splitHostPort_splits s _ _ _ H1).
  unfold bind at 1, NewAddr, bind at 1, newMap. cbn [ret vNamedPortMap].
  set (s1 := mkState _ _ _ _).
  unfold bind at 1.
  rewrite (mapAssign_last s1 (maps s) ∅ "_vtocc" port eq_refl).
  unfold bind at 1. rewrite (splitHostPort_splits _ _ _ _ H2).
  unfold bind at 1.
  rewrite (mapAssign_last (with_maps s1 (maps s ++ [<["_vtocc":=port]> ∅]))
             (maps s) (<["_vtocc":=port]> ∅) "_mysql" mport eq_refl).
  reflexivity.
Qed.

(** A scan over entries of other tablets finds nothing and changes
    nothing. *)
Lemma scanEntries_not_found (s : State W) (t : TabletInfo) (entries : list VtnsAddr) :
  mutex (agent s) = false ->
  _tablet (agent s) = Some t ->
  Forall (fun e => vUid e <> Uid (TabletOf t)) entries ->
  scanEntries entries s = Ret false s.
Proof.
  intros Hm Ht H. induction H as [|e entries Hne _ IH]; [done|].
  cbn [scanEntries]. unfold bind at 1. rewrite (TabletDeref_unlocked s t Hm Ht).
  by apply N.eqb_neq in Hne as ->.
Qed.

Lemma repr_uids (h : list (gmap string Z)) (entries : list VtnsAddr)
    (data : list VtnsAddrData) (uid : N) :
  Forall2 (repr h) entries data ->
  Forall (fun d => dUid d <> uid) data ->
  Forall (fun e => vUid e <> uid) entries.
Proof.
  induction 1 as [|e d entries data (Hu & _) _ IH]; [done|].
  intros [Hd Hrest]%Forall_cons. constructor; [congruence|auto].
Qed.


Lemma repr_alter_others (h : list (gmap string Z))
    (f : gmap string Z -> gmap string Z) (r : nat)
    (entries : list VtnsAddr) (data : list VtnsAddrData) :
  Forall2 (repr h) entries data ->
  r ∉ omap vNamedPortMap entries ->
  Forall2 (repr (alter f r h)) entries data.
Proof.
  induction 1 as [|e d entries data Hr _ IH]; [constructor|].
  intros Hnot. constructor.
  - apply repr_alter_ne; [|done]. intros He. apply Hnot. cbn. rewrite He. left.
  - apply IH. intros Hin. apply Hnot. cbn.
    destruct (vNamedPortMap e); [by right|done].
Qed.

(** The scan passes over entries of other tablets. *)
Lemma scanEntries_skip (s : State W) (t : TabletInfo) (pre rest : list VtnsAddr) :
  mutex (agent s) = false ->
  _tablet (agent s) = Some t ->
  Forall (fun e => vUid e <> Uid (TabletOf t)) pre ->
  scanEntries (pre ++ rest) s = scanEntries rest s.
Proof.
  intros Hm Ht H. induction H as [|e pre Hne _ IH]; [done|].
  cbn [app scanEntries]. unfold bind at 1.
  rewrite (TabletDeref_unlocked s t Hm Ht).
  by apply N.eqb_neq in Hne as ->.
Qed.

(** The scan at a stale entry of this tablet, with a map and with
    addresses that split: both ports are written through the entry's
    map; nothing else changes. The host assigned to the loop variable
    is lost with it. *)
Lemma scanEntries_stale (s : State W) (t : TabletInfo) (e : VtnsAddr)
    (d : VtnsAddrData) (rest : list VtnsAddr) (r : nat) (g : gmap string Z)
    (host mhost : string) (port mport : Z) :
  mutex (agent s) = false ->
  _tablet (agent s) = Some t ->
  repr (maps s) e d ->
  dUid d = Uid (TabletOf t) ->
  vNamedPortMap e = Some r ->
  dNamedPortMap d = Some g ->
  stale d (TabletOf t) = true ->
  splits (Addr (TabletOf t)) host port ->
  splits (MysqlAddr (TabletOf t)) mhost mport ->
  scanEntries (e :: rest) s =
    Ret true
      (with_maps s
         (alter (fun g0 => <["_mysql" := mport]> g0) r
            (alter (fun g0 => <["_vtocc" := port]> g0) r (maps s)))).
Proof.
  intros Hm Ht (Hu & Hh & _ & Hmap) Hd Hr Hg Hstale H1 H2.
  rewrite Hr, Hg in Hmap.
  cbn [scanEntries]. unfold bind at 1. rewrite (TabletDeref_unlocked s t Hm Ht).
  rewrite Hu, Hd, N.eqb_refl.
  unfold bind at 1, mapIndex at 1. unfold bind at 1, mapIndex at 1.
  unfold bind at 1. rewrite (TabletDeref_unlocked s t Hm Ht).
  rewrite Hr, Hmap. cbn [mbind option_bind default].
  assert (Hv : vHost e +:+ ":" +:+ itoa (default 0 (g !! "_vtocc"))
               = named_addr d "_vtocc").
  { unfold named_addr. by rewrite Hh, Hg. }
  assert (Hq : vHost e +:+ ":" +:+ itoa (default 0 (g !! "_mysql"))
               = named_addr d "_mysql").
  { unfold named_addr. by rewrite Hh, Hg. }
  rewrite Hv, Hq.
  assert (Hs : (if negb (named_addr d "_vtocc" =? Addr (TabletOf t))%string
                then ret true
                else t0 <- TabletDeref;;
                     ret (negb (named_addr d "_mysql" =? MysqlAddr (TabletOf t0))%string)) s
               = Ret true s).
  { unfold stale in Hstale.
    destruct (negb (named_addr d "_vtocc" =? Addr (TabletOf t))%string); [done|].
    unfold bind. rewrite (TabletDeref_unlocked s t Hm Ht). cbn in Hstale.
    by rewrite Hstale. }
  unfold bind at 1. rewrite Hs.
  unfold bind at 1. rewrite (TabletDeref_unlocked s t Hm Ht).
  unfold bind at 1. rewrite (splitHostPort_splits s _ _ _ H1).
  cbn [vNamedPortMap]. unfold bind at 1, mapAssign at 1.
  set (s1 := mkState _ _ _ _).
  assert (Hm1 : mutex (agent s1) = false) by done.
  assert (Ht1 : _tablet (agent s1) = Some t) by done.
  unfold bind at 1. rewrite (TabletDeref_unlocked s1 t Hm1 Ht1).
  unfold bind at 1. rewrite (splitHostPort_splits s1 _ _ _ H2).
  reflexivity.
Qed.

(** What [updateEndpoints] does when the decoded directory holds a
    stale entry of this tablet (the first with its id), with a map, and
    the tablet's addresses split: the encoder is handed the decoded
    entries in their order, every other entry as decoded, and this
    entry with its two named ports set to the tablet's and its host as
    decoded. *)
Lemma updateEndpoints_stale_entry (s : State W) (t : TabletInfo)
    (oldValue : string) (st : Stat) (pre post : list VtnsAddrData)
    (d : VtnsAddrData) (g : gmap string Z)
    (host mhost : string) (port mport : Z) :
  mutex (agent s) = false ->
  _tablet (agent s) = Some t ->
  oldValue <> ""%string ->
  json_Unmarshal_addrs X oldValue = inl (pre ++ d :: post) ->
  Forall (fun d' => dUid d' <> Uid (TabletOf t)) pre ->
  dUid d = Uid (TabletOf t) ->
  dNamedPortMap d = Some g ->
  stale d (TabletOf t) = true ->
  splits (Addr (TabletOf t)) host port ->
  splits (MysqlAddr (TabletOf t)) mhost mport ->
  returned (updateEndpoints X oldValue (Some st) s) =
    Some (toJson_addrs X (pre ++ set_ports port mport d :: post), None).
Proof.
  intros Hm Ht Hnonempty Hdec Hpre Hd Hg Hstale H1 H2.
  unfold updateEndpoints.
  apply String.eqb_neq in Hnonempty as ->. cbn [negb]. rewrite Hdec.
  destruct (loadEntries_spec (pre ++ d :: post) s) as (entries & Hload & Hrepr & Hrefs).
  unfold bind at 1. rewrite Hload.
  set (s1 := with_maps s _) in *.
  change (maps s ++ omap dNamedPortMap (pre ++ d :: post)) with (maps s1) in Hrepr.
  apply Forall2_app_inv_r in Hrepr as (epre & erest & Hrpre & Hrrest & ->).
  apply Forall2_cons_inv_r in Hrrest as (e & epost & Hre & Hrpost & ->).
  assert (Hm1 : mutex (agent s1) = false) by done.
  assert (Ht1 : _tablet (agent s1) = Some t) by done.
  destruct (vNamedPortMap e) as [r|] eqn:Hr.
  2:{ destruct Hre as (_ & _ & _ & Hmap). by rewrite Hr, Hg in Hmap. }
  unfold bind at 1.
  rewrite (scanEntries_skip s1 t epre (e :: epost) Hm1 Ht1)
    by (eapply repr_uids; eauto).
  rewrite (scanEntries_stale s1 t e d epost r g host mhost port mport) by done.
  cbn [negb ret]. unfold bind at 1, ret at 1.
  unfold bind at 1, toJson, bind at 1.
  rewrite (snapshot_repr _ _ (pre ++ set_ports port mport d :: post)); [done|].
  assert (Hnd : NoDup (omap vNamedPortMap (epre ++ e :: epost))).
  { rewrite Hrefs. apply NoDup_seq. }
  rewrite omap_app in Hnd. cbn [omap list_omap] in Hnd. rewrite Hr in Hnd.
  apply NoDup_app in Hnd as (_ & Hdisj & Hnd2).
  apply NoDup_cons in Hnd2 as [Hnotpost _].
  assert (Hnotpre : r ∉ omap vNamedPortMap epre).
  { intros Hin. apply (Hdisj r Hin). left. }
  cbn [maps with_maps].
  apply Forall2_app.
  - apply repr_alter_others; [by apply repr_alter_others|done].
  - constructor; [|apply repr_alter_others; [by apply repr_alter_others|done]].
    destruct Hre as (Hu & Hh & Hp & Hmap). rewrite Hr, Hg in Hmap.
    repeat split; try done. cbn. rewrite Hr, Hg. cbn.
    change (maps s ++ omap dNamedPortMap (pre ++ d :: post)) with (maps s1).
    by rewrite !list_lookup_alter_eq, Hmap.
Qed.

End Publisher.

(** ** Publishing: skipping, and aborting on bad addresses *)

Section Publish.
Context {W : Type} (X : Externals W).

(** For a tablet of a serving type that its shard lists,
    [verifyZkServingAddrs] gets to the conditional write. *)
Lemma verifyZkServingAddrs_reaches (s : State W) (t : TabletInfo)
    (shardInfo : Tablet -> bool) (attempts : nat) :
  mutex (agent s) = false ->
  _tablet (agent s) = Some t ->
  IsServingType t = true ->
  ReadShard X (world s) (ShardPath t) = inl shardInfo ->
  shardInfo (TabletOf t) = true ->
  verifyZkServingAddrs X attempts s =
    (err <- RetryChange X attempts (serving_path X t) (updateEndpoints X);;
     after_change err)
      (extend s (world s) [EvStore (ZkReadShard (ShardPath t))]).
Proof.
  intros Hm Ht Hserving Hshard Hin. unfold verifyZkServingAddrs.
  unfold bind at 1. rewrite (TabletDeref_unlocked s t Hm Ht), Hserving. cbn [negb].
  unfold bind at 1. rewrite (TabletDeref_unlocked s t Hm Ht).
  unfold bind at 1, query, bind at 1, emit, bind at 1, getWorld, ret.
  cbn [world]. rewrite Hshard.
  set (s1 := mkState _ _ _ _).
  assert (Hm1 : mutex (agent s1) = false) by done.
  assert (Ht1 : _tablet (agent s1) = Some t) by done.
  unfold bind at 1. rewrite (TabletDeref_unlocked s1 t Hm1 Ht1), Hin. cbn [negb].
  do 4 (unfold bind at 1; rewrite (TabletDeref_unlocked s1 t Hm1 Ht1)).
  reflexivity.
Qed.

(** The conditional write against a node that does not exist, with
    [updateEndpoints] as its callback: one read, and the callback's
    sentinel comes back. *)
Lemma RetryChange_skip (s : State W) (path : string) (n : nat) :
  zk_Get X (world s) path = inr (ZkError ZNONODE) ->
  RetryChange X (S n) path (updateEndpoints X) s =
    Ret (Some skipUpdateErr) (extend s (world s) [EvStore (ZkGet path)]).
Proof.
  intros H. cbn [RetryChange].
  unfold bind at 1, query, bind at 1, emit, bind at 1, getWorld, ret.
  cbn [world]. rewrite H. reflexivity.
Qed.

(** C4, as the code has it. When the directory entry does not exist,
    [updateEndpoints] is called with no stat and returns the sentinel
    [skipUpdateErr]; the conditional write stops there, so nothing is
    written; [verifyZkServingAddrs] recognises the sentinel, logs the
    warning that the update was skipped and returns no error. *)
Theorem verifyZkServingAddrs_skips (s : State W) (t : TabletInfo)
    (shardInfo : Tablet -> bool) (n : nat) :
  mutex (agent s) = false ->
  _tablet (agent s) = Some t ->
  IsServingType t = true ->
  ReadShard X (world s) (ShardPath t) = inl shardInfo ->
  shardInfo (TabletOf t) = true ->
  zk_Get X (world s) (serving_path X t) = inr (ZkError ZNONODE) ->
  let run := verifyZkServingAddrs X (S n) s in
  (forall oldValue s0, updateEndpoints X oldValue None s0
                       = Ret (""%string, Some skipUpdateErr) s0) /\
  returned run = Some None /\
  world (final run) = world s /\
  writes (trace (final run)) = writes (trace s) /\
  last (trace (final run)) =
    Some (EvLog Warning "skipped serving graph update" []).
Proof.
  intros Hm Ht Hserving Hshard Hin Hget run.
  split; [done|]. subst run.
  rewrite (verifyZkServingAddrs_reaches s t shardInfo (S n)) by done.
  set (s1 := extend s _ _).
  assert (Hget1 : zk_Get X (world s1) (serving_path X t) = inr (ZkError ZNONODE)) by done.
  assert (Hrun :
    (err <- RetryChange X (S n) (serving_path X t) (updateEndpoints X);;
     after_change err) s1 =
    Ret None (extend s (world s)
                [EvStore (ZkReadShard (ShardPath t));
                 EvStore (ZkGet (serving_path X t));
                 EvLog Warning "skipped serving graph update" []])).
  { unfold bind at 1. rewrite (RetryChange_skip s1 _ n Hget1).
    unfold after_change. rewrite bool_decide_eq_true_2 by done.
    subst s1. unfold extend. cbn. by rewrite <- !app_assoc. }
  rewrite Hrun. cbn [returned final extend world trace].
  split; [done|]. split; [done|]. split; [count_events|].
  change [EvStore (ZkReadShard (ShardPath t)); EvStore (ZkGet (serving_path X t));
          EvLog Warning "skipped serving graph update" []]
    with ([EvStore (ZkReadShard (ShardPath t)); EvStore (ZkGet (serving_path X t))]
          ++ [EvLog Warning "skipped serving graph update" []]).
  by rewrite app_assoc, last_snoc.
Qed.

End Publish.

Section Abort.
Context {W : Type} (X : Externals W).

Lemma panicked_bind {A B} (c : M W A) (k : A -> M W B) (s : State W) :
  (forall a s', c s = Ret a s' -> panicked (k a s') = true) ->
  panicked (bind c k s) = true.
Proof. intros H. unfold bind. destruct (c s); [by apply H|done]. Qed.

Lemma splitHostPort_panics (s : State W) (addr : string) :
  unsplittable addr -> panicked (splitHostPort addr s) = true.
Proof.
  intros H. by destruct (splitHostPort_unsplittable s addr H) as (e & ->).
Qed.

Lemma resolveAddr_panics (s : State W) (addr : string) :
  unsplittable addr -> panicked (resolveAddr X addr s) = true.
Proof.
  intros H. unfold resolveAddr, bind.
  by destruct (splitHostPort_unsplittable s addr H) as (e & ->).
Qed.

Lemma vtnsAddrForTablet_panics (s : State W) (tablet : Tablet) :
  unsplittable (Addr tablet) \/ unsplittable (MysqlAddr tablet) ->
  panicked (vtnsAddrForTablet tablet s) = true.
Proof.
  intros H. unfold vtnsAddrForTablet.
  destruct (splits_or_unsplittable (Addr tablet)) as [(host & port & H1)|H1].
  2:{ unfold bind at 1. by destruct (splitHostPort_unsplittable s _ H1) as (e & ->). }
  destruct H as [H|H].
  { unfold bind at 1. by destruct (splitHostPort_unsplittable s _ H) as (e & ->). }
  unfold bind at 1. rewrite (splitHostPort_splits s _ _ _ H1).
  apply panicked_bind. intros entry s1 _.
  apply panicked_bind. intros [] s2 _.
  unfold bind at 1. by destruct (splitHostPort_unsplittable s2 _ H) as (e & ->).
Qed.

(** With an address that does not split, the closure of [Start] never
    returns a new value: it returns an error or panics. *)
Lemma updateTabletAddr_never_ok (bindAddr mysqlAddr oldValue : string)
    (oldStat : option Stat) (s s' : State W) (r : string * option error) :
  unsplittable bindAddr \/ unsplittable mysqlAddr ->
  updateTabletAddr X bindAddr mysqlAddr oldValue oldStat s = Ret r s' ->
  snd r <> None.
Proof.
  intros H. unfold updateTabletAddr.
  destruct (String.eqb oldValue ""); [by intros [= <- _]|].
  destruct (tabletFromJson X oldValue) as [tablet|e]; [|done].
  intros Hrun. exfalso.
  assert (Hp : panicked
                 ((addr <- resolveAddr X bindAddr;;
                   maddr <- resolveAddr X mysqlAddr;;
                   ret (toJson_tablet X
                          (mkTablet (Cell tablet) (Uid tablet) addr maddr
                             (Keyspace tablet) (Shard tablet) (Type_ tablet)),
                        None (A:=error))) s) = true).
  { destruct H as [H|H].
    - unfold bind at 1. pose proof (resolveAddr_panics s bindAddr H) as Hp.
      by destruct (resolveAddr X bindAddr s).
    - apply panicked_bind. intros addr s1 _.
      unfold bind at 1. pose proof (resolveAddr_panics s1 mysqlAddr H) as Hp.
      by destruct (resolveAddr X mysqlAddr s1). }
  by rewrite Hrun in Hp.
Qed.

(** A conditional write whose callback never returns a new value never
    succeeds. *)
Lemma RetryChange_never_ok (f : string -> option Stat -> M W (string * option error))
    (attempts : nat) (path : string) (s s' : State W) (a : option error) :
  (forall ov os s0 r s1, f ov os s0 = Ret r s1 -> snd r <> None) ->
  RetryChange X attempts path f s = Ret a s' -> a <> None.
Proof.
  intros Hf. destruct attempts as [|n]; [by intros [= <- _]|].
  cbn [RetryChange].
  unfold bind at 1, query, bind at 1, emit, bind at 1, getWorld, ret.
  cbn [world]. set (s1 := mkState _ _ _ _).
  destruct (zk_Get X (world s) path) as [[oldValue oldStat]|[code| | |]];
    try by intros [= <- _].
  - unfold bind at 1. destruct (f oldValue (Some oldStat) s1) as [[nv [e|]] s2|e s2] eqn:Hrun;
      [by intros [= <- _]| |done].
    by apply Hf in Hrun.
  - destruct (code =? ZNONODE); [|by intros [= <- _]].
    unfold bind at 1. destruct (f ""%string None s1) as [[nv [e|]] s2|e s2] eqn:Hrun;
      [by intros [= <- _]| |done].
    by apply Hf in Hrun.
Qed.

(** [Start] with an address that does not split never gets through. *)
Lemma Start_panics (attempts : nat) (bindAddr mysqlAddr : string) (s : State W) :
  unsplittable bindAddr \/ unsplittable mysqlAddr ->
  panicked (Start X attempts bindAddr mysqlAddr s) = true.
Proof.
  intros H. unfold Start.
  apply panicked_bind. intros err1 s1 _.
  destruct err1; [done|]. apply panicked_bind. intros [] s1' [= <-].
  apply panicked_bind. intros err2 s2 _.
  destruct err2; [done|]. apply panicked_bind. intros [] s2' [= <-].
  cbn zeta. apply panicked_bind. intros t s3 _.
  apply panicked_bind. intros err3 s4 Hrun.
  apply RetryChange_never_ok in Hrun.
  - by destruct err3.
  - intros ov os s0 r s5. by apply updateTabletAddr_never_ok.
Qed.

(** The conditional write against a node that exists, with a callback
    that panics on its value, panics. *)
Lemma RetryChange_panics (f : string -> option Stat -> M W (string * option error))
    (n : nat) (path oldValue : string) (oldStat : Stat) (s : State W) :
  zk_Get X (world s) path = inl (oldValue, oldStat) ->
  panicked (f oldValue (Some oldStat)
              (extend s (world s) [EvStore (ZkGet path)])) = true ->
  panicked (RetryChange X (S n) path f s) = true.
Proof.
  intros Hget Hf. cbn [RetryChange].
  unfold bind at 1, query, bind at 1, emit, bind at 1, getWorld, ret.
  cbn [world]. rewrite Hget. apply panicked_bind.
  intros r s1 Hrun. unfold extend in Hf. by rewrite Hrun in Hf.
Qed.

(** [updateEndpoints] on the path that appends gets to
    [vtnsAddrForTablet], and panics with it. *)
Lemma updateEndpoints_panics (s : State W) (t : TabletInfo) (oldValue : string)
    (st : Stat) (decoded : list VtnsAddrData) :
  mutex (agent s) = false ->
  _tablet (agent s) = Some t ->
  (oldValue = ""%string /\ decoded = []) \/
  (oldValue <> ""%string /\ json_Unmarshal_addrs X oldValue = inl decoded) ->
  Forall (fun d => dUid d <> Uid (TabletOf t)) decoded ->
  unsplittable (Addr (TabletOf t)) \/ unsplittable (MysqlAddr (TabletOf t)) ->
  panicked (updateEndpoints X oldValue (Some st) s) = true.
Proof.
  intros Hm Ht Hold Hne Hbad. unfold updateEndpoints.
  destruct Hold as [[-> ->] | [Hnonempty Hdec]].
  - cbn [String.eqb negb]. unfold bind at 1.
    rewrite (TabletDeref_unlocked s t Hm Ht).
    apply panicked_bind. intros e s1 Hrun.
    pose proof (vtnsAddrForTablet_panics s (TabletOf t) Hbad) as Hp.
    by rewrite Hrun in Hp.
  - apply String.eqb_neq in Hnonempty as ->. cbn [negb]. rewrite Hdec.
    destruct (loadEntries_spec decoded s) as (entries & Hload & Hrepr & _).
    unfold bind at 1. rewrite Hload.
    set (s1 := with_maps s _).
    unfold bind at 1.
    rewrite (scanEntries_not_found s1 t entries Hm Ht)
      by (eapply repr_uids; eauto).
    cbn [negb]. apply panicked_bind. intros es s2 Hrun. exfalso.
    unfold bind at 1 in Hrun. rewrite (TabletDeref_unlocked s1 t Hm Ht) in Hrun.
    unfold bind at 1 in Hrun.
    pose proof (vtnsAddrForTablet_panics s1 (TabletOf t) Hbad) as Hp.
    by destruct (vtnsAddrForTablet (TabletOf t) s1).
Qed.

(** C9. [splitHostPort] has no error result: on an address that
    [net.SplitHostPort] rejects, or whose port [strconv.ParseInt]
    rejects as a decimal 16-bit integer, it panics, in whatever state
    it is called. The panic goes up through its callers:
    [vtnsAddrForTablet] and [resolveAddr] panic; [updateEndpoints]
    panics when it appends the tablet's entry, and with it
    [verifyZkServingAddrs] for a serving tablet that its shard lists
    and whose directory entry exists; [Start] panics whichever of its
    two addresses is the bad one. *)
Theorem splitHostPort_panics_up (addr : string) :
  unsplittable addr ->
  (forall s : State W, exists e, splitHostPort addr s = Panicked e s) /\
  (forall s : State W, panicked (resolveAddr X addr s) = true) /\
  (forall (s : State W) tablet,
      Addr tablet = addr \/ MysqlAddr tablet = addr ->
      panicked (vtnsAddrForTablet tablet s) = true) /\
  (forall (s : State W) t oldValue st decoded,
      mutex (agent s) = false ->
      _tablet (agent s) = Some t ->
      (oldValue = ""%string /\ decoded = []) \/
      (oldValue <> ""%string /\ json_Unmarshal_addrs X oldValue = inl decoded) ->
      Forall (fun d => dUid d <> Uid (TabletOf t)) decoded ->
      Addr (TabletOf t) = addr \/ MysqlAddr (TabletOf t) = addr ->
      panicked (updateEndpoints X oldValue (Some st) s) = true /\
      forall shardInfo n,
        IsServingType t = true ->
        ReadShard X (world s) (ShardPath t) = inl shardInfo ->
        shardInfo (TabletOf t) = true ->
        zk_Get X (world s) (serving_path X t) = inl (oldValue, st) ->
        panicked (verifyZkServingAddrs X (S n) s) = true) /\
  (forall (s : State W) attempts other,
      panicked (Start X attempts addr other s) = true /\
      panicked (Start X attempts other addr s) = true).
Proof.
  intros Hbad.
  split; [intros s; by apply splitHostPort_unsplittable|].
  split; [intros s; by apply resolveAddr_panics|].
  split.
  { intros s tablet [<-|<-]; apply vtnsAddrForTablet_panics; auto. }
  split.
  { intros s t oldValue st decoded Hm Ht Hold Hne Haddr.
    assert (Hbad' : unsplittable (Addr (TabletOf t))
                    \/ unsplittable (MysqlAddr (TabletOf t))).
    { destruct Haddr as [->| ->]; auto. }
    split; [by eapply updateEndpoints_panics|].
    intros shardInfo n Hserving Hshard Hin Hget.
    rewrite (verifyZkServingAddrs_reaches X s t shardInfo (S n)) by done.
    set (s1 := extend s _ _).
    apply panicked_bind. intros err s2 Hrun. exfalso.
    assert (Hp : panicked (RetryChange X (S n) (serving_path X t)
                             (updateEndpoints X) s1) = true).
    { apply (RetryChange_panics _ n _ oldValue st s1 Hget).
      by eapply updateEndpoints_panics. }
    by rewrite Hrun in Hp. }
  intros s attempts other. split; apply Start_panics; auto.
Qed.

End Abort.

(** ** Runs in the sample world *)

Section Runs.
Import Sample.

Lemma readTablet_replaces_wholesale_witness :
  returned (readTablet X s0) = Some None /\
  returned (Tablet_ (final (readTablet X s0))) = Some (Some tablet0).
Proof.
  pose proof (readTablet_replaces_wholesale X s0 eq_refl) as H.
  cbv beta iota in H. destruct H as (H1 & _ & H3 & _). split; [exact H1|exact H3].
Defined.

Lemma handleActionQueue_ascending_witness :
  dispatched (trace (final (handleActionQueue X s0))) =
    [action_path +:+ "/0000000001"; action_path +:+ "/0000000002";
     action_path +:+ "/0000000003"].
Proof.
  destruct (handleActionQueue_ascending X s0
              ["0000000003"; "0000000001"; "0000000002"]%string (Some 0%nat)
              eq_refl eq_refl) as (_ & H & _).
  rewrite H. reflexivity.
Defined.

Lemma dispatchAction_refresh_witness :
  refreshes (trace (final (dispatchAction X path3 s0))) = 1%nat /\
  (_tablet (agent (final (dispatchAction X path3 s0)))
   ≫= (fun t => Some (Addr (TabletOf t)))) = Some "vt7:6701"%string.
Proof.
  destruct (dispatchAction_refresh X s0 path3 "SetAddr" (mkStat 0)
              (mkActionNode "SetAddr" ("guid-of-" +:+ path3)) "ok" None
              (with_nodes w0 (assoc_set tablet_path ("vt7:6701|vt7:3307"%string, 1)
                                (nodes w0)))
              eq_refl eq_refl eq_refl eq_refl) as (_ & _ & H1 & H2).
  split; [exact H1|]. cbv beta iota in H2. by rewrite H2.
Defined.

(** The executor was started for the first node, exited with status 1,
    and the tablet record was not re-read. *)
Lemma failed_action_is_not_followed_by_refresh :
  CombinedOutput X w0
    (action_cmd X agent0 path1 (mkActionNode "Fail" ("guid-of-" +:+ path1)))
    = ("exit status 1"%string, Some (ExitError 1), w0) /\
  launched (trace (final (dispatchAction X path1 s0))) =
    [action_cmd X agent0 path1 (mkActionNode "Fail" ("guid-of-" +:+ path1))] /\
  returned (dispatchAction X path1 s0) = Some tt /\
  refreshes (trace (final (dispatchAction X path1 s0))) = 0%nat.
Proof. repeat split; vm_compute; reflexivity. Qed.

Lemma child_event_drains_twice_witness :
  actionEventLoopBody X s0 =
    Ret tt (final (handleActionQueue X (woken s1 (Some 0%nat) w2))).
Proof.
  assert (H0 : handleActionQueue X s0 = Ret (Some 0%nat, None) s1)
    by (vm_compute; reflexivity).
  assert (Hr : chan_recv X (world s1) (Some 0%nat) = (mkEvent EVENT_CHILD 3, w2))
    by (vm_compute; reflexivity).
  destruct (child_event_drains_twice X s0 s1 (Some 0%nat) (mkEvent EVENT_CHILD 3)
              w2 eq_refl H0 Hr eq_refl eq_refl)
    as (r & s3 & H1 & H2 & _).
  rewrite H2, H1. reflexivity.
Defined.

Lemma assoc_set_eq {A} (k : string) (a : A) (l : list (string * A)) :
  assoc k (assoc_set k a l) = Some a.
Proof.
  induction l as [|[k' a'] l IH]; cbn.
  - by rewrite String.eqb_refl.
  - destruct (String.eqb k k') eqn:E; cbn; by rewrite ?String.eqb_refl, ?E.
Qed.

Lemma assoc_set_ne {A} (k q : string) (a : A) (l : list (string * A)) :
  q <> k -> assoc q (assoc_set k a l) = assoc q l.
Proof.
  intros Hne. induction l as [|[k' a'] l IH]; cbn.
  - by apply String.eqb_neq in Hne as ->.
  - destruct (String.eqb_spec k k') as [->|Hk]; cbn.
    + by apply String.eqb_neq in Hne as ->.
    + by rewrite IH.
Qed.

(** The sample store keeps its nodes. *)
Lemma sample_store_keeps_nodes : store_keeps_nodes X.
Proof.
  intros w path value err w'. cbn. unfold Create.
  assert (Hex : forall w1 q, is_Some (assoc q (nodes w1)) -> node_exists X w1 q).
  { intros w1 q [a Ha] v. cbn. unfold Create. by rewrite Ha. }
  assert (Hinv : forall w1 q, node_exists X w1 q -> is_Some (assoc q (nodes w1))).
  { intros w1 q Hq. specialize (Hq ""%string). cbn in Hq. unfold Create in Hq.
    destruct (assoc q (nodes w1)); [by eexists|discriminate]. }
  destruct (assoc path (nodes w)) as [a|] eqn:Ha; intros [= <- <-].
  - split; [intros _; apply Hex; by rewrite Ha|done].
  - split.
    + intros _. apply Hex. cbn. by rewrite assoc_set_eq.
    + intros q Hq. apply Hex. cbn. apply Hinv in Hq.
      destruct (decide (q = path)) as [->|Hne];
        [by rewrite assoc_set_eq|by rewrite assoc_set_ne].
Qed.

Lemma verifyZkPaths_swallows_exists_witness :
  returned (verifyZkPaths X s0) = Some None /\
  returned (verifyZkPaths X (final (verifyZkPaths X s0))) = Some None.
Proof.
  destruct (verifyZkPaths_swallows_exists X s0 tablet0 None None
              (snd (Create w0 (ReplicationPath tablet0) ""))
              (snd (Create (snd (Create w0 (ReplicationPath tablet0) ""))
                      action_path ""))
              eq_refl eq_refl eq_refl eq_refl) as (H1 & _ & _ & _ & H5).
  destruct H1 as [H1 _]; [by left|by left|].
  split; [exact H1|]. exact (H5 sample_store_keeps_nodes H1).
Defined.


Lemma verifyZkServingAddrs_skips_witness :
  returned (verifyZkServingAddrs X 1 s0) = Some None /\
  writes (trace (final (verifyZkServingAddrs X 1 s0))) = 0%nat.
Proof.
  destruct (verifyZkServingAddrs_skips X s0 tablet0 (fun t => N.eqb (Uid t) 7) 0
              eq_refl eq_refl eq_refl eq_refl eq_refl eq_refl)
    as (_ & H1 & _ & H2 & _).
  split; [exact H1|exact H2].
Defined.

(** A publish that skips and a publish that writes return the same. *)
Lemma skipped_publish_returns_like_a_written_one :
  zk_Get X w0 (serving_path X tablet0) = inr (ZkError ZNONODE) /\
  returned (verifyZkServingAddrs X 1 s0) = Some None /\
  writes (trace (final (verifyZkServingAddrs X 1 s0))) = 0%nat /\
  writes (trace (final (verifyZkServingAddrs X 1 s_other))) = 1%nat /\
  returned (verifyZkServingAddrs X 1 s_other)
  = returned (verifyZkServingAddrs X 1 s0).
Proof. repeat split; vm_compute; reflexivity. Qed.

Lemma splitHostPort_panics_up_witness :
  (exists e, splitHostPort "vt7:40000" s0 = Panicked e s0) /\
  panicked (Start X 1 ":6700" "vt7:40000" s0) = true.
Proof.
  assert (Hbad : unsplittable "vt7:40000").
  { apply (port_out_of_range_unsplittable "vt7" 40000); [done|done|lia]. }
  destruct (splitHostPort_panics_up X "vt7:40000" Hbad) as (H1 & _ & _ & _ & H5).
  split; [apply H1|apply H5].
Defined.

(** C2 at a failing input. The directory lists this tablet, id 7, at
    host [old] with ports 6600 and 3300, after another tablet; the
    tablet's addresses are [vt7:6700] and [vt7:3306]. The value
    [updateEndpoints] returns sets the two ports of the entry and
    keeps the other entry and the order, and it keeps the host [old]:
    the host the claim has overwritten is not. *)
Theorem stale_entry_keeps_its_host :
  json_Unmarshal_addrs X (addrs_to_json [other_entry; stale_entry])
  = inl [other_entry; stale_entry] /\
  Addr (TabletOf tablet0) = "vt7:6700"%string /\
  MysqlAddr (TabletOf tablet0) = "vt7:3306"%string /\
  returned (updateEndpoints X (addrs_to_json [other_entry; stale_entry])
              (Some (mkStat 0)) s_stale)
  = Some (toJson_addrs X
            [other_entry; mkVtnsAddrData 7 "old" 0 (Some (port_map 6700 3306))],
          None) /\
  toJson_addrs X [other_entry; mkVtnsAddrData 7 "old" 0 (Some (port_map 6700 3306))]
  = "[{3,vt3,6700,3306}{7,old,6700,3306}]"%string.
Proof.
  split; [reflexivity|]. split; [reflexivity|]. split; [reflexivity|].
  split; [|reflexivity].
  assert (Hpre : Forall (fun d' => dUid d' <> Uid (TabletOf tablet0)) [other_entry])
    by (constructor; [discriminate|constructor]).
  assert (H1 : splits (Addr (TabletOf tablet0)) "vt7" 6700)
    by (by exists "6700"%string).
  assert (H2 : splits (MysqlAddr (TabletOf tablet0)) "vt7" 3306)
    by (by exists "3306"%string).
  assert (Hne : addrs_to_json [other_entry; stale_entry] <> ""%string)
    by discriminate.
  assert (Hstale : stale stale_entry (TabletOf tablet0) = true)
    by (vm_compute; reflexivity).
  rewrite (updateEndpoints_stale_entry X s_stale tablet0 _ (mkStat 0)
             [other_entry] [] stale_entry (port_map 6600 3300)
             "vt7" "vt7" 6700 3306 eq_refl eq_refl Hne eq_refl Hpre
             eq_refl eq_refl Hstale H1 H2).
  vm_compute. reflexivity.
Qed.

End Runs.

(** ** Resolving the local paths *)

Section Paths.
Context {W : Type} (X : Externals W).

Lemma find_first {A} (f : A -> bool) (l : list A) (x : A) :
  List.find f l = Some x ->
  exists i, l !! i = Some x /\ f x = true /\
            forall j p, (j < i)%nat -> l !! j = Some p -> f p = false.
Proof.
  induction l as [|a l IH]; [done|]. cbn. destruct (f a) eqn:Hfa.
  - intros [= <-]. exists 0%nat. repeat split; auto. intros; lia.
  - intros H. destruct (IH H) as (i & Hi & Hx & Hlt). exists (S i).
    repeat split; auto. intros [|j] p Hj Hp.
    + cbn in Hp. by injection Hp as <-.
    + apply (Hlt j); [lia|done].
Qed.

Lemma find_none_iff {A} (f : A -> bool) (l : list A) :
  List.find f l = None <-> ~ Exists (fun p => f p = true) l.
Proof.
  rewrite List.Exists_exists. split.
  - intros H (x & Hin & Hx). by rewrite (find_none f l H x Hin) in Hx.
  - intros H. destruct (List.find f l) as [x|] eqn:Hf; [|done].
    destruct (find_some _ _ Hf). exfalso. apply H. eauto.
Qed.

Lemma append_nonempty (a : string) (c : ascii) (b : string) :
  String.eqb (a +:+ String c b) "" = false.
Proof. by destruct a. Qed.

Lemma vtActionBinPaths_nonempty (p : string) :
  In p (vtActionBinPaths X) -> String.eqb p "" = false.
Proof.
  unfold vtActionBinPaths. cbn. intros [<-|[<-|[]]]; [|done].
  apply append_nonempty.
Qed.

Lemma mycnfPaths_nonempty (uid : N) (p : string) :
  In p (mycnfPaths uid) -> String.eqb p "" = false.
Proof. unfold mycnfPaths. cbn. by intros [<-|[<-|[<-|[]]]]. Qed.

(** [resolvePaths] on an agent that has no path yet and a cached
    record. *)
Lemma resolvePaths_run (s : State W) (t : TabletInfo) :
  mutex (agent s) = false ->
  _tablet (agent s) = Some t ->
  vtActionBinPath (agent s) = ""%string ->
  MycnfPath (agent s) = ""%string ->
  resolvePaths X s =
    match List.find (os_Stat X (world s)) (vtActionBinPaths X) with
    | None => Ret (Some (OtherError "no vtaction binary found")) s
    | Some bin =>
        match List.find (os_Stat X (world s)) (mycnfPaths (Uid (TabletOf t))) with
        | None =>
            Ret (Some (OtherError "no my.cnf found"))
              (with_agent s (with_bin bin (agent s)))
        | Some cnf =>
            Ret None (with_agent s (with_mycnf cnf (with_bin bin (agent s))))
        end
    end.
Proof.
  intros Hm Ht Hb Hc. unfold resolvePaths.
  fold (vtActionBinPaths X).
  unfold bind at 1, first_existing at 1, bind at 1, getWorld at 1, ret at 1.
  destruct (List.find (os_Stat X (world s)) (vtActionBinPaths X)) as [bin|] eqn:Hf.
  - pose proof (vtActionBinPaths_nonempty bin (proj1 (find_some _ _ Hf))) as Hne.
    unfold bind at 1, bind at 1, getAgent at 1, setAgent at 1.
    unfold bind at 1, getAgent at 1. cbn [agent world maps trace vtActionBinPath].
    rewrite Hne.
    set (s1 := mkState _ _ _ _).
    assert (Hs1 : s1 = with_agent s (with_bin bin (agent s))) by done.
    unfold bind at 1.
    rewrite (TabletDeref_unlocked s1 t) by done.
    fold (mycnfPaths (Uid (TabletOf t))).
    unfold bind at 1, first_existing at 1, bind at 1, getWorld at 1, ret at 1.
    change (world s1) with (world s).
    destruct (List.find (os_Stat X (world s)) (mycnfPaths (Uid (TabletOf t))))
      as [cnf|] eqn:Hg.
    + pose proof (mycnfPaths_nonempty _ cnf (proj1 (find_some _ _ Hg))) as Hne2.
      unfold bind, getAgent, setAgent, ret. subst s1.
      cbn [agent world maps trace MycnfPath]. by rewrite Hne2.
    + unfold bind, getAgent, ret.
      change (MycnfPath (agent s1)) with (MycnfPath (agent s)).
      by rewrite Hc.
  - unfold bind, ret, getAgent. by rewrite Hb.
Qed.

(** [resolvePaths] on an agent that has no path yet and no cached
    record, as [NewActionAgent] makes it. *)
Lemma resolvePaths_nil_run (s : State W) :
  mutex (agent s) = false ->
  _tablet (agent s) = None ->
  vtActionBinPath (agent s) = ""%string ->
  resolvePaths X s =
    match List.find (os_Stat X (world s)) (vtActionBinPaths X) with
    | None => Ret (Some (OtherError "no vtaction binary found")) s
    | Some bin =>
        Panicked (OtherError "invalid memory address or nil pointer dereference")
          (with_agent s (with_bin bin (agent s)))
    end.
Proof.
  intros Hm Ht Hb. unfold resolvePaths.
  fold (vtActionBinPaths X).
  unfold bind at 1, first_existing at 1, bind at 1, getWorld at 1, ret at 1.
  destruct (List.find (os_Stat X (world s)) (vtActionBinPaths X)) as [bin|] eqn:Hf.
  - pose proof (vtActionBinPaths_nonempty bin (proj1 (find_some _ _ Hf))) as Hne.
    unfold bind at 1, bind at 1, getAgent at 1, setAgent at 1.
    unfold bind at 1, getAgent at 1. cbn [agent world maps trace vtActionBinPath].
    rewrite Hne.
    set (s1 := mkState _ _ _ _).
    assert (Hs1 : s1 = with_agent s (with_bin bin (agent s))) by done.
    unfold bind at 1, TabletDeref at 1, bind at 1.
    rewrite (Tablet_unlocked s1) by done.
    change (_tablet (agent s1)) with (_tablet (agent s)). by rewrite Ht.
  - unfold bind, ret, getAgent. by rewrite Hb.
Qed.

Local Ltac close_paths :=
  repeat split; auto; try done;
  try (intros; by apply find_first);
  try (by intros [_ [=]]);
  try (by intros [? _]);
  try (by intros (_ & ? & [=] & _)).

(** X1. On an agent that has no path yet, [resolvePaths] looks for the
    executor first and takes the first candidate that exists on disk,
    in the order of its list. Without an executor it fails with its
    first error and leaves the agent as it was, without looking for
    the configuration and without reading the cached record. With an
    executor it records that path and reads the identifier of the
    cached record: on an agent that has no cached record yet, as
    [NewActionAgent] makes it, that dereference panics, the
    executor's path already recorded; on an agent with a cached record
    it does not panic, takes the first configuration candidate that
    exists, in the order of its list, returns nil exactly when there
    is one, and otherwise fails with its second error. So it panics
    exactly when an executor is on disk and no record is cached, and
    returns nil exactly when a record is cached and a candidate of
    each list exists. It touches neither the store nor the log. *)
Theorem resolvePaths_first_existing (s : State W) :
  mutex (agent s) = false ->
  vtActionBinPath (agent s) = ""%string ->
  MycnfPath (agent s) = ""%string ->
  let run := resolvePaths X s in
  let bins := vtActionBinPaths X in
  let on_disk := Exists (fun p => os_Stat X (world s) p = true) in
  world (final run) = world s /\ trace (final run) = trace s /\
  (~ on_disk bins ->
   run = Ret (Some (OtherError "no vtaction binary found")) s) /\
  (on_disk bins ->
   first_found X (world s) bins (vtActionBinPath (agent (final run))) /\
   match _tablet (agent s) with
   | None =>
       panicked run = true /\ returned run = None /\
       MycnfPath (agent (final run)) = ""%string
   | Some t =>
       let cnfs := mycnfPaths (Uid (TabletOf t)) in
       panicked run = false /\
       (returned run = Some None <-> on_disk cnfs) /\
       (on_disk cnfs ->
        first_found X (world s) cnfs (MycnfPath (agent (final run)))) /\
       (~ on_disk cnfs ->
        returned run = Some (Some (OtherError "no my.cnf found")) /\
        MycnfPath (agent (final run)) = ""%string)
   end) /\
  (panicked run = true <-> on_disk bins /\ _tablet (agent s) = None) /\
  (returned run = Some None <->
   on_disk bins /\
   exists t, _tablet (agent s) = Some t /\
             on_disk (mycnfPaths (Uid (TabletOf t)))).
Proof.
  intros Hm Hb Hc run bins on_disk.
  pose proof (find_none_iff (os_Stat X (world s)) bins) as Hnb.
  fold on_disk in Hnb.
  destruct (_tablet (agent s)) as [t|] eqn:Ht.
  - set (cnfs := mycnfPaths (Uid (TabletOf t))).
    pose proof (find_none_iff (os_Stat X (world s)) cnfs) as Hnc.
    fold on_disk in Hnc.
    assert (Hrun : run =
      match List.find (os_Stat X (world s)) bins with
      | None => Ret (Some (OtherError "no vtaction binary found")) s
      | Some bin =>
          match List.find (os_Stat X (world s)) cnfs with
          | None =>
              Ret (Some (OtherError "no my.cnf found"))
                (with_agent s (with_bin bin (agent s)))
          | Some cnf =>
              Ret None (with_agent s (with_mycnf cnf (with_bin bin (agent s))))
          end
      end) by exact (resolvePaths_run s t Hm Ht Hb Hc).
    rewrite Hrun. clear Hrun.
    destruct (List.find (os_Stat X (world s)) bins) as [bin|] eqn:Hf.
    + assert (Hob : on_disk bins).
      { destruct (decide (on_disk bins)) as [|Hn]; [done|].
        by apply Hnb in Hn. }
      destruct (List.find (os_Stat X (world s)) cnfs) as [cnf|] eqn:Hg.
      * assert (Hoc : on_disk cnfs).
        { destruct (decide (on_disk cnfs)) as [|Hn]; [done|].
          by apply Hnc in Hn. }
        cbn. close_paths. by exists t.
      * assert (Hoc : ~ on_disk cnfs) by by apply Hnc.
        cbn. close_paths.
        intros (_ & t' & [= <-] & Hd). by destruct Hoc.
    + assert (Hob : ~ on_disk bins) by by apply Hnb.
      cbn. close_paths.
  - assert (Hrun : run =
      match List.find (os_Stat X (world s)) bins with
      | None => Ret (Some (OtherError "no vtaction binary found")) s
      | Some bin =>
          Panicked (OtherError "invalid memory address or nil pointer dereference")
            (with_agent s (with_bin bin (agent s)))
      end) by exact (resolvePaths_nil_run s Hm Ht Hb).
    rewrite Hrun. clear Hrun.
    destruct (List.find (os_Stat X (world s)) bins) as [bin|] eqn:Hf.
    + assert (Hob : on_disk bins).
      { destruct (decide (on_disk bins)) as [|Hn]; [done|].
        by apply Hnb in Hn. }
      cbn. close_paths.
    + assert (Hob : ~ on_disk bins) by by apply Hnb.
      cbn. close_paths.
Qed.

End Paths.

(** ** What the queue processor and the loop leave alone *)

Section ReadOnly.
Context {W : Type} (X : Externals W).

Lemma listings_app tr1 tr2 :
  listings (tr1 ++ tr2) = (listings tr1 + listings tr2)%nat.
Proof. unfold listings. by rewrite List.filter_app, length_app. Qed.

(** Counting over a trace that was extended by explicit events. *)
Ltac count_trace :=
  unfold after_refresh, after_failed_read, woken, extend, launch_events;
  cbn [trace agent world maps];
  rewrite ?writes_app, ?listings_app, ?launched_app, ?refreshes_app; cbn.

(** A dispatch returns; it starts the executor for a node that can be
    read and decodes, and for no other; it writes nothing to the
    store. *)
Lemma dispatchAction_trace (s : State W) (actionPath : string) :
  mutex (agent s) = false ->
  exists s',
    dispatchAction X actionPath s = Ret tt s' /\
    writes (trace s') = writes (trace s) /\
    listings (trace s') = listings (trace s) /\
    launched (trace s') =
      launched (trace s) ++ launch_of X (agent s) (world s) actionPath /\
    (launch_of X (agent s) (world s) actionPath = [] ->
     agent s' = agent s /\ world s' = world s /\
     refreshes (trace s') = refreshes (trace s)) /\
    same_paths (agent s) (agent s').
Proof.
  intros Hm. unfold launch_of.
  destruct (zk_Get X (world s) actionPath) as [[data st]|err] eqn:HG.
  2:{ eexists. split; [by apply dispatchAction_get_failed|].
      count_trace.
      repeat split; rewrite ?app_nil_r; auto; try lia; try done. }
  destruct (ActionNodeFromJson X data actionPath) as [node|err] eqn:HD.
  2:{ eexists. split; [by eapply dispatchAction_decode_failed|].
      count_trace.
      repeat split; rewrite ?app_nil_r; auto; try lia; try done. }
  destruct (CombinedOutput X (world s) (action_cmd X (agent s) actionPath node))
    as [[stdOut [e|]] w'] eqn:HC.
  { eexists. split; [by eapply dispatchAction_action_failed|].
    count_trace.
    repeat split; rewrite ?app_nil_r; auto; try lia; try done. }
  rewrite (dispatchAction_action_ok X s actionPath data st node stdOut w' HG HD HC).
  set (s1 := extend s w' _).
  assert (Hm1 : mutex (agent s1) = false) by done.
  unfold bind.
  destruct (ReadTablet X (world s1) (zkTabletPath (agent s1))) as [t|e] eqn:HR.
  - rewrite (readTablet_ok X s1 t Hm1 HR).
    eexists. split; [reflexivity|]. subst s1. count_trace.
    repeat split; rewrite ?app_nil_r; auto; try lia; try done.
  - rewrite (readTablet_failed X s1 e HR).
    eexists. split; [reflexivity|]. subst s1. count_trace.
    repeat split; rewrite ?app_nil_r; auto; try lia; try done.
Qed.

(** X2. A dispatch always returns. It starts the executor exactly once,
    with the command line built from the node, when the node can be
    read and its payload decodes, and not at all otherwise; in that
    case the cached record, the agent and the world are as before and
    the tablet record is not re-read. Either way it writes nothing to
    the store: the node it worked on is not deleted by the agent. *)
Theorem dispatchAction_launches (s : State W) (actionPath : string) :
  mutex (agent s) = false ->
  let run := dispatchAction X actionPath s in
  returned run = Some tt /\
  launched (trace (final run)) =
    launched (trace s) ++ launch_of X (agent s) (world s) actionPath /\
  (launch_of X (agent s) (world s) actionPath = [] ->
   agent (final run) = agent s /\ world (final run) = world s /\
   refreshes (trace (final run)) = refreshes (trace s)) /\
  writes (trace (final run)) = writes (trace s).
Proof.
  intros Hm run. subst run.
  destruct (dispatchAction_trace s actionPath Hm)
    as (s' & -> & Hw & _ & Hl & Hn & _).
  cbn. repeat split; auto; by apply Hn.
Qed.

Lemma dispatchChildren_reads_only (zk : string) (children : list string)
    (s : State W) :
  mutex (agent s) = false ->
  exists s',
    dispatchChildren X zk children s = Ret tt s' /\
    writes (trace s') = writes (trace s) /\
    listings (trace s') = listings (trace s) /\
    same_paths (agent s) (agent s').
Proof.
  revert s. induction children as [|child rest IH]; intros s Hm.
  - exists s. by repeat split.
  - destruct (dispatchAction_trace s (zk +:+ "/" +:+ child) Hm)
      as (s1 & Hrun & Hw & Hl & _ & _ & Hp).
    destruct (IH s1) as (s2 & Hrun2 & Hw2 & Hl2 & Hp2); [apply Hp|].
    exists s2. cbn [dispatchChildren]. unfold bind at 1. rewrite Hrun.
    split; [done|]. split; [congruence|]. split; [congruence|].
    destruct Hp as (?&?&?&?&?), Hp2 as (?&?&?&?&?).
    repeat split; congruence.
Qed.

Lemma action_cmd_same_paths (a a' : ActionAgent) (p : string) (node : ActionNode) :
  vtActionBinPath a' = vtActionBinPath a -> MycnfPath a' = MycnfPath a ->
  action_cmd X a' p node = action_cmd X a p node.
Proof. intros H1 H2. unfold action_cmd. by rewrite H1, H2. Qed.

Lemma dispatchChildren_commands (a0 : ActionAgent) (zk : string)
    (children : list string) (s : State W) :
  mutex (agent s) = false ->
  vtActionBinPath (agent s) = vtActionBinPath a0 ->
  MycnfPath (agent s) = MycnfPath a0 ->
  exists s' picks,
    dispatchChildren X zk children s = Ret tt s' /\
    launched (trace s') = launched (trace s) ++ map (pick_cmd X a0 zk) picks /\
    sublist (map fst picks) children.
Proof.
  revert s. induction children as [|child rest IH]; intros s Hm Hb Hc.
  - exists s, []. cbn [map]. rewrite app_nil_r. by repeat split.
  - destruct (dispatchAction_trace s (zk +:+ "/" +:+ child) Hm)
      as (s1 & Hrun & _ & _ & Hl & _ & Hp).
    destruct Hp as (_ & _ & Hb1 & Hc1 & Hm1).
    destruct (IH s1) as (s2 & picks & Hrun2 & Hl2 & Hsub);
      [done|congruence|congruence|].
    cbn [dispatchChildren]. unfold bind at 1. rewrite Hrun.
    unfold launch_of in Hl.
    destruct (zk_Get X (world s) (zk +:+ "/" +:+ child)) as [[data st]|err].
    2:{ exists s2, picks. split; [done|]. rewrite app_nil_r in Hl.
        split; [by rewrite Hl2, Hl|]. by apply sublist_cons. }
    destruct (ActionNodeFromJson X data (zk +:+ "/" +:+ child)) as [node|err].
    2:{ exists s2, picks. split; [done|]. rewrite app_nil_r in Hl.
        split; [by rewrite Hl2, Hl|]. by apply sublist_cons. }
    exists s2, ((child, node) :: picks). split; [done|]. split.
    + rewrite Hl2, Hl, <- app_assoc. cbn [map app]. do 2 f_equal.
      unfold pick_cmd. cbn [fst snd]. symmetry. by apply action_cmd_same_paths.
    + cbn [map fst]. by apply sublist_skip.
Qed.


(** A drain returns, whatever the store answers; it lists the queue
    once and writes nothing. *)
Lemma handleActionQueue_reads_only (s : State W) :
  mutex (agent s) = false ->
  exists r s',
    handleActionQueue X s = Ret r s' /\
    writes (trace s') = writes (trace s) /\
    listings (trace s') = S (listings (trace s)) /\
    same_paths (agent s) (agent s').
Proof.
  intros Hm.
  destruct (zk_ChildrenW X (world s) (zkActionPath (agent s)))
    as [[children watch] [e|]] eqn:HC.
  - rewrite (handleActionQueue_failed X s children watch e HC).
    eexists _, _. split; [reflexivity|]. count_trace. repeat split; rewrite ?app_nil_r; auto; try lia; try done.
  - rewrite (handleActionQueue_listed X s children watch HC).
    set (s0 := extend s (world s) _).
    destruct (dispatchChildren_reads_only (zkActionPath (agent s))
                (sort_Strings children) s0 Hm) as (s' & Hrun & Hw & Hl & Hp).
    unfold bind. rewrite Hrun. eexists _, _. split; [reflexivity|].
    rewrite Hw, Hl. subst s0. count_trace.
    repeat split; try lia; apply Hp.
Qed.

Lemma actionEventLoopBody_reads_only (s : State W) :
  mutex (agent s) = false ->
  exists s',
    actionEventLoopBody X s = Ret tt s' /\
    writes (trace s') = writes (trace s) /\
    (listings (trace s) < listings (trace s'))%nat /\
    same_paths (agent s) (agent s').
Proof.
  intros Hm.
  destruct (handleActionQueue_reads_only s Hm)
    as ([watch err] & s1 & Hrun & Hw & Hl & Hp).
  unfold actionEventLoopBody, bind at 1. rewrite Hrun.
  destruct err as [e|].
  { eexists. split; [reflexivity|]. count_trace. repeat split; try lia; apply Hp. }
  unfold bind at 1, command, bind at 1, emit, bind at 1, getWorld. cbn.
  destruct (chan_recv X (world s1) watch) as [event w2]. cbn.
  destruct (Event_Ok X event); cbn.
  2:{ eexists. split; [reflexivity|]. count_trace. repeat split; try lia; apply Hp. }
  destruct (EventType event =? EVENT_CHILD).
  2:{ eexists. split; [reflexivity|]. count_trace. repeat split; try lia; apply Hp. }
  set (s2 := mkState _ _ _ _).
  destruct (handleActionQueue_reads_only s2) as (r & s3 & Hrun3 & Hw3 & Hl3 & Hp3);
    [apply Hp|].
  unfold bind. rewrite Hrun3. eexists. split; [reflexivity|].
  rewrite Hw3, Hl3. subst s2. count_trace.
  split; [lia|]. split; [lia|].
  destruct Hp as (?&?&?&?&?), Hp3 as (?&?&?&?&?). cbn in *.
  repeat split; congruence.
Qed.

(** X4. The loop goes on: however many turns are followed, and whatever
    the store, the watches and the executor answer, it does not panic
    and it keeps the agent's paths and the free mutex. Every turn lists
    the children of the action queue at least once, and no turn writes
    to the store: the agent drains the queue without removing or
    changing a node itself. *)
Theorem actionEventLoop_reads_only (n : nat) (s : State W) :
  mutex (agent s) = false ->
  exists s',
    actionEventLoop X n s = Ret tt s' /\
    writes (trace s') = writes (trace s) /\
    (listings (trace s) + n <= listings (trace s'))%nat /\
    same_paths (agent s) (agent s').
Proof.
  revert s. induction n as [|n IH]; intros s Hm.
  - exists s. cbn. repeat split; rewrite ?app_nil_r; auto; try lia; try done.
  - destruct (actionEventLoopBody_reads_only s Hm) as (s1 & Hrun & Hw & Hl & Hp).
    destruct (IH s1) as (s2 & Hrun2 & Hw2 & Hl2 & Hp2); [apply Hp|].
    exists s2. cbn [actionEventLoop]. unfold bind at 1. rewrite Hrun.
    split; [done|]. split; [congruence|]. split; [lia|].
    destruct Hp as (?&?&?&?&?), Hp2 as (?&?&?&?&?).
    repeat split; congruence.
Qed.

Lemma slept_S (n : nat) (w : W) :
  slept X n (time_Sleep X w 5) = slept X (S n) w.
Proof.
  unfold slept. by rewrite Nat.iter_succ_r.
Qed.

Lemma actionEventLoopBody_list_failed (s : State W) (children : list string)
    (watch : Watch) (e : error) :
  zk_ChildrenW X (world s) (zkActionPath (agent s)) = (children, watch, Some e) ->
  actionEventLoopBody X s =
    Ret tt (extend s (time_Sleep X (world s) 5)
              (backoff_events (zkActionPath (agent s)) e)).
Proof.
  intros H. unfold actionEventLoopBody, bind at 1.
  rewrite (handleActionQueue_failed X s children watch e H).
  unfold bind, relog, command, bind, emit, getWorld, setWorld, ret, extend,
    backoff_events.
  cbn. by rewrite <- !app_assoc.
Qed.

(** X5. While the listing of the action queue fails, a turn of the loop
    is the listing, the warning and a sleep of five seconds, and
    nothing else: the children that came with the error are not
    dispatched and nothing is received from the watch that came with
    it. Over [n] such turns the agent is unchanged and the trace holds
    exactly those three events [n] times. *)
Theorem actionEventLoop_backs_off (n : nat) (s : State W) (e : error) :
  (forall k, (k < n)%nat ->
     snd (zk_ChildrenW X (slept X k (world s)) (zkActionPath (agent s))) = Some e) ->
  actionEventLoop X n s =
    Ret tt (extend s (slept X n (world s))
              (concat (replicate n (backoff_events (zkActionPath (agent s)) e)))).
Proof.
  revert s. induction n as [|n IH]; intros s H.
  - cbn. unfold ret, extend. destruct s. cbn. by rewrite app_nil_r.
  - cbn [actionEventLoop]. unfold bind at 1.
    pose proof (H 0%nat ltac:(lia)) as H0. cbn in H0.
    destruct (zk_ChildrenW X (world s) (zkActionPath (agent s)))
      as [[children watch] err] eqn:HC.
    cbn in H0. subst err.
    rewrite (actionEventLoopBody_list_failed s children watch e HC).
    rewrite IH.
    + unfold extend. cbn [agent world maps trace].
      rewrite slept_S. cbn [replicate concat]. by rewrite <- app_assoc.
    + intros k Hk. cbn [agent world extend]. rewrite slept_S. apply H. lia.
Qed.

(** X6. After a drain whose listing succeeded the loop waits on the
    watch of that listing. When the event it receives is not healthy,
    the turn ends with a warning and a sleep of five seconds, whatever
    the type of the event: a child event of an unhealthy session does
    not drain the queue. A healthy event of another type than a child
    event ends the turn at once. In both cases nothing is dispatched
    in this turn after the event. *)
Theorem actionEventLoopBody_other_event (s s1 : State W) (watch : Watch)
    (event : Event) (w2 : W) :
  handleActionQueue X s = Ret (watch, None) s1 ->
  chan_recv X (world s1) watch = (event, w2) ->
  Event_Ok X event = false \/ EventType event <> EVENT_CHILD ->
  let s2 := woken s1 watch w2 in
  let w3 := if Event_Ok X event then w2 else time_Sleep X w2 5 in
  actionEventLoopBody X s = Ret tt (extend s2 w3 (event_events X event)) /\
  dispatched (trace (extend s2 w3 (event_events X event))) = dispatched (trace s1) /\
  listings (trace (extend s2 w3 (event_events X event))) = listings (trace s1).
Proof.
  intros Hrun Hrecv Hev s2 w3. subst s2 w3.
  split.
  - unfold actionEventLoopBody, bind at 1. rewrite Hrun.
    unfold bind at 1, command, bind at 1, emit, bind at 1, getWorld.
    cbn [agent world maps trace]. rewrite Hrecv. cbn.
    unfold event_events, woken, extend.
    destruct (Event_Ok X event) eqn:Hok; cbn.
    + destruct Hev as [|Hty]; [done|].
      apply Z.eqb_neq in Hty. rewrite Hty. cbn. by rewrite app_nil_r.
    + by rewrite <- !app_assoc.
  - unfold event_events, woken, extend. cbn [trace].
    rewrite !dispatched_app, !listings_app.
    destruct (Event_Ok X event); cbn; rewrite ?app_nil_r; split; auto; lia.
Qed.

End ReadOnly.

(** ** A malformed node in a drain *)

Section Malformed.
Context {W : Type} (X : Externals W).

Lemma dispatchChildren_app (zk : string) (l1 l2 : list string) (s : State W) :
  dispatchChildren X zk (l1 ++ l2) s =
    (dispatchChildren X zk l1;; dispatchChildren X zk l2) s.
Proof.
  revert s. induction l1 as [|c l1 IH]; intros s; [done|].
  cbn [app dispatchChildren]. unfold bind.
  destruct (dispatchAction X (zk +:+ "/" +:+ c) s) as [[] s'|e s']; [|done].
  rewrite IH. reflexivity.
Qed.

(** C5. In a drain, that is in a run of [handleActionQueue] on a
    listing that succeeded, let the loop over the sorted children
    reach a node whose payload does not decode, after any nodes before
    it. The dispatch of that node logs the failure and returns,
    changing nothing but the log, and the drain goes on from there
    with the nodes after it: it returns the watch and no error, it has
    entered [dispatchAction] for every child of the listing, the ones
    after the malformed node included, and every node after the
    malformed one whose payload is readable and decodes when the loop
    reaches it has its executor started. *)
Theorem malformed_node_is_skipped (s s1 : State W) (children : list string)
    (watch : Watch) (pre rest : list string) (bad data : string) (st : Stat)
    (err : error) :
  mutex (agent s) = false ->
  zk_ChildrenW X (world s) (zkActionPath (agent s)) = (children, watch, None) ->
  sort_Strings children = pre ++ bad :: rest ->
  let zk := zkActionPath (agent s) in
  dispatchChildren X zk pre (extend s (world s) [EvStore (ZkChildrenW zk)])
    = Ret tt s1 ->
  zk_Get X (world s1) (child_path zk bad) = inl (data, st) ->
  ActionNodeFromJson X data (child_path zk bad) = inr err ->
  let skipped := after_decode_failure s1 (child_path zk bad) err in
  let run := handleActionQueue X s in
  dispatchAction X (child_path zk bad) s1 = Ret tt skipped /\
  run = (dispatchChildren X zk rest;; ret (watch, None)) skipped /\
  returned run = Some (watch, None) /\
  dispatched (trace (final run)) =
    dispatched (trace s) ++ map (child_path zk) (pre ++ bad :: rest) /\
  (forall rest1 good rest2 s2 data' st' node,
      rest = rest1 ++ good :: rest2 ->
      dispatchChildren X zk rest1 skipped = Ret tt s2 ->
      zk_Get X (world s2) (child_path zk good) = inl (data', st') ->
      ActionNodeFromJson X data' (child_path zk good) = inl node ->
      In (action_cmd X (agent s) (child_path zk good) node)
         (launched (trace (final run)))).
Proof.
  intros Hm HC Hsort zk Hpre HG HD skipped run.
  set (s0 := extend s (world s) [EvStore (ZkChildrenW zk)]) in *.
  pose proof (dispatchAction_decode_failed X s1 _ _ _ _ HG HD) as Hbad.
  assert (Hm0 : mutex (agent s0) = false) by done.
  destruct (dispatchChildren_effect X zk pre s0 Hm0) as (s1' & Hpre' & _ & _ & Hp1).
  rewrite Hpre in Hpre'. injection Hpre' as <-.
  assert (Hms : mutex (agent skipped) = false) by apply Hp1.
  assert (Hrun : run = (dispatchChildren X zk rest;; ret (watch, None)) skipped).
  { subst run. rewrite (handleActionQueue_listed X s children watch HC).
    fold zk s0. rewrite Hsort. unfold bind at 1 2.
    rewrite dispatchChildren_app. unfold bind at 1. rewrite Hpre.
    cbn [dispatchChildren]. unfold bind at 1. fold (child_path zk bad).
    by rewrite Hbad. }
  split; [exact Hbad|]. split; [exact Hrun|].
  destruct (handleActionQueue_effect X s children watch Hm HC)
    as (s' & Hdone & Hd & _ & _).
  fold run in Hdone. fold zk in Hd. rewrite Hsort in Hd.
  split; [by rewrite Hdone|]. split; [by rewrite Hdone|].
  intros rest1 good rest2 s2 data' st' node -> Hrest1 HG' HD'.
  rewrite Hdone in Hrun. unfold bind at 1 in Hrun.
  rewrite dispatchChildren_app in Hrun. unfold bind at 1 in Hrun.
  rewrite Hrest1 in Hrun. cbn [dispatchChildren] in Hrun.
  unfold bind at 1 in Hrun. fold (child_path zk good) in Hrun.
  destruct (dispatchChildren_effect X zk rest1 skipped Hms)
    as (s2' & Hrest1' & _ & _ & Hp2).
  rewrite Hrest1 in Hrest1'. injection Hrest1' as <-.
  assert (Hm2 : mutex (agent s2) = false) by apply Hp2.
  destruct (dispatchAction_trace X s2 (child_path zk good) Hm2)
    as (s3 & Hgood & _ & _ & Hl3 & _ & Hp3).
  rewrite Hgood in Hrun.
  destruct (dispatchChildren_commands X (agent s3) zk rest2 s3)
    as (s4 & picks & Hrest2 & Hl4 & _); [apply Hp3|done|done|].
  rewrite Hrest2 in Hrun. injection Hrun as <-.
  rewrite Hdone. cbn [final].
  rewrite Hl4, Hl3. unfold launch_of. rewrite HG', HD'.
  rewrite !in_app_iff. left. right. left.
  apply action_cmd_same_paths.
  - destruct Hp1 as (_ & _ & H1 & _), Hp2 as (_ & _ & H2 & _).
    cbn in H1. unfold skipped, after_decode_failure in H2. cbn in H2. congruence.
  - destruct Hp1 as (_ & _ & _ & H1 & _), Hp2 as (_ & _ & _ & H2 & _).
    cbn in H1. unfold skipped, after_decode_failure in H2. cbn in H2. congruence.
Qed.

End Malformed.

(** ** The directory entry of a tablet that is listed already *)

Section Directory.
Context {W : Type} (X : Externals W).

Lemma mapIndex_repr (s : State W) (e : VtnsAddr) (d : VtnsAddrData) (k : string) :
  repr (maps s) e d ->
  mapIndex (vNamedPortMap e) k s =
    Ret (default 0 (dNamedPortMap d ≫= (fun g => g !! k))) s.
Proof.
  intros (_ & _ & _ & Hmap). unfold mapIndex.
  destruct (vNamedPortMap e) as [r|], (dNamedPortMap d) as [g|]; try done.
  by rewrite Hmap.
Qed.

(** The comparison the scan makes at an entry of this tablet. *)
Lemma scanEntries_found (s : State W) (t : TabletInfo) (e : VtnsAddr)
    (d : VtnsAddrData) (rest : list VtnsAddr) :
  mutex (agent s) = false ->
  _tablet (agent s) = Some t ->
  repr (maps s) e d ->
  dUid d = Uid (TabletOf t) ->
  scanEntries (e :: rest) s =
    (if stale d (TabletOf t) then
       t <- TabletDeref;;
       hp <- splitHostPort (Addr (TabletOf t));;
       let '(host, port) := hp in
       mapAssign (vNamedPortMap e) "_vtocc" port;;
       t <- TabletDeref;;
       hp <- splitHostPort (MysqlAddr (TabletOf t));;
       let '(host, port) := hp in
       mapAssign (vNamedPortMap e) "_mysql" port;;
       ret true
     else ret true) s.
Proof.
  intros Hm Ht Hre Hd. pose proof Hre as (Hu & Hh & _ & _).
  cbn [scanEntries]. unfold bind at 1. rewrite (TabletDeref_unlocked s t Hm Ht).
  rewrite Hu, Hd, N.eqb_refl.
  unfold bind at 1. rewrite (mapIndex_repr s e d "_vtocc" Hre).
  unfold bind at 1. rewrite (mapIndex_repr s e d "_mysql" Hre).
  unfold bind at 1. rewrite (TabletDeref_unlocked s t Hm Ht).
  rewrite Hh. fold (named_addr d "_vtocc") (named_addr d "_mysql").
  assert (Hs : (if negb (named_addr d "_vtocc" =? Addr (TabletOf t))%string
                then ret true
                else t0 <- TabletDeref;;
                     ret (negb (named_addr d "_mysql" =? MysqlAddr (TabletOf t0))%string)) s
               = Ret (stale d (TabletOf t)) s).
  { unfold stale.
    destruct (negb (named_addr d "_vtocc" =? Addr (TabletOf t))%string); [done|].
    unfold bind. by rewrite (TabletDeref_unlocked s t Hm Ht). }
  unfold bind at 1. rewrite Hs.
  by destruct (stale d (TabletOf t)).
Qed.

(** The run of [updateEndpoints] up to the scan's verdict on the first
    entry of this tablet. *)
Lemma updateEndpoints_found (s : State W) (t : TabletInfo)
    (oldValue : string) (st : Stat) (pre post : list VtnsAddrData)
    (d : VtnsAddrData) :
  mutex (agent s) = false ->
  _tablet (agent s) = Some t ->
  oldValue <> ""%string ->
  json_Unmarshal_addrs X oldValue = inl (pre ++ d :: post) ->
  Forall (fun d' => dUid d' <> Uid (TabletOf t)) pre ->
  dUid d = Uid (TabletOf t) ->
  exists epre e epost,
    let s1 := with_maps s (maps s ++ omap dNamedPortMap (pre ++ d :: post)) in
    Forall2 (repr (maps s1)) (epre ++ e :: epost) (pre ++ d :: post) /\
    repr (maps s1) e d /\
    updateEndpoints X oldValue (Some st) s =
      (foundTablet <- scanEntries (e :: epost);;
       entries <- (if negb foundTablet then
                     t <- TabletDeref;;
                     e' <- vtnsAddrForTablet (TabletOf t);;
                     ret ((epre ++ e :: epost) ++ [e'])
                   else ret (epre ++ e :: epost));;
       newValue <- toJson X entries;;
       ret (newValue, None)) s1.
Proof.
  intros Hm Ht Hnonempty Hdec Hpre Hd.
  destruct (loadEntries_spec (pre ++ d :: post) s) as (entries & Hload & Hrepr & _).
  pose proof Hrepr as Hall.
  apply Forall2_app_inv_r in Hrepr as (epre & erest & Hrpre & Hrrest & ->).
  apply Forall2_cons_inv_r in Hrrest as (e & epost & Hre & Hrpost & ->).
  exists epre, e, epost. cbn zeta. split; [exact Hall|]. split; [exact Hre|].
  unfold updateEndpoints.
  apply String.eqb_neq in Hnonempty as ->. cbn [negb]. rewrite Hdec.
  unfold bind at 1. rewrite Hload.
  set (s1 := with_maps s _).
  assert (Hm1 : mutex (agent s1) = false) by done.
  assert (Ht1 : _tablet (agent s1) = Some t) by done.
  unfold bind at 1.
  rewrite (scanEntries_skip s1 t epre (e :: epost) Hm1 Ht1)
    by (eapply repr_uids; eauto).
  reflexivity.
Qed.

Lemma updateEndpoints_fresh_run (s : State W) (t : TabletInfo)
    (oldValue : string) (st : Stat) (pre post : list VtnsAddrData)
    (d : VtnsAddrData) :
  mutex (agent s) = false ->
  _tablet (agent s) = Some t ->
  oldValue <> ""%string ->
  json_Unmarshal_addrs X oldValue = inl (pre ++ d :: post) ->
  Forall (fun d' => dUid d' <> Uid (TabletOf t)) pre ->
  dUid d = Uid (TabletOf t) ->
  stale d (TabletOf t) = false ->
  updateEndpoints X oldValue (Some st) s =
    Ret (toJson_addrs X (pre ++ d :: post), None)
      (with_maps s (maps s ++ omap dNamedPortMap (pre ++ d :: post))).
Proof.
  intros Hm Ht Hnonempty Hdec Hpre Hd Hfresh.
  destruct (updateEndpoints_found s t oldValue st pre post d)
    as (epre & e & epost & Hall & Hre & ->); try done.
  set (s1 := with_maps s _) in *.
  unfold bind at 1. rewrite (scanEntries_found s1 t e d epost) by done.
  rewrite Hfresh. cbn [ret negb]. unfold bind at 1, ret at 1.
  unfold bind at 1, toJson, bind at 1.
  by rewrite (snapshot_repr _ _ (pre ++ d :: post)).
Qed.

(** X7. When the first entry of the decoded directory that carries
    this tablet's id shows the tablet's two addresses,
    [updateEndpoints] returns the encoding of the decoded entries, all
    of them as decoded and in their order: later entries with the same
    id are not looked at, and neither address is split, so that
    nothing here can panic. Agent, world and log are untouched. *)
Theorem updateEndpoints_keeps_fresh_entry (s : State W) (t : TabletInfo)
    (oldValue : string) (st : Stat) (pre post : list VtnsAddrData)
    (d : VtnsAddrData) :
  mutex (agent s) = false ->
  _tablet (agent s) = Some t ->
  oldValue <> ""%string ->
  json_Unmarshal_addrs X oldValue = inl (pre ++ d :: post) ->
  Forall (fun d' => dUid d' <> Uid (TabletOf t)) pre ->
  dUid d = Uid (TabletOf t) ->
  stale d (TabletOf t) = false ->
  let run := updateEndpoints X oldValue (Some st) s in
  returned run = Some (toJson_addrs X (pre ++ d :: post), None) /\
  agent (final run) = agent s /\ world (final run) = world s /\
  trace (final run) = trace s.
Proof.
  intros Hm Ht Hnonempty Hdec Hpre Hd Hfresh run. subst run.
  by rewrite (updateEndpoints_fresh_run s t oldValue st pre post d).
Qed.

(** X8. A stale entry of this tablet that was decoded without a port
    map makes [updateEndpoints] panic: the scan reads port 0 from the
    nil map, finds the entry stale and assigns into the map. When the
    tablet's address splits, the panic is that of the assignment. *)
Theorem updateEndpoints_nil_map_panics (s : State W) (t : TabletInfo)
    (oldValue : string) (st : Stat) (pre post : list VtnsAddrData)
    (d : VtnsAddrData) :
  mutex (agent s) = false ->
  _tablet (agent s) = Some t ->
  oldValue <> ""%string ->
  json_Unmarshal_addrs X oldValue = inl (pre ++ d :: post) ->
  Forall (fun d' => dUid d' <> Uid (TabletOf t)) pre ->
  dUid d = Uid (TabletOf t) ->
  dNamedPortMap d = None ->
  stale d (TabletOf t) = true ->
  let run := updateEndpoints X oldValue (Some st) s in
  named_addr d "_vtocc" = dHost d +:+ ":0" /\
  panicked run = true /\
  forall host port,
    splits (Addr (TabletOf t)) host port ->
    exists s', run = Panicked (OtherError "assignment to entry in nil map") s'.
Proof.
  intros Hm Ht Hnonempty Hdec Hpre Hd Hnil Hstale run.
  split. { unfold named_addr. by rewrite Hnil. }
  assert (Hrun : exists err s',
             run = Panicked err s' /\
             forall host port, splits (Addr (TabletOf t)) host port ->
                               err = OtherError "assignment to entry in nil map").
  { subst run.
    destruct (updateEndpoints_found s t oldValue st pre post d)
      as (epre & e & epost & Hall & Hre & ->); try done.
    set (s1 := with_maps s _) in *.
    assert (Hm1 : mutex (agent s1) = false) by done.
    assert (Ht1 : _tablet (agent s1) = Some t) by done.
    assert (He : vNamedPortMap e = None).
    { destruct Hre as (_ & _ & _ & Hmap). rewrite Hnil in Hmap.
      by destruct (vNamedPortMap e). }
    unfold bind at 1. rewrite (scanEntries_found s1 t e d epost) by done.
    rewrite Hstale, He.
    unfold bind at 1. rewrite (TabletDeref_unlocked s1 t Hm1 Ht1).
    unfold bind at 1.
    destruct (splits_or_unsplittable (Addr (TabletOf t))) as [(h & p & Hsp)|Hun].
    - rewrite (splitHostPort_splits s1 _ _ _ Hsp). cbn. by eexists _, _.
    - destruct (splitHostPort_unsplittable s1 _ Hun) as (err & Hp).
      rewrite Hp. eexists _, _. split; [reflexivity|]. intros host port Hsp.
      destruct Hun as [(e0 & Hn)|(h0 & ps & e0 & Hn & Hp0)];
        destruct Hsp as (ps' & Hn' & Hp'); congruence. }
  destruct Hrun as (err & s' & -> & Herr). split; [done|].
  intros host port Hsp. exists s'. by rewrite (Herr host port Hsp).
Qed.

Lemma set_ports_settled (d : VtnsAddrData) (port mport : Z) :
  settled d port mport -> set_ports port mport d = d.
Proof.
  intros (g & Hg & Hv & Hq). unfold set_ports. destruct d as [u h p m].
  cbn in *. subst m. cbn. do 2 f_equal.
  rewrite (insert_id g "_vtocc" port Hv). by rewrite (insert_id g "_mysql" mport Hq).
Qed.

Lemma set_ports_is_settled (d : VtnsAddrData) (g : gmap string Z) (port mport : Z) :
  dNamedPortMap d = Some g -> settled (set_ports port mport d) port mport.
Proof.
  intros Hg. unfold settled, set_ports. cbn. rewrite Hg. cbn.
  eexists. split; [reflexivity|]. split.
  - rewrite lookup_insert_ne by done. by rewrite lookup_insert_eq.
  - by rewrite lookup_insert_eq.
Qed.

Lemma port_map_settled (uid : N) (host : string) (port mport : Z) :
  settled (mkVtnsAddrData uid host 0 (Some (port_map port mport))) port mport.
Proof.
  exists (port_map port mport). unfold port_map. split; [done|]. split.
  - rewrite lookup_insert_ne by done. by rewrite lookup_insert_eq.
  - by rewrite lookup_insert_eq.
Qed.

(** A directory whose first entry of this tablet carries the tablet's
    two ports comes back from [updateEndpoints] as it is, whether the
    scan takes the entry for stale or not. *)
Lemma updateEndpoints_settled (s : State W) (t : TabletInfo)
    (oldValue : string) (st : Stat) (pre post : list VtnsAddrData)
    (d : VtnsAddrData) (host mhost : string) (port mport : Z) :
  mutex (agent s) = false ->
  _tablet (agent s) = Some t ->
  oldValue <> ""%string ->
  json_Unmarshal_addrs X oldValue = inl (pre ++ d :: post) ->
  Forall (fun d' => dUid d' <> Uid (TabletOf t)) pre ->
  dUid d = Uid (TabletOf t) ->
  settled d port mport ->
  splits (Addr (TabletOf t)) host port ->
  splits (MysqlAddr (TabletOf t)) mhost mport ->
  returned (updateEndpoints X oldValue (Some st) s) =
    Some (toJson_addrs X (pre ++ d :: post), None).
Proof.
  intros Hm Ht Hnonempty Hdec Hpre Hd Hset H1 H2.
  destruct (stale d (TabletOf t)) eqn:Hstale.
  - pose proof Hset as (g & Hg & _).
    rewrite (updateEndpoints_stale_entry X s t oldValue st pre post d g
               host mhost port mport) by done.
    by rewrite (set_ports_settled d port mport Hset).
  - by rewrite (updateEndpoints_fresh_run s t oldValue st pre post d).
Qed.

Lemma updateEndpoints_append_run (s : State W) (t : TabletInfo)
    (oldValue : string) (st : Stat) (decoded : list VtnsAddrData)
    (host mhost : string) (port mport : Z) :
  mutex (agent s) = false ->
  _tablet (agent s) = Some t ->
  (oldValue = ""%string /\ decoded = []) \/
  (oldValue <> ""%string /\ json_Unmarshal_addrs X oldValue = inl decoded) ->
  Forall (fun d => dUid d <> Uid (TabletOf t)) decoded ->
  splits (Addr (TabletOf t)) host port ->
  splits (MysqlAddr (TabletOf t)) mhost mport ->
  returned (updateEndpoints X oldValue (Some st) s) =
    Some (toJson_addrs X
            (decoded ++ [mkVtnsAddrData (Uid (TabletOf t)) host 0
                           (Some (port_map port mport))]), None).
Proof.
  intros Hm Ht Hold Hne H1 H2.
  set (entry := mkVtnsAddrData _ _ _ _).
  unfold updateEndpoints.
  destruct Hold as [[-> ->] | [Hnonempty Hdec]].
  - cbn [String.eqb negb]. unfold bind at 1.
    rewrite (TabletDeref_unlocked s t Hm Ht).
    unfold bind at 1. rewrite (vtnsAddrForTablet_ok s _ _ _ _ _ H1 H2).
    unfold bind at 1, toJson, bind at 1.
    rewrite (snapshot_repr _ _ [entry]).
    + reflexivity.
    + constructor; [|done]. repeat split. cbn.
      by rewrite lookup_app_r, Nat.sub_diag.
  - apply String.eqb_neq in Hnonempty as ->. cbn [negb]. rewrite Hdec.
    destruct (loadEntries_spec decoded s) as (entries & Hload & Hrepr & _).
    unfold bind at 1. rewrite Hload.
    set (s1 := with_maps s _).
    unfold bind at 1.
    rewrite (scanEntries_not_found s1 t entries Hm Ht)
      by (eapply repr_uids; eauto).
    cbn [negb]. unfold bind at 1, bind at 1.
    rewrite (TabletDeref_unlocked s1 t Hm Ht).
    unfold bind at 1. rewrite (vtnsAddrForTablet_ok s1 _ _ _ _ _ H1 H2).
    cbn [ret]. unfold bind at 1, toJson, bind at 1.
    rewrite (snapshot_repr _ _ (decoded ++ [entry])).
    + reflexivity.
    + apply Forall2_app.
      * eapply Forall2_impl; [exact Hrepr|]. intros e d Hr.
        by apply repr_app.
      * constructor; [|done]. repeat split. cbn.
        subst s1. cbn. rewrite <- app_assoc.
        by rewrite app_assoc, lookup_app_r, Nat.sub_diag.
Qed.

(** X9. Publishing settles. When [updateEndpoints] has appended the
    tablet's entry, or has updated the ports of its stale entry, and
    the value it returned is read back (the decoder giving the entries
    that were encoded), a second call returns that same value: the
    conditional write then finds nothing to change. This holds also
    where the second scan still takes the entry for stale, as it does
    for ever when the entry's host differs from the tablet's. *)
Theorem updateEndpoints_settles (s s' : State W) (t : TabletInfo)
    (oldValue : string) (st st' : Stat) (host mhost : string) (port mport : Z)
    (published : list VtnsAddrData) :
  mutex (agent s) = false -> _tablet (agent s) = Some t ->
  mutex (agent s') = false -> _tablet (agent s') = Some t ->
  splits (Addr (TabletOf t)) host port ->
  splits (MysqlAddr (TabletOf t)) mhost mport ->
  ((exists decoded,
      ((oldValue = ""%string /\ decoded = []) \/
       (oldValue <> ""%string /\ json_Unmarshal_addrs X oldValue = inl decoded)) /\
      Forall (fun d => dUid d <> Uid (TabletOf t)) decoded /\
      published =
        decoded ++ [mkVtnsAddrData (Uid (TabletOf t)) host 0
                      (Some (port_map port mport))]) \/
   (exists pre d post g,
      oldValue <> ""%string /\
      json_Unmarshal_addrs X oldValue = inl (pre ++ d :: post) /\
      Forall (fun d' => dUid d' <> Uid (TabletOf t)) pre /\
      dUid d = Uid (TabletOf t) /\ dNamedPortMap d = Some g /\
      stale d (TabletOf t) = true /\
      published = pre ++ set_ports port mport d :: post)) ->
  toJson_addrs X published <> ""%string ->
  json_Unmarshal_addrs X (toJson_addrs X published) = inl published ->
  returned (updateEndpoints X oldValue (Some st) s) =
    Some (toJson_addrs X published, None) /\
  returned (updateEndpoints X (toJson_addrs X published) (Some st') s') =
    Some (toJson_addrs X published, None).
Proof.
  intros Hm Ht Hm' Ht' H1 H2 Hcase Hne Hback.
  destruct Hcase as [(decoded & Hold & Hothers & ->)
                    |(pre & d & post & g & Hnonempty & Hdec & Hpre & Hd & Hg & Hstale & ->)].
  - split; [by eapply updateEndpoints_append_run|].
    rewrite <- (app_nil_r (decoded ++ _)) in Hback at 2.
    rewrite <- app_assoc in Hback. cbn [app] in Hback.
    rewrite (updateEndpoints_settled s' t _ st' decoded [] _ host mhost port mport
               Hm' Ht' Hne Hback Hothers eq_refl (port_map_settled _ _ _ _) H1 H2).
    done.
  - split; [by eapply updateEndpoints_stale_entry|].
    by rewrite (updateEndpoints_settled s' t _ st' pre post _ host mhost port mport
                  Hm' Ht' Hne Hback Hpre Hd (set_ports_is_settled d g port mport Hg)
                  H1 H2).
Qed.

(** X10. The update of a stale entry changes two things only. The
    encoder is handed as many entries as were decoded, every entry but
    the first of this tablet as it was decoded; that entry keeps its
    id, its port, every other named port and also its host, which the
    code assigns to the loop's copy of the entry; its two named ports
    are the tablet's afterwards. *)
Theorem updateEndpoints_updates_ports_only (s : State W) (t : TabletInfo)
    (oldValue : string) (st : Stat) (pre post : list VtnsAddrData)
    (d : VtnsAddrData) (g : gmap string Z)
    (host mhost : string) (port mport : Z) :
  mutex (agent s) = false ->
  _tablet (agent s) = Some t ->
  oldValue <> ""%string ->
  json_Unmarshal_addrs X oldValue = inl (pre ++ d :: post) ->
  Forall (fun d' => dUid d' <> Uid (TabletOf t)) pre ->
  dUid d = Uid (TabletOf t) ->
  dNamedPortMap d = Some g ->
  stale d (TabletOf t) = true ->
  splits (Addr (TabletOf t)) host port ->
  splits (MysqlAddr (TabletOf t)) mhost mport ->
  exists d' g',
    let published := pre ++ d' :: post in
    returned (updateEndpoints X oldValue (Some st) s) =
      Some (toJson_addrs X published, None) /\
    length published = length (pre ++ d :: post) /\
    (forall i, i <> length pre -> published !! i = (pre ++ d :: post) !! i) /\
    dUid d' = dUid d /\ dHost d' = dHost d /\ dPort d' = dPort d /\
    dNamedPortMap d' = Some g' /\
    g' !! "_vtocc" = Some port /\ g' !! "_mysql" = Some mport /\
    forall k, k <> "_vtocc"%string -> k <> "_mysql"%string -> g' !! k = g !! k.
Proof.
  intros Hm Ht Hnonempty Hdec Hpre Hd Hg Hstale H1 H2.
  exists (set_ports port mport d), (<["_mysql" := mport]> (<["_vtocc" := port]> g)).
  cbn zeta.
  split; [by eapply updateEndpoints_stale_entry|].
  split; [by rewrite !length_app|].
  split.
  { intros i Hi. destruct (decide (i < length pre)%nat) as [Hlt|Hge].
    - by rewrite !lookup_app_l.
    - rewrite !lookup_app_r by lia.
      destruct (i - length pre)%nat as [|j] eqn:Hj; [lia|done]. }
  unfold set_ports. cbn. rewrite Hg. cbn.
  repeat split; try done.
  - rewrite lookup_insert_ne by done. by rewrite lookup_insert_eq.
  - by rewrite lookup_insert_eq.
  - intros k Hv Hq. by rewrite !lookup_insert_ne.
Qed.

End Directory.

(** ** Publishing: when nothing is written *)

Section Unlisted.
Context {W : Type} (X : Externals W).

Lemma verifyZkServingAddrs_run (s : State W) (t : TabletInfo) (attempts : nat) :
  mutex (agent s) = false ->
  _tablet (agent s) = Some t ->
  verifyZkServingAddrs X attempts s =
    if negb (IsServingType t) then Ret None s
    else
      let s1 := extend s (world s) [EvStore (ZkReadShard (ShardPath t))] in
      match ReadShard X (world s) (ShardPath t) with
      | inr e => Ret (Some e) s1
      | inl shardInfo =>
          if negb (shardInfo (TabletOf t)) then Ret None s1
          else (err <- RetryChange X attempts (serving_path X t) (updateEndpoints X);;
                after_change err) s1
      end.
Proof.
  intros Hm Ht. unfold verifyZkServingAddrs.
  unfold bind at 1. rewrite (TabletDeref_unlocked s t Hm Ht).
  destruct (IsServingType t); [|done]. cbn [negb].
  unfold bind at 1. rewrite (TabletDeref_unlocked s t Hm Ht).
  unfold bind at 1, query, bind at 1, emit, bind at 1, getWorld, ret.
  cbn [world]. destruct (ReadShard X (world s) (ShardPath t)) as [shardInfo|e]; [|done].
  set (s2 := mkState _ _ _ _).
  assert (Hm2 : mutex (agent s2) = false) by done.
  assert (Ht2 : _tablet (agent s2) = Some t) by done.
  unfold bind at 1. rewrite (TabletDeref_unlocked s2 t Hm2 Ht2).
  destruct (shardInfo (TabletOf t)); [|done]. cbn [negb].
  do 4 (unfold bind at 1; rewrite (TabletDeref_unlocked s2 t Hm2 Ht2)).
  reflexivity.
Qed.

(** X11. [verifyZkServingAddrs] stays out of the serving graph until the
    shard lists the tablet. For a tablet of a type that does not serve
    it returns nil without a single call on the store; when the shard
    cannot be read it returns that error; when the shard does not
    contain the tablet it returns nil. In the last two cases the shard
    read is the only call: the directory entry is neither read nor
    written, for any bound on the attempts. *)
Theorem verifyZkServingAddrs_waits_for_shard (s : State W) (t : TabletInfo)
    (attempts : nat) :
  mutex (agent s) = false ->
  _tablet (agent s) = Some t ->
  let run := verifyZkServingAddrs X attempts s in
  let s1 := extend s (world s) [EvStore (ZkReadShard (ShardPath t))] in
  (IsServingType t = false -> run = Ret None s) /\
  (IsServingType t = true ->
   forall e, ReadShard X (world s) (ShardPath t) = inr e -> run = Ret (Some e) s1) /\
  (IsServingType t = true ->
   forall shardInfo,
     ReadShard X (world s) (ShardPath t) = inl shardInfo ->
     shardInfo (TabletOf t) = false -> run = Ret None s1).
Proof.
  intros Hm Ht run s1. subst run s1.
  rewrite (verifyZkServingAddrs_run s t attempts Hm Ht).
  split; [by intros ->|]. split.
  - intros -> e ->. done.
  - intros -> shardInfo -> ->. done.
Qed.

(** X12. A directory entry that does not decode stops the publish:
    [updateEndpoints] returns the decoder's error and an empty value
    in whatever state it is called, without looking at the tablet; the
    conditional write of [verifyZkServingAddrs] then writes nothing,
    and the error is what [verifyZkServingAddrs] returns. *)
Theorem updateEndpoints_decode_failed (oldValue : string) (e : error) :
  oldValue <> ""%string ->
  json_Unmarshal_addrs X oldValue = inr e ->
  (forall (s : State W) st,
      updateEndpoints X oldValue (Some st) s = Ret (""%string, Some e) s) /\
  (forall (s : State W) t shardInfo n st,
      mutex (agent s) = false ->
      _tablet (agent s) = Some t ->
      IsServingType t = true ->
      ReadShard X (world s) (ShardPath t) = inl shardInfo ->
      shardInfo (TabletOf t) = true ->
      zk_Get X (world s) (serving_path X t) = inl (oldValue, st) ->
      e <> skipUpdateErr ->
      verifyZkServingAddrs X (S n) s =
        Ret (Some e)
          (extend s (world s)
             [EvStore (ZkReadShard (ShardPath t));
              EvStore (ZkGet (serving_path X t))])).
Proof.
  intros Hnonempty Hdec.
  assert (Hcb : forall (s : State W) st,
             updateEndpoints X oldValue (Some st) s = Ret (""%string, Some e) s).
  { intros s st. unfold updateEndpoints.
    apply String.eqb_neq in Hnonempty as ->. cbn [negb]. by rewrite Hdec. }
  split; [exact Hcb|].
  intros s t shardInfo n st Hm Ht Hserving Hshard Hin Hget Hskip.
  rewrite (verifyZkServingAddrs_reaches X s t shardInfo (S n)) by done.
  set (s1 := extend s _ _).
  unfold bind at 1. cbn [RetryChange].
  unfold bind at 1, query, bind at 1, emit, bind at 1, getWorld, ret.
  cbn [world]. change (world s1) with (world s). rewrite Hget.
  unfold bind at 1. rewrite Hcb.
  unfold after_change. rewrite bool_decide_eq_false_2 by congruence.
  subst s1. unfold extend. cbn. by rewrite <- !app_assoc.
Qed.

End Unlisted.

(** ** Addresses *)

Section Addresses.
Context {W : Type} (X : Externals W).

Lemma parse_digits_nonneg (s : string) (n : Z) :
  parse_digits s = Some n -> 0 <= n.
Proof.
  unfold parse_digits. destruct s; [done|].
  destruct (NilEmpty.uint_of_string _) as [d|]; [|done].
  intros [= <-]. unfold Z.of_uint. lia.
Qed.

Lemma strconv_ParseInt16_range (s : string) (n : Z) :
  strconv_ParseInt16 s = inl n -> -32768 <= n <= 32767.
Proof.
  unfold strconv_ParseInt16. destruct s as [|c rest]; [done|].
  destruct (if Ascii.eqb c "+" then (false, rest)
            else if Ascii.eqb c "-" then (true, rest)
            else (false, String c rest)) as [neg digits].
  destruct (parse_digits digits) as [un|] eqn:Hp; [|done].
  apply parse_digits_nonneg in Hp.
  destruct neg.
  - destruct (un <=? 32768) eqn:Hle; [|done]. intros [= <-]. lia.
  - destruct (un <? 32768) eqn:Hlt; [|done]. intros [= <-]. lia.
Qed.

Lemma splits_range (addr host : string) (port : Z) :
  splits addr host port -> -32768 <= port <= 32767.
Proof. intros (ps & _ & Hp). by eapply strconv_ParseInt16_range. Qed.

Lemma split_last_eq (c : ascii) (s h p : string) :
  split_last c s = Some (h, p) -> s = h +:+ String c p.
Proof.
  revert h. induction s as [|a s IH]; [done|]. intros h. cbn [split_last].
  destruct (split_last c s) as [[h0 p0]|] eqn:E.
  - intros [= <- <-]. change (String a h0 +:+ String c p0)
      with (String a (h0 +:+ String c p0)). by rewrite (IH h0 eq_refl).
  - destruct (Ascii.eqb_spec a c) as [->|]; [|done]. by intros [= <- <-].
Qed.

Lemma substring_contains (c : ascii) (n : nat) (s : string) :
  contains_char c s = false -> contains_char c (String.substring 0 n s) = false.
Proof.
  revert n. induction s as [|a s IH]; intros [|n]; try done.
  cbn [contains_char String.substring]. intros [Ha Hs]%orb_false_iff.
  by rewrite Ha, (IH n Hs).
Qed.

Lemma index_byte_prefix (c : ascii) (s : string) (e : nat) :
  index_byte c s = Some e -> contains_char c (String.substring 0 e s) = false.
Proof.
  revert e. induction s as [|a s IH]; [done|]. intros e. cbn [index_byte].
  destruct (Ascii.eqb a c) eqn:Ha.
  - by intros [= <-].
  - destruct (index_byte c s) as [e'|]; [|done]. intros [= <-].
    cbn [String.substring contains_char]. by rewrite Ha, (IH e' eq_refl).
Qed.

(** The host [net.SplitHostPort] returns holds no bracket. *)
Lemma net_SplitHostPort_no_brackets (addr host ps : string) :
  net_SplitHostPort addr = inl (host, ps) ->
  contains_char "[" host = false /\ contains_char "]" host = false.
Proof.
  unfold net_SplitHostPort.
  destruct (split_last ":" addr) as [[before port]|] eqn:Hs; [|done].
  destruct (bool_decide (String.get 0 addr = Some "["%char)) eqn:Hb.
  - apply bool_decide_eq_true in Hb.
    destruct addr as [|a rest]; [done|]. cbn in Hb. injection Hb as ->.
    cbn [index_byte]. change (Ascii.eqb "[" "]") with false. cbn iota.
    destruct (index_byte "]" rest) as [e'|] eqn:He; [|done]. cbn [option_map].
    destruct (S e' + 1 =? String.length (String "[" rest))%nat; [done|].
    destruct (S e' + 1 =? String.length before)%nat.
    2:{ by destruct (bool_decide _). }
    change (string_drop 1 (String "[" rest)) with rest.
    destruct (contains_char "[" rest) eqn:Ho; [done|].
    destruct (contains_char "]" _); [done|].
    intros [= <- _]. cbn [String.substring]. rewrite Nat.sub_0_r.
    split; [by apply substring_contains|by apply index_byte_prefix].
  - destruct (contains_char ":" before); [done|].
    destruct (contains_char "[" addr) eqn:Ho; [done|].
    destruct (contains_char "]" addr) eqn:Hc; [done|].
    intros [= <- _]. rewrite (split_last_eq _ _ _ _ Hs), contains_char_app in Ho, Hc.
    by apply orb_false_iff in Ho as [-> _], Hc as [-> _].
Qed.

Lemma splits_no_brackets (addr host : string) (port : Z) :
  splits addr host port ->
  contains_char "[" host = false /\ contains_char "]" host = false.
Proof. intros (ps & Hn & _). by eapply net_SplitHostPort_no_brackets. Qed.

Lemma resolveAddr_run (s : State W) (addr host : string) (port : Z) :
  splits addr host port ->
  resolveAddr X addr s =
    if String.eqb host "" then
      match os_Hostname X (world s) with
      | inl hostname => Ret (hostname +:+ ":" +:+ itoa port) s
      | inr e => Panicked e s
      end
    else Ret (host +:+ ":" +:+ itoa port) s.
Proof.
  intros H. unfold resolveAddr. unfold bind at 1.
  rewrite (splitHostPort_splits s _ _ _ H).
  destruct (String.eqb host ""); [|done].
  unfold bind, getWorld. by destruct (os_Hostname X (world s)).
Qed.

(** An address that is resolved already comes back as it is. *)
Lemma resolveAddr_resolved (s : State W) (h : string) (port : Z) :
  bare_host h -> h <> ""%string -> -32768 <= port <= 32767 ->
  splits (h +:+ ":" +:+ itoa port) h port /\
  resolveAddr X (h +:+ ":" +:+ itoa port) s = Ret (h +:+ ":" +:+ itoa port) s.
Proof.
  intros (Hc & Ho & Hcl) Hne Hr.
  pose proof (port_in_range_splits h port Hc Ho Hcl Hr) as Hs.
  split; [exact Hs|].
  rewrite (resolveAddr_run s _ h port Hs).
  apply String.eqb_neq in Hne. by rewrite Hne.
Qed.

(** X13. For an address that splits, [resolveAddr] keeps a host that
    is given and puts the local hostname for a blank one (panicking
    with the error of [os.Hostname] when that fails); the port is
    printed in decimal, whatever its spelling was. An address made of
    a host name that is not blank and holds neither colon nor bracket
    and of such a port is already resolved: it splits into that host
    and port, and [resolveAddr] returns it as it is. So resolving
    twice is resolving once, for every given host without a colon and
    for every such hostname. *)
Theorem resolveAddr_resolves (s : State W) (addr host : string) (port : Z) :
  splits addr host port ->
  (host <> ""%string ->
   resolveAddr X addr s = Ret (host +:+ ":" +:+ itoa port) s) /\
  (host = ""%string ->
   match os_Hostname X (world s) with
   | inl hostname => resolveAddr X addr s = Ret (hostname +:+ ":" +:+ itoa port) s
   | inr e => resolveAddr X addr s = Panicked e s
   end) /\
  (forall h, bare_host h -> h <> ""%string ->
     splits (h +:+ ":" +:+ itoa port) h port /\
     forall s' : State W,
       resolveAddr X (h +:+ ":" +:+ itoa port) s' = Ret (h +:+ ":" +:+ itoa port) s') /\
  (host <> ""%string -> contains_char ":" host = false ->
   forall s' : State W,
     resolveAddr X (host +:+ ":" +:+ itoa port) s' = Ret (host +:+ ":" +:+ itoa port) s').
Proof.
  intros H. pose proof (resolveAddr_run s addr host port H) as Hrun.
  pose proof (splits_range _ _ _ H) as Hr.
  split; [|split; [|split]].
  - intros Hne. apply String.eqb_neq in Hne. by rewrite Hne in Hrun.
  - intros ->. cbn in Hrun. by destruct (os_Hostname X (world s)).
  - intros h Hb Hne. split.
    + by apply (resolveAddr_resolved s).
    + intros s'. by apply resolveAddr_resolved.
  - intros Hne Hc s'. destruct (splits_no_brackets _ _ _ H) as [Ho Hcl].
    by apply resolveAddr_resolved.
Qed.

Lemma get_last (h : string) (c : ascii) :
  String.get (String.length h) (h +:+ String c "") = Some c.
Proof. induction h as [|a h IH]; [done|]. exact IH. Qed.

Lemma substring_prefix (h r : string) :
  String.substring 0 (String.length h) (h +:+ r) = h.
Proof.
  induction h as [|a h IH]; simpl.
  - by destruct r.
  - by rewrite IH.
Qed.

Lemma length_snoc (h : string) (c : ascii) :
  String.length (h +:+ String c "") = S (String.length h).
Proof. induction h as [|a h IH]; [done|]. simpl. by rewrite IH. Qed.

Lemma append_snoc (h : string) (c : ascii) (r : string) :
  h +:+ String c r = (h +:+ String c "") +:+ r.
Proof.
  induction h as [|a h IH]; [done|].
  change (String a (h +:+ String c r) = String a ((h +:+ String c "") +:+ r)).
  by rewrite <- IH.
Qed.

Lemma length_append (a b : string) :
  String.length (a +:+ b) = (String.length a + String.length b)%nat.
Proof.
  induction a as [|x a IH]; [done|].
  change (String x a +:+ b) with (String x (a +:+ b)). cbn [String.length Nat.add].
  by rewrite IH.
Qed.

Lemma index_byte_app (c : ascii) (h r : string) :
  contains_char c h = false ->
  index_byte c (h +:+ String c r) = Some (String.length h).
Proof.
  induction h as [|a h IH].
  - intros _. change ("" +:+ String c r) with (String c r). cbn.
    by rewrite Ascii.eqb_refl.
  - cbn [contains_char]. intros [Ha Hh]%orb_false_iff.
    change (String a h +:+ String c r) with (String a (h +:+ String c r)).
    cbn [index_byte]. by rewrite Ha, (IH Hh).
Qed.

Lemma string_drop_app (h r : string) :
  string_drop (String.length h) (h +:+ r) = r.
Proof.
  induction h as [|a h IH]; [by destruct r|].
  change (String a h +:+ r) with (String a (h +:+ r)). exact IH.
Qed.

(** A host without brackets of its own, in brackets before the last
    colon, comes out without them. *)
Lemma net_SplitHostPort_brackets (h port : string) :
  contains_char "[" h = false -> contains_char "]" h = false ->
  contains_char ":" port = false ->
  contains_char "[" port = false -> contains_char "]" port = false ->
  net_SplitHostPort ("[" +:+ h +:+ "]:" +:+ port) = inl (h, port).
Proof.
  intros Ho Hc Hp Hpo Hpc.
  change ("[" +:+ h +:+ "]:" +:+ port)
    with (String "[" (h +:+ String "]" (String ":" port))).
  set (hp := String "[" (h +:+ String "]" (String ":" port))).
  assert (Hsplit : split_last ":" hp = Some (String "[" (h +:+ String "]" ""), port)).
  { subst hp. rewrite (append_snoc h "]" (String ":" port)).
    change (String "[" ((h +:+ String "]" "") +:+ String ":" port))
      with ((String "[" (h +:+ String "]" "")) +:+ String ":" port).
    by apply split_last_app. }
  assert (Hidx : index_byte "]" hp = Some (S (String.length h))).
  { subst hp. cbn [index_byte]. change (Ascii.eqb "[" "]") with false. cbn iota.
    by rewrite (index_byte_app "]" h _ Hc). }
  assert (Hlen : String.length hp = (S (String.length h) + 1 + S (String.length port))%nat).
  { subst hp. cbn [String.length]. rewrite length_append. cbn [String.length]. lia. }
  assert (Hdrop : string_drop (S (String.length h) + 1) hp = String ":" port).
  { subst hp. replace (S (String.length h) + 1)%nat
      with (S (String.length (h +:+ String "]" ""))) by (rewrite length_snoc; lia).
    cbn [string_drop]. rewrite (append_snoc h "]" (String ":" port)).
    by rewrite string_drop_app. }
  assert (Hsub : String.substring 1 (S (String.length h) - 1) hp = h).
  { subst hp. cbn [String.substring Nat.sub]. rewrite Nat.sub_0_r.
    by rewrite substring_prefix. }
  unfold net_SplitHostPort. rewrite Hsplit, Hidx, Hlen, Hdrop, Hsub.
  rewrite bool_decide_eq_true_2 by done.
  replace (S (String.length h) + 1 =?
           S (String.length h) + 1 + S (String.length port))%nat with false
    by (symmetry; apply Nat.eqb_neq; lia).
  cbn [String.length]. rewrite length_snoc.
  replace (S (String.length h) + 1 =? S (S (String.length h)))%nat with true
    by (symmetry; apply Nat.eqb_eq; lia).
  change (string_drop 1 hp) with (h +:+ String "]" (String ":" port)).
  rewrite contains_char_app. cbn [contains_char]. rewrite Ho, Hpo, Hpc.
  done.
Qed.

Lemma no_bracket_first (h : string) :
  contains_char "[" h = false -> String.get 0 h <> Some "["%char.
Proof.
  destruct h as [|a h]; [done|]. cbn. intros [Ha _]%orb_false_iff [= ->]. done.
Qed.

Lemma too_many_colons (h port : string) :
  contains_char ":" h = true ->
  String.get 0 h <> Some "["%char ->
  contains_char ":" port = false ->
  net_SplitHostPort (h +:+ ":" +:+ port)
  = inr (OtherError "too many colons in address").
Proof.
  intros Hc Hb Hp. by rewrite net_SplitHostPort_unbracketed, Hc.
Qed.

(** X14. [resolveAddr] takes the brackets off a bracketed host and
    does not put them back: for a host that holds a colon and no
    bracket of its own, as the literal IPv6 addresses do, the address
    it returns has too many colons for [net.SplitHostPort].
    [splitHostPort] panics on it, and so does every later step that
    splits the address of a tablet record it was written to. *)
Theorem resolveAddr_drops_brackets (s : State W) (h : string) (n : Z) :
  contains_char ":" h = true ->
  contains_char "[" h = false ->
  contains_char "]" h = false ->
  -32768 <= n <= 32767 ->
  let resolved := h +:+ ":" +:+ itoa n in
  resolveAddr X ("[" +:+ h +:+ "]:" +:+ itoa n) s = Ret resolved s /\
  net_SplitHostPort resolved = inr (OtherError "too many colons in address") /\
  (forall s' : State W, panicked (splitHostPort resolved s') = true) /\
  (forall s' : State W, panicked (resolveAddr X resolved s') = true) /\
  (forall (s' : State W) tablet,
      Addr tablet = resolved \/ MysqlAddr tablet = resolved ->
      panicked (vtnsAddrForTablet tablet s') = true).
Proof.
  intros Hc Ho Hcl Hn resolved.
  destruct (itoa_no_brackets n) as [Hio Hic].
  assert (Hs : splits ("[" +:+ h +:+ "]:" +:+ itoa n) h n).
  { exists (itoa n).
    split; [by apply net_SplitHostPort_brackets; [..|apply itoa_no_colon| |]|].
    pose proof (strconv_ParseInt16_itoa n) as Hp.
    destruct (strconv_ParseInt16 (itoa n)); [|lia]. by destruct Hp as [-> _]. }
  assert (Hmany : net_SplitHostPort resolved
                  = inr (OtherError "too many colons in address"))
    by (apply too_many_colons; auto using itoa_no_colon, no_bracket_first).
  assert (Hun : unsplittable resolved) by (left; by eexists).
  split.
  { rewrite (resolveAddr_run s _ h n Hs).
    destruct h as [|a h']; [done|]. done. }
  split; [exact Hmany|].
  split; [intros s'; by apply splitHostPort_panics|].
  split; [intros s'; by apply resolveAddr_panics|].
  intros s' tablet [Ha|Ha]; apply vtnsAddrForTablet_panics; rewrite Ha; auto.
Qed.

(** X15. The entry [vtnsAddrForTablet] builds carries one host, that of
    the tablet's address. For a tablet whose MySQL address names
    another host, the scan therefore takes the tablet's own entry for
    stale, whenever it sees it. *)
Theorem two_hosts_always_stale (t : Tablet) (host mhost : string) (port mport : Z) :
  splits (Addr t) host port ->
  splits (MysqlAddr t) mhost mport ->
  plain_host host ->
  mhost <> host ->
  (forall s : State W,
      returned (vtnsAddrForTablet t s) =
        Some (mkVtnsAddr (Uid t) host 0 (Some (length (maps s))))) /\
  stale (mkVtnsAddrData (Uid t) host 0 (Some (port_map port mport))) t = true.
Proof.
  intros H1 H2 [Hc Hb] Hne. split.
  { intros s. by rewrite (vtnsAddrForTablet_ok s t host mhost port mport H1 H2). }
  unfold stale. apply orb_true_iff. right. apply negb_true_iff, String.eqb_neq.
  unfold named_addr, port_map. cbn [dHost dNamedPortMap mbind option_bind].
  rewrite lookup_insert_eq. cbn [default].
  intros Heq.
  destruct (splits_no_brackets _ _ _ H1) as [Ho Hcl].
  pose proof (port_in_range_splits host mport Hc Ho Hcl (splits_range _ _ _ H2))
    as (ps & Hn & _).
  change (id mport) with mport in Heq.
  destruct H2 as (ps' & Hn' & _). rewrite <- Heq in Hn'. congruence.
Qed.

End Addresses.

(** ** Starting the agent *)

Section Starting.
Context {W : Type} (X : Externals W).

Lemma Start_resolve_failed (attempts : nat) (bindAddr mysqlAddr : string)
    (s : State W) (t : TabletInfo) (e : error) (s2 : State W) :
  mutex (agent s) = false ->
  ReadTablet X (world s) (zkTabletPath (agent s)) = inl t ->
  resolvePaths X (after_refresh s t) = Ret (Some e) s2 ->
  Start X attempts bindAddr mysqlAddr s = Panicked e s2.
Proof.
  intros Hm Hr Hres. unfold Start. unfold bind at 1.
  rewrite (readTablet_ok X s t Hm Hr).
  unfold bind at 1, panicOn at 1, ret at 1. unfold bind at 1.
  by rewrite Hres.
Qed.

(** X16. [Start] stops at its first failing step, before it has written
    anything. When the tablet record cannot be read, it panics with
    the error of the read, having done nothing else. When the record
    was read and an agent that has no path yet finds no executor on
    disk, or an executor and no configuration file, it panics with the
    error of [resolvePaths]; the read of the record is then the only
    call on the store. *)
Theorem Start_stops_before_writing (attempts : nat) (bindAddr mysqlAddr : string)
    (s : State W) :
  let run := Start X attempts bindAddr mysqlAddr s in
  (forall e, ReadTablet X (world s) (zkTabletPath (agent s)) = inr e ->
             run = Panicked e (after_failed_read s)) /\
  (forall t,
      mutex (agent s) = false ->
      vtActionBinPath (agent s) = ""%string ->
      MycnfPath (agent s) = ""%string ->
      ReadTablet X (world s) (zkTabletPath (agent s)) = inl t ->
      match List.find (os_Stat X (world s)) (vtActionBinPaths X) with
      | None =>
          run = Panicked (OtherError "no vtaction binary found") (after_refresh s t)
      | Some bin =>
          List.find (os_Stat X (world s)) (mycnfPaths (Uid (TabletOf t))) = None ->
          run = Panicked (OtherError "no my.cnf found")
                  (with_agent (after_refresh s t)
                     (with_bin bin (agent (after_refresh s t))))
      end).
Proof.
  intros run. subst run. split.
  - intros e He. unfold Start. unfold bind at 1.
    by rewrite (readTablet_failed X s e He).
  - intros t Hm Hb Hc Hr.
    pose proof (resolvePaths_run X (after_refresh s t) t eq_refl eq_refl Hb Hc) as Hres.
    change (world (after_refresh s t)) with (world s) in Hres.
    destruct (List.find (os_Stat X (world s)) (vtActionBinPaths X)) as [bin|].
    + intros Hnone. rewrite Hnone in Hres.
      by apply (Start_resolve_failed attempts bindAddr mysqlAddr s t).
    + by apply (Start_resolve_failed attempts bindAddr mysqlAddr s t).
Qed.

End Starting.

(** ** The rpc service of barnacle *)

Section Service.
Import Barnacle.
Local Open Scope barnacle_scope.
Context {W BindVars QueryResult SendReply : Type}.
Context (V : Services W BindVars QueryResult SendReply).

(** X17. Only one instance can be created. On a process in which
    [RpcBarnacle] is nil, [Init] returns with [RpcBarnacle] set to a
    service that carries the protocol, the delay and the count it was
    given, and registers that service last. Every further [Init] ends
    the process with its message, before it builds or registers
    anything: the first service stays in place. *)
Theorem Init_only_once (cell tabletProtocol portName : string)
    (retryDelay retryCount : Z) (s : State W) :
  RpcBarnacle s = None ->
  exists b s1,
    Init V cell tabletProtocol portName retryDelay retryCount s = Returns tt s1 /\
    RpcBarnacle s1 = Some b /\
    Barnacle.tabletProtocol b = tabletProtocol /\
    Barnacle.retryDelay b = retryDelay /\ Barnacle.retryCount b = retryCount /\
    last (calls s1) = Some (RegisterAuthenticated b) /\
    forall cell' tabletProtocol' portName' retryDelay' retryCount',
      Init V cell' tabletProtocol' portName' retryDelay' retryCount' s1 =
        Exits (after s1 (world s1) [Fatalf "Barnacle already initialized"]).
Proof.
  intros Hnil. unfold Init.
  unfold bind at 1. rewrite Hnil.
  unfold bind at 1, invoke at 1. cbn [world RpcBarnacle calls].
  destruct (topo_GetServer V (world s)) as [server w1].
  unfold bind at 1, invoke at 1. cbn [world RpcBarnacle calls].
  destruct (NewBalancerMap V w1 server cell portName) as [bm w2].
  unfold bind at 1, invoke at 1. cbn [world RpcBarnacle calls].
  destruct (pools_NewNumbered V w2) as [pool w3].
  unfold bind at 1, invoke at 1. cbn [world RpcBarnacle calls].
  eexists _, _. split; [reflexivity|]. cbn [RpcBarnacle calls].
  split; [reflexivity|]. split; [done|]. split; [done|]. split; [done|].
  split; [by rewrite last_snoc|].
  intros. unfold bind at 1. reflexivity.
Qed.

(** X18. [GetSessionId] does not look at what the registration of the
    new connection returns: whether [Register] reports an error or
    not, it returns nil and hands out the id of the connection it
    made. *)
Theorem GetSessionId_ignores_Register (bnc : Barnacle)
    (sessionParams : SessionParams) (sessionInfo : SessionInfo) (s : State W)
    (vtconn : VTConn) (w1 w2 : W) (err : option error) :
  NewVTConn V (world s) (balancerMap bnc) (Barnacle.tabletProtocol bnc)
    (TabletType sessionParams) (Barnacle.retryDelay bnc) (Barnacle.retryCount bnc)
    = (vtconn, w1) ->
  Register V w1 (connections bnc) (Id vtconn) (VConn vtconn) = (err, w2) ->
  GetSessionId V bnc sessionParams sessionInfo s =
    Returns (mkSessionInfo (Id vtconn), None)
      (after s w2 [NewVTConnCall (TabletType sessionParams);
                   PoolRegister (connections bnc) (Id vtconn)]).
Proof.
  intros Hnew Hreg. unfold GetSessionId.
  unfold bind at 1, invoke at 1. rewrite Hnew.
  unfold bind at 1, invoke at 1. cbn [world RpcBarnacle calls]. rewrite Hreg.
  unfold after. cbn. by rewrite <- app_assoc.
Qed.

Ltac run_session Hget :=
  unfold bind at 1, poolGet, invoke at 1; rewrite Hget;
  unfold defer, poolPut, poolUnregister, bind, assertVTConn, invoke, ret, panic,
    after;
  cbn [world RpcBarnacle calls].

(** X19. Every method that works on a session takes its connection out
    of the pool once and, when it got it, puts it back once, as the
    last thing it does, whether the call on the connection succeeds,
    fails or the pooled value is no connection and the method panics.
    When the session cannot be taken, nothing is put back and no
    connection is called. None of these methods ends the process. *)
Theorem session_methods_put_back (bnc : Barnacle) (query : Query BindVars)
    (session : Session) (reply : QueryResult) (sendReply : SendReply)
    (txInfo : TransactionInfo) (s : State W) :
  let sc := session_calls V bnc in
  (let r := Execute V bnc query reply s in
   exited r = false /\
   calls (final r) =
     calls s ++ sc (QSessionId query) (world s) (fun c => ConnExecute c (Sql query))) /\
  (let r := StreamExecute V bnc query sendReply s in
   exited r = false /\
   calls (final r) =
     calls s ++
     sc (QSessionId query) (world s) (fun c => ConnStreamExecute c (Sql query))) /\
  (let r := Begin V bnc session txInfo s in
   exited r = false /\
   calls (final r) = calls s ++ sc (SessionId session) (world s) ConnBegin) /\
  (let r := Commit V bnc session s in
   exited r = false /\
   calls (final r) = calls s ++ sc (SessionId session) (world s) ConnCommit) /\
  (let r := Rollback V bnc session s in
   exited r = false /\
   calls (final r) = calls s ++ sc (SessionId session) (world s) ConnRollback).
Proof.
  intros sc. subst sc.
  unfold session_calls, Execute, StreamExecute, Begin, Commit, Rollback.
  unfold bind, poolGet, defer, poolPut, assertVTConn, invoke, ret, panic.
  cbn [world RpcBarnacle calls].
  destruct (Get V (world s) (connections bnc) (QSessionId query))
    as [[[c|]|err] w1];
    destruct (Get V (world s) (connections bnc) (SessionId session))
      as [[[c'|]|err'] w1'].
  all: cbn [world RpcBarnacle calls fst on_conn].
  all: repeat match goal with
         | |- context [conn_Execute V ?w ?c ?a ?b ?d ?e] =>
             destruct (conn_Execute V w c a b d e) as [[[q|] [e0|]] w2]
         | |- context [conn_StreamExecute V ?w ?c ?a ?b ?d ?e ?f] =>
             destruct (conn_StreamExecute V w c a b d e f) as [e1 w3]
         | |- context [conn_Begin V ?w ?c] =>
             destruct (conn_Begin V w c) as [[i e2] w4]
         | |- context [conn_Commit V ?w ?c] =>
             destruct (conn_Commit V w c) as [e3 w5]
         | |- context [conn_Rollback V ?w ?c] =>
             destruct (conn_Rollback V w c) as [e4 w6]
         end.
  all: cbn [world RpcBarnacle calls final exited].
  all: rewrite <- ?app_assoc; cbn [app].
  all: by repeat split.
Qed.

Lemma Execute_run (bnc : Barnacle) (query : Query BindVars)
    (reply : QueryResult) (s : State W) :
  let pool := connections bnc in
  let id := QSessionId query in
  Execute V bnc query reply s =
    match Get V (world s) pool id with
    | (inr err, w1) => Returns (reply, Some err) (after s w1 [PoolGet pool id])
    | (inl VOther, w1) =>
        Panics (OtherError "interface conversion: interface is not *VTConn")
          (after s (Put V w1 pool id) [PoolGet pool id; PoolPut pool id])
    | (inl (VConn c), w1) =>
        let '(qr, e, w2) :=
          conn_Execute V w1 c (Sql query) (BindVariables query) (QKeyspace query)
            (Shards query) in
        let s' := after s (Put V w2 pool id)
                    [PoolGet pool id; ConnExecute c (Sql query); PoolPut pool id] in
        match e, qr with
        | Some err, _ => Returns (reply, Some err) s'
        | None, Some q => Returns (q, None) s'
        | None, None =>
            Panics (OtherError "invalid memory address or nil pointer dereference") s'
        end
    end.
Proof.
  intros pool id. subst pool id. unfold Execute.
  destruct (Get V (world s) (connections bnc) (QSessionId query))
    as [[[c|]|err] w1] eqn:Hget.
  all: run_session Hget.
  - destruct (conn_Execute V w1 c (Sql query) (BindVariables query)
                (QKeyspace query) (Shards query)) as [[[q|] [e|]] w2].
    all: cbn; by rewrite <- !app_assoc.
  - by rewrite <- !app_assoc.
  - done.
Qed.

(** X20. [Execute] writes the reply only when the query succeeded: on
    an error of the pool or of the connection, what the caller had in
    the reply is still there and the error is returned. A connection
    that reports neither a result nor an error makes [Execute] panic,
    and the session is put back all the same. *)
Theorem Execute_guards_reply (bnc : Barnacle) (query : Query BindVars)
    (reply : QueryResult) (s : State W) :
  let run := Execute V bnc query reply s in
  (forall r e, returned run = Some (r, Some e) -> r = reply) /\
  (forall c w1 qr e w2,
      Get V (world s) (connections bnc) (QSessionId query) = (inl (VConn c), w1) ->
      conn_Execute V w1 c (Sql query) (BindVariables query) (QKeyspace query)
        (Shards query) = ((qr, e), w2) ->
      match e, qr with
      | Some err, _ => returned run = Some (reply, Some err)
      | None, Some q => returned run = Some (q, None)
      | None, None =>
          returned run = None /\
          last (calls (final run)) =
            Some (PoolPut (connections bnc) (QSessionId query))
      end).
Proof.
  intros run. subst run. rewrite Execute_run. cbn zeta.
  destruct (Get V (world s) (connections bnc) (QSessionId query))
    as [[[c|]|err] w1] eqn:Hget.
  - destruct (conn_Execute V w1 c (Sql query) (BindVariables query)
                (QKeyspace query) (Shards query)) as [[qr e] w2] eqn:Hex.
    split.
    + intros r e'. destruct e as [e0|]; [|destruct qr]; cbn; congruence.
    + intros c' w1' qr' e' w2' [= <- <-] Hex'. rewrite Hex in Hex'.
      injection Hex' as <- <- <-.
      destruct e as [e0|]; [done|]. destruct qr; [done|].
      cbn [returned final calls after]. split; [done|].
      change [PoolGet (connections bnc) (QSessionId query);
              ConnExecute c (Sql query);
              PoolPut (connections bnc) (QSessionId query)]
        with ([PoolGet (connections bnc) (QSessionId query);
               ConnExecute c (Sql query)]
              ++ [PoolPut (connections bnc) (QSessionId query)]).
      by rewrite app_assoc, last_snoc.
  - split; [done|]. intros; congruence.
  - split; [cbn; congruence|]. intros; congruence.
Qed.

(** X21. [Begin] has no such guard: whatever the connection returns
    from its [Begin] is written to the transaction info, the id that
    comes with an error too, and the error is returned beside it. *)
Theorem Begin_overwrites (bnc : Barnacle) (session : Session)
    (txInfo : TransactionInfo) (s : State W) (c : VTConn) (w1 w2 : W)
    (id : Z) (err : option error) :
  Get V (world s) (connections bnc) (SessionId session) = (inl (VConn c), w1) ->
  conn_Begin V w1 c = ((id, err), w2) ->
  Begin V bnc session txInfo s =
    Returns (mkTransactionInfo id, err)
      (after s (Put V w2 (connections bnc) (SessionId session))
         [PoolGet (connections bnc) (SessionId session); ConnBegin c;
          PoolPut (connections bnc) (SessionId session)]).
Proof.
  intros Hget Hbegin. unfold Begin. run_session Hget.
  rewrite Hbegin. cbn. by rewrite <- !app_assoc.
Qed.

Lemma CloseSession_run (bnc : Barnacle) (session : Session) (s : State W) :
  let pool := connections bnc in
  let id := SessionId session in
  CloseSession V bnc session s =
    match Get V (world s) pool id with
    | (inr err, w1) => Returns (Some err) (after s w1 [PoolGet pool id])
    | (inl (VConn c), w1) =>
        Returns None
          (after s (Unregister V (conn_Close V w1 c) pool id)
             [PoolGet pool id; ConnClose c; PoolUnregister pool id])
    | (inl VOther, w1) =>
        Panics (OtherError "interface conversion: interface is not *VTConn")
          (after s (Unregister V w1 pool id)
             [PoolGet pool id; PoolUnregister pool id])
    end.
Proof.
  intros pool id. subst pool id. unfold CloseSession.
  destruct (Get V (world s) (connections bnc) (SessionId session))
    as [[[c|]|err] w1] eqn:Hget.
  all: run_session Hget; by rewrite <- ?app_assoc.
Qed.

(** X22. [CloseSession] returns the error of the pool when the session
    cannot be taken, and then closes and drops nothing. When it got
    the session it closes the connection, drops the session from the
    pool after that, and returns nil; it never puts the session back.
    The session is dropped also when the pooled value is no connection
    and the method panics. *)
Theorem CloseSession_unregisters (bnc : Barnacle) (session : Session) (s : State W) :
  let pool := connections bnc in
  let id := SessionId session in
  let run := CloseSession V bnc session s in
  match Get V (world s) pool id with
  | (inr err, w1) => run = Returns (Some err) (after s w1 [PoolGet pool id])
  | (inl (VConn c), w1) =>
      run = Returns None
              (after s (Unregister V (conn_Close V w1 c) pool id)
                 [PoolGet pool id; ConnClose c; PoolUnregister pool id])
  | (inl VOther, w1) =>
      returned run = None /\
      final run = after s (Unregister V w1 pool id)
                    [PoolGet pool id; PoolUnregister pool id]
  end /\
  count (is_put pool id) (calls (final run)) = count (is_put pool id) (calls s).
Proof.
  intros pool id run. subst pool id run. rewrite CloseSession_run. cbn zeta.
  destruct (Get V (world s) (connections bnc) (SessionId session))
    as [[[c|]|err] w1] eqn:Hget.
  all: cbn [final returned calls after].
  all: unfold count; rewrite List.filter_app, length_app; cbn.
  all: unfold is_put; rewrite ?bool_decide_eq_false_2 by done; cbn.
  all: repeat split; lia.
Qed.

End Service.

(** ** Readers beside a refresh always get through *)

Section Progress.

Lemma held_by_one_step (i : nat) (m m' : machine) :
  exclusive m -> held_by_one m -> step_goroutine i m = Some m' -> held_by_one m'.
Proof.
  intros (Hwf & Hheld & Hone) Hh
    (ins & rest & l & a & l' & Hi & Hs & ->)%step_goroutine_inv.
  pose proof (Hwf i _ Hi) as Hcode. cbn in Hcode.
  apply method_code_tail in Hcode as (Hrest & Hlock & Hmid & Hunlock).
  assert (Hlt : (i < length (goroutines m))%nat) by (by eapply lookup_lt_Some).
  assert (Hself : <[i := mkGoroutine rest l']> (goroutines m) !! i
                  = Some (mkGoroutine rest l'))
    by (by rewrite list_lookup_insert_eq).
  unfold held_by_one. cbn [shared goroutines]. intros Hmu.
  destruct ins; cbn in Hs.
  - destruct (mutex (shared m)); [done|]. injection Hs as <- <-.
    exists i, (mkGoroutine rest l). split; [done|]. by apply Hlock.
  - destruct (mutex (shared m)); [|done]. by injection Hs as <- <-.
  - injection Hs as <- <-. exists i, (mkGoroutine rest l).
    split; [done|]. by apply Hmid.
  - injection Hs as <- <-. exists i, (mkGoroutine rest (Some (_tablet (shared m)))).
    split; [done|]. by apply Hmid.
Qed.

Lemma invariants_run (sched : list nat) (m : machine) :
  exclusive m -> held_by_one m ->
  exclusive (run_schedule sched m) /\ held_by_one (run_schedule sched m).
Proof.
  revert m. induction sched as [|i sched IH]; intros m He Hh; [done|].
  cbn [run_schedule]. destruct (step_goroutine i m) as [m'|] eqn:Hs; cbn.
  - apply IH; [by eapply exclusive_step|by eapply held_by_one_step].
  - by apply IH.
Qed.

Lemma unfinished_goroutine (l : list goroutine) :
  (forall i g, l !! i = Some g -> code g = []) \/
  (exists i g, l !! i = Some g /\ code g <> []).
Proof.
  induction l as [|g l [IH|(i & g' & Hi & Hne)]].
  - left. by intros i g.
  - destruct (code g) as [|ins rest] eqn:Hg.
    + left. intros [|i] g'; cbn; [by intros [= <-]|apply IH].
    + right. exists 0%nat, g. split; [done|]. by rewrite Hg.
  - right. by exists (S i), g'.
Qed.

(** With the mutex doing its work, some goroutine can take a step as
    long as one has a step to take. *)
Lemma machine_progress (m : machine) :
  exclusive m -> held_by_one m ->
  finished m \/ exists i m', step_goroutine i m = Some m'.
Proof.
  intros (Hwf & Hheld & Hone) Hh.
  destruct (mutex (shared m)) eqn:Hmu.
  - right. destruct (Hh Hmu) as (i & [c l] & Hi & Hcrit). exists i.
    unfold step_goroutine. rewrite Hi. cbn in Hcrit.
    destruct c as [|ins rest]; [done|].
    destruct ins; cbn in *; try done; rewrite ?Hmu; by eexists.
  - destruct (unfinished_goroutine (goroutines m)) as [Hfin|(i & [c l] & Hi & Hne)];
      [by left|right].
    exists i. unfold step_goroutine. rewrite Hi. cbn in Hne.
    destruct c as [|ins rest]; [done|].
    assert (Hnc : critical (ins :: rest) = false).
    { destruct (critical (ins :: rest)) eqn:Hc; [|done].
      by pose proof (Hheld i _ Hi Hc). }
    pose proof (Hwf i _ Hi) as Hcode. cbn in Hcode.
    destruct ins; cbn in Hnc; try done.
    cbn. rewrite Hmu. by eexists.
Qed.

Lemma remaining_insert (l : list goroutine) (i : nat) (ins : instr)
    (rest : list instr) (lo lo' : option (option TabletInfo)) :
  l !! i = Some (mkGoroutine (ins :: rest) lo) ->
  sum_list (map (fun g => length (code g)) l) =
    S (sum_list (map (fun g => length (code g)) (<[i := mkGoroutine rest lo']> l))).
Proof.
  revert i. induction l as [|g l IH]; intros [|i] Hi; try done.
  - cbn in Hi. injection Hi as ->. cbn. lia.
  - cbn in Hi. cbn. rewrite (IH i Hi). by rewrite Nat.add_succ_r.
Qed.

Lemma remaining_step (i : nat) (m m' : machine) :
  step_goroutine i m = Some m' -> remaining m = S (remaining m').
Proof.
  intros (ins & rest & l & a & l' & Hi & Hs & ->)%step_goroutine_inv.
  unfold remaining. cbn [goroutines]. by eapply remaining_insert.
Qed.

Lemma remaining_finished (m : machine) : remaining m = 0%nat -> finished m.
Proof.
  unfold remaining, finished. induction (goroutines m) as [|g l IH]; [done|].
  cbn. intros H [|i] g'; cbn.
  - intros [= <-]. destruct (code g); [done|]. cbn in H. lia.
  - apply IH. lia.
Qed.

Lemma finished_remaining (m : machine) : finished m -> remaining m = 0%nat.
Proof.
  unfold remaining, finished. induction (goroutines m) as [|g l IH]; [done|].
  intros H. cbn. rewrite (H 0%nat g eq_refl). cbn. apply IH.
  intros i g'. apply (H (S i)).
Qed.

Lemma machine_completes (k : nat) (m : machine) :
  remaining m = k -> exclusive m -> held_by_one m ->
  exists sched, length sched = k /\ finished (run_schedule sched m).
Proof.
  revert m. induction k as [|k IH]; intros m Hk He Hh.
  - exists []. split; [done|]. by apply remaining_finished.
  - destruct (machine_progress m He Hh) as [Hfin|(i & m' & Hs)].
    + apply finished_remaining in Hfin. lia.
    + destruct (IH m') as (sched & Hlen & Hfin).
      * apply remaining_step in Hs. lia.
      * by eapply exclusive_step.
      * by eapply held_by_one_step.
      * exists (i :: sched). split; [cbn; lia|]. cbn [run_schedule].
        by rewrite Hs.
Qed.

Lemma remaining_readers (n : nat) :
  sum_list (map (fun g => length (code g))
              (replicate n (mkGoroutine Tablet_code None))) = (3 * n)%nat.
Proof.
  induction n as [|n IH]; [done|].
  change (replicate (S n) (mkGoroutine Tablet_code None))
    with (mkGoroutine Tablet_code None :: replicate n (mkGoroutine Tablet_code None)).
  rewrite map_cons.
  change (sum_list (?x :: ?l)) with (x + sum_list l)%nat.
  rewrite IH. cbn [code Tablet_code length]. lia.
Qed.

Lemma remaining_initial (a : ActionAgent) (tablet : TabletInfo) (n : nat) :
  remaining (refresh_beside_readers a tablet n) = (3 * (n + 1))%nat.
Proof.
  unfold remaining, refresh_beside_readers. cbn [goroutines]. rewrite map_cons.
  change (sum_list (?x :: ?l)) with (x + sum_list l)%nat.
  rewrite remaining_readers. cbn [code readTablet_code length]. lia.
Qed.

(** X23. The cache cannot deadlock. In the machine in which one
    goroutine refreshes the cache and any number of others read it,
    scheduled in any order and stopped at any point: as long as a
    goroutine has a step left, one of them can take a step; some
    continuation, of exactly as many steps as are left, lets every
    goroutine finish; and when all have finished the mutex is free. *)
Theorem cache_never_deadlocks (a : ActionAgent) (tablet : TabletInfo)
    (n : nat) (sched : list nat) :
  mutex a = false ->
  let m := run_schedule sched (refresh_beside_readers a tablet n) in
  (finished m \/ exists i m', step_goroutine i m = Some m') /\
  (exists rest, length rest = remaining m /\ finished (run_schedule rest m)) /\
  (finished m -> mutex (shared m) = false) /\
  remaining (refresh_beside_readers a tablet n) = (3 * (n + 1))%nat.
Proof.
  intros Hm m.
  assert (He0 : exclusive (refresh_beside_readers a tablet n))
    by exact (proj1 (refresh_beside_readers_run a tablet n [] Hm)).
  assert (Hh0 : held_by_one (refresh_beside_readers a tablet n)).
  { intros Hmu. cbn in Hmu. congruence. }
  destruct (invariants_run sched _ He0 Hh0) as [He Hh]. fold m in He, Hh.
  split; [by apply machine_progress|].
  split; [by apply (machine_completes (remaining m) m)|].
  split.
  - intros Hfin. destruct (mutex (shared m)) eqn:Hmu; [|done].
    destruct (Hh Hmu) as (i & g & Hi & Hcrit).
    by rewrite (Hfin i g Hi) in Hcrit.
  - apply remaining_initial.
Qed.

End Progress.

(** ** More runs in the sample world *)

Section MoreRuns.
Import Sample Cases.

Lemma resolvePaths_first_existing_witness :
  (returned (resolvePaths X s_new) = Some None /\
   first_found X w0 (vtActionBinPaths X)
     (vtActionBinPath (agent (final (resolvePaths X s_new)))) /\
   first_found X w0 (mycnfPaths 7)
     (MycnfPath (agent (final (resolvePaths X s_new))))) /\
  panicked (resolvePaths X s_blank) = true /\
  resolvePaths X s_bare
    = Ret (Some (OtherError "no vtaction binary found")) s_bare.
Proof.
  assert (Hbins : Exists (fun p => os_Stat X w0 p = true) (vtActionBinPaths X)).
  { apply List.Exists_cons_tl, List.Exists_cons_hd. vm_compute; reflexivity. }
  split; [|split].
  - destruct (resolvePaths_first_existing X s_new eq_refl eq_refl eq_refl)
      as (_ & _ & _ & Hfound & _).
    destruct (Hfound Hbins) as (Hbin & _ & Hiff & Hcnf & _).
    assert (Hcnfs : Exists (fun p => os_Stat X w0 p = true) (mycnfPaths 7)).
    { apply List.Exists_cons_tl, List.Exists_cons_tl, List.Exists_cons_hd.
      vm_compute; reflexivity. }
    split; [by apply Hiff|]. split; [exact Hbin|]. exact (Hcnf Hcnfs).
  - destruct (resolvePaths_first_existing X s_blank eq_refl eq_refl eq_refl)
      as (_ & _ & _ & _ & Hpanic & _).
    apply Hpanic. split; [exact Hbins|reflexivity].
  - destruct (resolvePaths_first_existing X s_bare eq_refl eq_refl eq_refl)
      as (_ & _ & Hnone & _).
    apply Hnone. intros H.
    apply List.Exists_exists in H. destruct H as (p & Hin & Hp).
    cbn in Hin. destruct Hin as [<-|[<-|[]]]; vm_compute in Hp; discriminate.
Defined.

Lemma dispatchAction_launches_witness :
  launched (trace (final (dispatchAction X path3 s0))) =
    launched (trace s0) ++ launch_of X agent0 w0 path3 /\
  launch_of X agent0 w0 path3 =
    [action_cmd X agent0 path3 (mkActionNode "SetAddr" ("guid-of-" +:+ path3))].
Proof.
  split.
  - exact (proj1 (proj2 (dispatchAction_launches X s0 path3 eq_refl))).
  - vm_compute; reflexivity.
Defined.

Lemma actionEventLoop_reads_only_witness :
  exists s',
    actionEventLoop X 2 s0 = Ret tt s' /\
    writes (trace s') = writes (trace s0) /\
    (listings (trace s0) + 2 <= listings (trace s'))%nat /\
    same_paths (agent s0) (agent s').
Proof. exact (actionEventLoop_reads_only X 2 s0 eq_refl). Defined.

Lemma actionEventLoop_backs_off_witness :
  actionEventLoop X 2 s_down =
    Ret tt (extend s_down (slept X 2 w_down)
              (concat (replicate 2
                         (backoff_events action_path (ZkError ZCONNECTIONLOSS))))).
Proof.
  apply (actionEventLoop_backs_off X 2 s_down (ZkError ZCONNECTIONLOSS)).
  intros [|[|k]] Hk; [reflexivity|reflexivity|lia].
Defined.

Lemma actionEventLoopBody_other_event_witness :
  Event_Ok X (mkEvent EVENT_CHILD 0) = false /\
  actionEventLoopBody X s_unhealthy =
    Ret tt (extend (woken s_unhealthy1 (Some 0%nat) w_unhealthy2)
              (time_Sleep X w_unhealthy2 5)
              [EvLog Warning "zookeeper not OK: %v" [LEvent (mkEvent EVENT_CHILD 0)];
               EvSleep 5]).
Proof.
  split; [reflexivity|].
  assert (H0 : handleActionQueue X s_unhealthy = Ret (Some 0%nat, None) s_unhealthy1)
    by (vm_compute; reflexivity).
  assert (Hr : chan_recv X (world s_unhealthy1) (Some 0%nat)
               = (mkEvent EVENT_CHILD 0, w_unhealthy2))
    by (vm_compute; reflexivity).
  exact (proj1 (actionEventLoopBody_other_event X s_unhealthy s_unhealthy1
                  (Some 0%nat) (mkEvent EVENT_CHILD 0) w_unhealthy2 H0 Hr
                  (or_introl eq_refl))).
Defined.

Lemma sample_splits :
  splits "vt7:6700" "vt7" 6700 /\ splits "vt7:3306" "vt7" 3306 /\
  splits "db7:3306" "db7" 3306 /\ splits ":6700" "" 6700.
Proof.
  repeat split.
  - exists "6700"%string. split; vm_compute; reflexivity.
  - exists "3306"%string. split; vm_compute; reflexivity.
  - exists "3306"%string. split; vm_compute; reflexivity.
  - exists "6700"%string. split; vm_compute; reflexivity.
Defined.

Lemma updateEndpoints_keeps_fresh_entry_witness :
  returned (updateEndpoints X' (addrs_to_json [other_entry; fresh_entry; stale_entry])
              (Some (mkStat 0)) s0)
  = Some (addrs_to_json [other_entry; fresh_entry; stale_entry], None).
Proof.
  assert (Hne : addrs_to_json [other_entry; fresh_entry; stale_entry] <> ""%string)
    by (vm_compute; discriminate).
  assert (Hdec : json_Unmarshal_addrs X'
                   (addrs_to_json [other_entry; fresh_entry; stale_entry])
                 = inl ([other_entry] ++ fresh_entry :: [stale_entry]))
    by (vm_compute; reflexivity).
  assert (Hpre : Forall (fun d' => dUid d' <> Uid (TabletOf tablet0)) [other_entry])
    by (constructor; [vm_compute; discriminate|constructor]).
  assert (Hfresh : stale fresh_entry (TabletOf tablet0) = false)
    by (vm_compute; reflexivity).
  exact (proj1 (updateEndpoints_keeps_fresh_entry X' s0 tablet0 _ (mkStat 0)
                  [other_entry] [stale_entry] fresh_entry
                  eq_refl eq_refl Hne Hdec Hpre eq_refl Hfresh)).
Defined.

Lemma updateEndpoints_nil_map_panics_witness :
  panicked (updateEndpoints X' (addrs_to_json [other_entry; bare_entry])
              (Some (mkStat 0)) s0) = true.
Proof.
  assert (Hne : addrs_to_json [other_entry; bare_entry] <> ""%string)
    by (vm_compute; discriminate).
  assert (Hdec : json_Unmarshal_addrs X' (addrs_to_json [other_entry; bare_entry])
                 = inl ([other_entry] ++ bare_entry :: []))
    by (vm_compute; reflexivity).
  assert (Hpre : Forall (fun d' => dUid d' <> Uid (TabletOf tablet0)) [other_entry])
    by (constructor; [vm_compute; discriminate|constructor]).
  assert (Hstale : stale bare_entry (TabletOf tablet0) = true)
    by (vm_compute; reflexivity).
  exact (proj1 (proj2 (updateEndpoints_nil_map_panics X' s0 tablet0 _ (mkStat 0)
                         [other_entry] [] bare_entry
                         eq_refl eq_refl Hne Hdec Hpre eq_refl eq_refl Hstale))).
Defined.

Lemma updateEndpoints_settles_witness :
  returned (updateEndpoints X' (addrs_to_json [other_entry]) (Some (mkStat 0)) s0)
  = Some (addrs_to_json [other_entry; fresh_entry], None) /\
  returned (updateEndpoints X' (addrs_to_json [other_entry; fresh_entry])
              (Some (mkStat 1)) s0)
  = Some (addrs_to_json [other_entry; fresh_entry], None).
Proof.
  destruct sample_splits as (H1 & H2 & _).
  assert (Hne : addrs_to_json [other_entry] <> ""%string)
    by (vm_compute; discriminate).
  assert (Hdec : json_Unmarshal_addrs X' (addrs_to_json [other_entry])
                 = inl [other_entry])
    by (vm_compute; reflexivity).
  assert (Hpre : Forall (fun d' => dUid d' <> Uid (TabletOf tablet0)) [other_entry])
    by (constructor; [vm_compute; discriminate|constructor]).
  assert (Hne' : toJson_addrs X' [other_entry; fresh_entry] <> ""%string)
    by (vm_compute; discriminate).
  assert (Hback : json_Unmarshal_addrs X' (toJson_addrs X' [other_entry; fresh_entry])
                  = inl [other_entry; fresh_entry])
    by (vm_compute; reflexivity).
  exact (updateEndpoints_settles X' s0 s0 tablet0 (addrs_to_json [other_entry])
           (mkStat 0) (mkStat 1) "vt7" "vt7" 6700 3306 [other_entry; fresh_entry]
           eq_refl eq_refl eq_refl eq_refl H1 H2
           (or_introl (ex_intro _ [other_entry]
                         (conj (or_intror (conj Hne Hdec)) (conj Hpre eq_refl))))
           Hne' Hback).
Defined.

Lemma updateEndpoints_updates_ports_only_witness :
  exists d',
    returned (updateEndpoints X (addrs_to_json [other_entry; stale_entry])
                (Some (mkStat 0)) s_stale)
    = Some (toJson_addrs X ([other_entry] ++ d' :: []), None) /\
    dHost d' = "old"%string /\ settled d' 6700 3306.
Proof.
  destruct sample_splits as (H1 & H2 & _).
  assert (Hne : addrs_to_json [other_entry; stale_entry] <> ""%string)
    by (vm_compute; discriminate).
  assert (Hdec : json_Unmarshal_addrs X (addrs_to_json [other_entry; stale_entry])
                 = inl ([other_entry] ++ stale_entry :: []))
    by (vm_compute; reflexivity).
  assert (Hpre : Forall (fun d' => dUid d' <> Uid (TabletOf tablet0)) [other_entry])
    by (constructor; [vm_compute; discriminate|constructor]).
  assert (Hstale : stale stale_entry (TabletOf tablet0) = true)
    by (vm_compute; reflexivity).
  destruct (updateEndpoints_updates_ports_only X s_stale tablet0 _ (mkStat 0)
              [other_entry] [] stale_entry (port_map 6600 3300)
              "vt7" "vt7" 6700 3306
              eq_refl eq_refl Hne Hdec Hpre eq_refl eq_refl Hstale H1 H2)
    as (d' & g' & Hret & _ & _ & _ & Hhost & _ & Hg' & Hv & Hq & _).
  exists d'. split; [exact Hret|]. split; [exact Hhost|].
  exists g'. by repeat split.
Defined.

Lemma verifyZkServingAddrs_waits_for_shard_witness :
  verifyZkServingAddrs X 1 s_idle = Ret None s_idle.
Proof.
  exact (proj1 (verifyZkServingAddrs_waits_for_shard X s_idle tablet_idle 1
                  eq_refl eq_refl) eq_refl).
Defined.

Lemma updateEndpoints_decode_failed_witness :
  verifyZkServingAddrs X 1 s_corrupt =
    Ret (Some (OtherError "invalid character"))
      (extend s_corrupt w_corrupt
         [EvStore (ZkReadShard (ShardPath tablet0));
          EvStore (ZkGet (serving_path X tablet0))]).
Proof.
  assert (Hne : "{"%string <> ""%string) by discriminate.
  assert (Hdec : json_Unmarshal_addrs X "{" = inr (OtherError "invalid character"))
    by (vm_compute; reflexivity).
  assert (Hget : zk_Get X (world s_corrupt) (serving_path X tablet0)
                 = inl ("{"%string, mkStat 4))
    by (vm_compute; reflexivity).
  assert (Hskip : OtherError "invalid character" <> skipUpdateErr) by discriminate.
  exact (proj2 (updateEndpoints_decode_failed X "{" _ Hne Hdec)
           s_corrupt tablet0 (fun t => N.eqb (Uid t) 7) 0%nat (mkStat 4)
           eq_refl eq_refl eq_refl eq_refl eq_refl Hget Hskip).
Defined.

Lemma resolveAddr_resolves_witness :
  resolveAddr X ":6700" s0 = Ret "localhost:6700"%string s0 /\
  resolveAddr X "localhost:6700" s0 = Ret "localhost:6700"%string s0.
Proof.
  destruct sample_splits as (_ & _ & _ & H).
  destruct (resolveAddr_resolves X s0 ":6700" "" 6700 H) as (_ & Hblank & Hagain & _).
  split.
  - exact (Hblank eq_refl).
  - assert (Hp : bare_host "localhost") by (repeat split; reflexivity).
    assert (Hne : "localhost"%string <> ""%string) by discriminate.
    exact (proj2 (Hagain "localhost"%string Hp Hne) s0).
Defined.

Lemma resolveAddr_drops_brackets_witness :
  resolveAddr X "[::1]:6700" s0 = Ret "::1:6700"%string s0 /\
  panicked (splitHostPort "::1:6700" s0) = true.
Proof.
  assert (Hn : -32768 <= 6700 <= 32767) by lia.
  destruct (resolveAddr_drops_brackets X s0 "::1" 6700 eq_refl eq_refl eq_refl Hn)
    as (Hrun & _ & Hsplit & _).
  split; [exact Hrun|exact (Hsplit s0)].
Defined.

Lemma two_hosts_always_stale_witness :
  stale (mkVtnsAddrData 7 "vt7" 0 (Some (port_map 6700 3306))) tablet_two = true.
Proof.
  destruct sample_splits as (H1 & _ & H2 & _).
  assert (Hp : plain_host "vt7") by (split; [reflexivity|discriminate]).
  assert (Hne : "db7"%string <> "vt7"%string) by discriminate.
  exact (proj2 (two_hosts_always_stale (W := World) tablet_two "vt7" "db7" 6700 3306
                  H1 H2 Hp Hne)).
Defined.

Lemma Start_stops_before_writing_witness :
  Start X 1 ":6700" ":3306" s_bare =
    Panicked (OtherError "no vtaction binary found") (after_refresh s_bare tablet0).
Proof.
  exact (proj2 (Start_stops_before_writing X 1 ":6700" ":3306" s_bare)
           tablet0 eq_refl eq_refl eq_refl eq_refl).
Defined.

Lemma malformed_node_is_skipped_witness :
  returned (handleActionQueue X s_four) = Some (Some 0%nat, None) /\
  dispatched (trace (final (handleActionQueue X s_four))) =
    map (child_path action_path)
      ["0000000001"; "0000000002"; "0000000003"; "0000000004"]%string /\
  In (action_cmd X agent0 path4 (mkActionNode "Ping" ("guid-of-" +:+ path4)))
     (launched (trace (final (handleActionQueue X s_four)))).
Proof.
  assert (Hsort : sort_Strings (queue w_four)
                  = ["0000000001"%string] ++ "0000000002"%string
                    :: ["0000000003"; "0000000004"]%string)
    by (vm_compute; reflexivity).
  assert (Hpre : dispatchChildren X action_path ["0000000001"%string]
                   (extend s_four w_four [EvStore (ZkChildrenW action_path)])
                 = Ret tt s_four1)
    by (vm_compute; reflexivity).
  assert (HG : zk_Get X (world s_four1) (child_path action_path "0000000002")
               = inl ("garbage"%string, mkStat 0))
    by (vm_compute; reflexivity).
  assert (HD : ActionNodeFromJson X "garbage" (child_path action_path "0000000002")
               = inr (OtherError "invalid character"))
    by (vm_compute; reflexivity).
  destruct (malformed_node_is_skipped X s_four s_four1 (queue w_four) (Some 0%nat)
              ["0000000001"%string] ["0000000003"; "0000000004"]%string
              "0000000002" "garbage" (mkStat 0) (OtherError "invalid character")
              eq_refl eq_refl Hsort Hpre HG HD)
    as (_ & _ & Hret & Hd & Hlater).
  split; [exact Hret|]. split; [exact Hd|].
  assert (Hrest1 : dispatchChildren X action_path ["0000000003"%string]
                     (after_decode_failure s_four1
                        (child_path action_path "0000000002")
                        (OtherError "invalid character"))
                   = Ret tt s_four2)
    by (vm_compute; reflexivity).
  assert (HG' : zk_Get X (world s_four2) (child_path action_path "0000000004")
                = inl ("Ping"%string, mkStat 0))
    by (vm_compute; reflexivity).
  exact (Hlater ["0000000003"%string] "0000000004"%string [] s_four2
           "Ping"%string (mkStat 0) (mkActionNode "Ping" ("guid-of-" +:+ path4))
           eq_refl Hrest1 HG' eq_refl).
Defined.


Lemma cache_never_deadlocks_witness :
  exists rest,
    length rest = 6%nat /\
    finished (run_schedule rest (refresh_beside_readers agent0 tablet0 1)).
Proof.
  destruct (cache_never_deadlocks agent0 tablet0 1 [] eq_refl) as (_ & Hc & _ & Hr).
  cbn [run_schedule] in Hc. rewrite Hr in Hc. exact Hc.
Defined.

End MoreRuns.

Section ServiceRuns.
Import Barnacle.

Lemma Init_only_once_witness :
  exited (Init V "c2" "bson" "_vts" 1 1
            (final (Init V "c1" "gorpc" "_vtocc" 30 3 b_new))) = true /\
  RpcBarnacle (final (Init V "c2" "bson" "_vts" 1 1
                        (final (Init V "c1" "gorpc" "_vtocc" 30 3 b_new))))
  = Some bnc0.
Proof.
  destruct (Init_only_once V "c1" "gorpc" "_vtocc" 30 3 b_new eq_refl)
    as (b & s1 & Hrun & Hb & _ & _ & _ & _ & Hagain).
  assert (Hs1 : RpcBarnacle (final (Init V "c1" "gorpc" "_vtocc" 30 3 b_new))
                = Some bnc0) by (vm_compute; reflexivity).
  rewrite Hrun in *. cbn [final] in *.
  rewrite (Hagain "c2"%string "bson"%string "_vts"%string 1 1).
  split; [reflexivity|exact Hs1].
Defined.

Lemma GetSessionId_ignores_Register_witness :
  fst (Register V (mkPool (sessions p0) 6 []) 2%nat 5 (VConn (mkVTConn 5)))
  = Some (OtherError "already present") /\
  returned (GetSessionId V bnc0 (mkSessionParams "replica") (mkSessionInfo 0) b_clash)
  = Some (mkSessionInfo 5, None).
Proof.
  split; [vm_compute; reflexivity|].
  rewrite (GetSessionId_ignores_Register V bnc0 (mkSessionParams "replica")
             (mkSessionInfo 0) b_clash (mkVTConn 5) (mkPool (sessions p0) 6 [])
             (mkPool (sessions p0) 6 []) (Some (OtherError "already present"))
             eq_refl eq_refl).
  reflexivity.
Defined.

Lemma Begin_overwrites_witness :
  returned (Begin V bnc0 (mkSession 7) (mkTransactionInfo 42) b0)
  = Some (mkTransactionInfo 0, Some (OtherError "no tablet")).
Proof.
  rewrite (Begin_overwrites V bnc0 (mkSession 7) (mkTransactionInfo 42) b0
             (mkVTConn 7)
             (mkPool (set_session 7 (Some (VConn (mkVTConn 7), true)) (sessions p0))
                10 [])
             (mkPool (set_session 7 (Some (VConn (mkVTConn 7), true)) (sessions p0))
                10 [])
             0 (Some (OtherError "no tablet")) eq_refl eq_refl).
  reflexivity.
Defined.

Lemma session_methods_put_back_witness :
  Barnacle.panicked (Commit V bnc0 (mkSession 9) b0) = true /\
  calls (final (Commit V bnc0 (mkSession 9) b0)) = [PoolGet 2 9; PoolPut 2 9].
Proof.
  split; [vm_compute; reflexivity|].
  exact (proj2 (proj1 (proj2 (proj2 (proj2
           (session_methods_put_back V bnc0 (mkQuery "select 1" tt "ks" ["0"%string] 5)
              (mkSession 9) ""%string tt (mkTransactionInfo 0) b0)))))).
Defined.

Lemma Execute_guards_reply_witness :
  returned (Execute V bnc0 (mkQuery "fail" tt "ks" ["0"%string] 5) "before"%string b0)
  = Some ("before"%string, Some (OtherError "syntax error")).
Proof.
  exact (proj2 (Execute_guards_reply V bnc0 (mkQuery "fail" tt "ks" ["0"%string] 5)
                  "before"%string b0)
           (mkVTConn 5)
           (mkPool (set_session 5 (Some (VConn (mkVTConn 5), true)) (sessions p0))
              10 [])
           None (Some (OtherError "syntax error"))
           (mkPool (set_session 5 (Some (VConn (mkVTConn 5), true)) (sessions p0))
              10 [])
           eq_refl eq_refl).
Defined.

Lemma CloseSession_unregisters_witness :
  returned (CloseSession V bnc0 (mkSession 5) b0) = Some None /\
  lookup_session 5 (sessions (world (final (CloseSession V bnc0 (mkSession 5) b0))))
  = None /\
  count (is_put 2 5) (calls (final (CloseSession V bnc0 (mkSession 5) b0))) = 0%nat.
Proof.
  split; [vm_compute; reflexivity|]. split; [vm_compute; reflexivity|].
  exact (proj2 (CloseSession_unregisters V bnc0 (mkSession 5) b0)).
Defined.

End ServiceRuns.
